(** * gyaml: a path query engine over YAML text

    A shallow embedding of [gyaml.go] and [fast_parser.go].

    Go strings are byte sequences, modelled as [string] (a list of 8-bit
    [ascii]).  Go [int] values (lengths, indents, indexes) are modelled
    as [Z]; [float64] is the kernel's IEEE-754 binary64 [float].  A
    run-time panic is an explicit outcome, [Panic].  The YAML library
    ([yamlv3.Unmarshal], [yamlv3.Marshal]) and the float/text conversions
    of [strconv] and [fmt] are not code of this package: they are the
    fields of a [Host] record every engine function is parameterised by. *)

From Stdlib Require Import ZArith Bool List Ascii String Lia Floats Uint63.
From Stdlib Require Import DecimalString DecimalPos.
Import ListNotations.

Local Open Scope string_scope.
Local Open Scope Z_scope.

(* ================================================================= *)
(** ** Bytes *)

Definition byte_of (n : nat) : ascii := ascii_of_nat n.

Definition NL : ascii := byte_of 10.
Definition TAB : ascii := byte_of 9.
Definition DQUOTE : ascii := byte_of 34.
Definition SQUOTE : ascii := byte_of 39.
Definition BACKSLASH : ascii := byte_of 92.

(** [len(s)] *)
Definition len (s : string) : Z := Z.of_nat (String.length s).

Fixpoint rev_append (s acc : string) : string :=
  match s with
  | EmptyString => acc
  | String c s' => rev_append s' (String c acc)
  end.

Definition rev (s : string) : string := rev_append s "".

(** [s[n:]], for [0 <= n <= len(s)] *)
Fixpoint drop (n : nat) (s : string) : string :=
  match n, s with
  | O, _ => s
  | S n', String _ s' => drop n' s'
  | S _, EmptyString => EmptyString
  end.

(* ================================================================= *)
(** ** The part of Go's [strings] package the engine calls *)

Module strings.

(** [strings.HasPrefix(s, prefix)] *)
Definition HasPrefix (s prefix : string) : bool := String.prefix prefix s.

(** [strings.HasSuffix(s, suffix)] *)
Definition HasSuffix (s suffix : string) : bool :=
  String.prefix (rev suffix) (rev s).

(** [strings.Contains(s, substr)] *)
Fixpoint Contains (s substr : string) : bool :=
  HasPrefix s substr ||
  match s with
  | EmptyString => false
  | String _ s' => Contains s' substr
  end.

(** [strings.Index(s, substr)]: the first offset, or [-1]. *)
Fixpoint Index (s substr : string) : Z :=
  if HasPrefix s substr then 0
  else match s with
       | EmptyString => -1
       | String _ s' =>
           let i := Index s' substr in
           if i <? 0 then -1 else i + 1
       end.

Fixpoint mem (c : ascii) (cutset : string) : bool :=
  match cutset with
  | EmptyString => false
  | String d cutset' => Ascii.eqb c d || mem c cutset'
  end.

(** [strings.ContainsAny(s, chars)], for ASCII [chars] *)
Fixpoint ContainsAny (s chars : string) : bool :=
  match s with
  | EmptyString => false
  | String c s' => mem c chars || ContainsAny s' chars
  end.

(** [strings.TrimLeft(s, cutset)], for an ASCII [cutset] *)
Fixpoint TrimLeft (s cutset : string) : string :=
  match s with
  | EmptyString => EmptyString
  | String c s' => if mem c cutset then TrimLeft s' cutset else s
  end.

Definition TrimRight (s cutset : string) : string :=
  rev (TrimLeft (rev s) cutset).

(** [strings.Trim(s, cutset)] *)
Definition Trim (s cutset : string) : string :=
  TrimRight (TrimLeft s cutset) cutset.

(** The ASCII bytes [unicode.IsSpace] accepts: tab, newline, vertical
    tab, form feed, carriage return and space. *)
Definition asciiSpace (c : ascii) : bool :=
  match nat_of_ascii c with
  | 9%nat | 10%nat | 11%nat | 12%nat | 13%nat | 32%nat => true
  | _ => false
  end.

(** The other runes of [unicode.IsSpace], by their UTF-8 bytes:
    U+0085 and U+00A0 (two bytes); U+1680, U+2000..U+200A, U+2028,
    U+2029, U+202F, U+205F and U+3000 (three bytes). *)
Definition space2 (c1 c2 : ascii) : bool :=
  match nat_of_ascii c1, nat_of_ascii c2 with
  | 194%nat, 133%nat | 194%nat, 160%nat => true
  | _, _ => false
  end.

Definition space3 (c1 c2 c3 : ascii) : bool :=
  let n3 := nat_of_ascii c3 in
  match nat_of_ascii c1, nat_of_ascii c2 with
  | 225%nat, 154%nat => Nat.eqb n3 128
  | 226%nat, 128%nat =>
      (Nat.leb 128 n3 && Nat.leb n3 138)
      || Nat.eqb n3 168 || Nat.eqb n3 169 || Nat.eqb n3 175
  | 226%nat, 129%nat => Nat.eqb n3 159
  | 227%nat, 128%nat => Nat.eqb n3 128
  | _, _ => false
  end.

Fixpoint trimSpaceLeft (s : string) : string :=
  match s with
  | EmptyString => EmptyString
  | String c1 s1 =>
      if asciiSpace c1 then trimSpaceLeft s1
      else match s1 with
           | EmptyString => s
           | String c2 s2 =>
               if space2 c1 c2 then trimSpaceLeft s2
               else match s2 with
                    | EmptyString => s
                    | String c3 s3 =>
                        if space3 c1 c2 c3 then trimSpaceLeft s3 else s
                    end
           end
  end.

(** The same scan from the end, on the reversed string (so the last
    byte of a rune comes first). *)
Fixpoint trimSpaceRev (s : string) : string :=
  match s with
  | EmptyString => EmptyString
  | String c1 s1 =>
      if asciiSpace c1 then trimSpaceRev s1
      else match s1 with
           | EmptyString => s
           | String c2 s2 =>
               if space2 c2 c1 then trimSpaceRev s2
               else match s2 with
                    | EmptyString => s
                    | String c3 s3 =>
                        if space3 c3 c2 c1 then trimSpaceRev s3 else s
                    end
           end
  end.

(** [strings.TrimSpace(s)] *)
Definition TrimSpace (s : string) : string :=
  rev (trimSpaceRev (rev (trimSpaceLeft s))).

Definition lowerByte (c : ascii) : ascii :=
  let n := nat_of_ascii c in
  if (Nat.leb 65 n && Nat.leb n 90)%bool then ascii_of_nat (n + 32) else c.

(** [strings.ToLower(s)] on the ASCII letters.  The engine only
    compares the result with the ASCII words [true], [yes], [on],
    [false], [no], [off], [null] and [~]; the two non-ASCII runes Go
    lowers to an ASCII letter give [k] and [i], which none of these
    words contains, so the comparisons agree with Go's on every input. *)
Fixpoint ToLower (s : string) : string :=
  match s with
  | EmptyString => EmptyString
  | String c s' => String (lowerByte c) (ToLower s')
  end.

(** [strings.Split(s, sep)] for a one-byte separator: always at least
    one field. *)
Fixpoint Split (s : string) (sep : ascii) : list string :=
  match s with
  | EmptyString => [EmptyString]
  | String c s' =>
      if Ascii.eqb c sep then EmptyString :: Split s' sep
      else match Split s' sep with
           | [] => [String c EmptyString]
           | f :: fs => String c f :: fs
           end
  end.

(** [strings.Join(elems, sep)] *)
Definition Join (elems : list string) (sep : string) : string :=
  String.concat sep elems.

(** [strings.Repeat(s, count)], for [count >= 0] *)
Fixpoint repeat_nat (s : string) (n : nat) : string :=
  match n with
  | O => EmptyString
  | S n' => s ++ repeat_nat s n'
  end.

Definition Repeat (s : string) (count : Z) : string :=
  repeat_nat s (Z.to_nat count).

End strings.

(* ================================================================= *)
(** ** The part of Go's [strconv] package that works on integers *)

Module strconv.

Definition digit (c : ascii) : option Z :=
  let n := nat_of_ascii c in
  if (Nat.leb 48 n && Nat.leb n 57)%bool then Some (Z.of_nat (n - 48)) else None.

Fixpoint digits (acc : Z) (s : string) : option Z :=
  match s with
  | EmptyString => Some acc
  | String c s' =>
      match digit c with
      | Some d => digits (acc * 10 + d) s'
      | None => None
      end
  end.

(** [strconv.Atoi(s)] with [err == nil] as [Some]: an optional sign,
    at least one decimal digit, nothing else, and the value in the
    range of a 64-bit [int]. *)
Definition Atoi (s : string) : option Z :=
  let '(neg, body) :=
    match s with
    | String c s' =>
        if Ascii.eqb c "-" then (true, s')
        else if Ascii.eqb c "+" then (false, s')
        else (false, s)
    | EmptyString => (false, s)
    end in
  match body with
  | EmptyString => None
  | _ =>
      match digits 0 body with
      | None => None
      | Some n =>
          let v := if neg then - n else n in
          if (- 2 ^ 63 <=? v) && (v <=? 2 ^ 63 - 1) then Some v else None
      end
  end.

(** [strconv.Itoa(n)] *)
Definition Itoa (n : Z) : string := NilEmpty.string_of_int (Z.to_int n).

End strconv.

(* ================================================================= *)
(** ** Outcomes of Go code that may panic *)

Inductive outcome (A : Type) : Type :=
| Ret (a : A)
| Panic.

Arguments Ret {A} a.
Arguments Panic {A}.

Definition bind {A B : Type} (m : outcome A) (k : A -> outcome B) : outcome B :=
  match m with
  | Ret a => k a
  | Panic => Panic
  end.

Notation "x <- m ;; k" := (bind m (fun x => k))
  (at level 61, m at next level, right associativity).
Notation "' pat <- m ;; k" := (bind m (fun x => match x with pat => k end))
  (at level 61, pat pattern, m at next level, right associativity).

(** The slice expression [s[lo:hi]] of a string: Go panics unless
    [0 <= lo <= hi <= len(s)]. *)
Definition slice (s : string) (lo hi : Z) : outcome string :=
  if (0 <=? lo) && (lo <=? hi) && (hi <=? len s)
  then Ret (String.substring (Z.to_nat lo) (Z.to_nat (hi - lo)) s)
  else Panic.

(* ================================================================= *)
(** ** The value model ([gyaml.go], lines 18-71) *)

(** [type Type int]; the constants in their [iota] order.  [False],
    [String] and [True] carry a trailing underscore, the Go names being
    taken in Rocq. *)
Inductive Type_ : Set :=
| Null
| False_
| Number
| String_
| True_
| YAML.

Definition Type_eqb (a b : Type_) : bool :=
  match a, b with
  | Null, Null | False_, False_ | Number, Number
  | String_, String_ | True_, True_ | YAML, YAML => true
  | _, _ => false
  end.

Definition float64 : Set := float.

(** The conversion [float64(n)] of a 64-bit [int], rounding to nearest
    even.  The kernel converts 63-bit naturals; [-2^63], the one [int]
    whose magnitude is not one, is twice [-2^62]. *)
Definition float64_of_int (n : Z) : float64 :=
  if n =? - 2 ^ 63 then
    PrimFloat.opp (PrimFloat.mul (PrimFloat.of_uint63 (Uint63.of_Z (2 ^ 62))) 2%float)
  else if n <? 0 then PrimFloat.opp (PrimFloat.of_uint63 (Uint63.of_Z (- n)))
  else PrimFloat.of_uint63 (Uint63.of_Z n).

(** [type Result struct] *)
Record Result : Set := mkResult {
  Type' : Type_;
  Raw : string;
  Str : string;
  Num : float64;
  Index : Z;
  Indexes : list Z
}.

(** The zero value [Result{}]. *)
Definition Result_zero : Result := mkResult Null "" "" 0%float 0 [].

#[local] Set Warnings "-register-all".

(** What [yamlv3.Unmarshal] stores in an [interface{}], as the type
    switches of the engine read it: [nil], [bool], [int] or [int64],
    [float64], [string], [[]interface{}] and [map[string]interface{}].
    A map is kept as the list of its entries, keys distinct; the order
    of the list stands for the order in which a [range] visits them. *)
Inductive value : Set :=
| VNil
| VBool (b : bool)
| VInt (n : Z)
| VFloat (f : float64)
| VString (s : string)
| VSeq (items : list value)
| VMap (entries : list (string * value)).

(** Map index [m[k]] with its [ok] flag. *)
Fixpoint lookup (k : string) (m : list (string * value)) : option value :=
  match m with
  | [] => None
  | (k', v) :: m' => if String.eqb k' k then Some v else lookup k m'
  end.

(** [joined[k] = v] *)
Fixpoint assign (k : string) (v : value) (m : list (string * value))
  : list (string * value) :=
  match m with
  | [] => [(k, v)]
  | (k', v') :: m' =>
      if String.eqb k' k then (k, v) :: m' else (k', v') :: assign k v m'
  end.

(** The libraries the engine calls but does not contain. *)
Record Host : Type := mkHost {
  (** [yamlv3.Unmarshal([]byte(text), &data)]: [Some data] when [err == nil] *)
  Unmarshal : string -> option value;
  (** [yamlv3.Marshal(v)], as a string *)
  Marshal : value -> string;
  (** [strconv.ParseFloat(s, 64)]: the float, and whether [err == nil] *)
  ParseFloat : string -> float64 * bool;
  (** [strconv.FormatFloat(f, 'f', -1, 64)] *)
  FormatFloat : float64 -> string;
  (** [fmt.Sprint(f)] of a [float64] *)
  SprintFloat : float64 -> string
}.

(** The modifier table: [modifiers[name]] with its [ok] flag. *)
Definition registry : Type := string -> option (string -> string -> string).

(* ================================================================= *)
(** ** Pattern matcher ([gyaml.go], lines 1069-1106) *)

(** The [for len(pattern) > 0] loop consumes one pattern byte per turn,
    which is the recursion on [pattern]; the inner [for i := 0; i <=
    len(str); i++] loop tries every suffix [str[i:]], which is [loop]. *)
Fixpoint deepMatch (str pattern : string) {struct pattern} : bool :=
  match pattern with
  | EmptyString => len str =? 0
  | String p pattern' =>
      if Ascii.eqb p "*" then
        match pattern' with
        | EmptyString => true
        | _ =>
            (fix loop (s : string) : bool :=
               if deepMatch s pattern' then true
               else match s with
                    | EmptyString => false
                    | String _ s' => loop s'
                    end) str
        end
      else if Ascii.eqb p "?" then
        match str with
        | EmptyString => false
        | String _ str' => deepMatch str' pattern'
        end
      else
        match str with
        | EmptyString => false
        | String c str' =>
            if Ascii.eqb c p then deepMatch str' pattern' else false
        end
  end.

Definition wildcard (str pattern : string) : bool := deepMatch str pattern.

Definition matchPattern (str pattern : string) : bool := wildcard str pattern.

(** The star loop of [deepMatch], named. *)
Fixpoint anySuffix (pattern' s : string) : bool :=
  if deepMatch s pattern' then true
  else match s with
       | EmptyString => false
       | String _ s' => anySuffix pattern' s'
       end.

(** The matcher as the specification words it: [*] stands for any run
    of bytes, [?] for exactly one byte, any other byte for itself. *)
Inductive glob_spec : string -> string -> Prop :=
| glob_end : glob_spec "" ""
| glob_star : forall run str pattern,
    glob_spec str pattern -> glob_spec (run ++ str) (String "*" pattern)
| glob_one : forall c str pattern,
    glob_spec str pattern -> glob_spec (String c str) (String "?" pattern)
| glob_byte : forall c str pattern,
    c <> "*"%char -> c <> "?"%char ->
    glob_spec str pattern -> glob_spec (String c str) (String c pattern).

(* ================================================================= *)
(** ** Path tokenizer ([gyaml.go], lines 678-811) *)

(** [type pathComponent struct] *)
Record pathComponent : Set := mkComponent {
  key : string;
  isWild : bool;
  isQuery : bool;
  query : string;
  isIndex : bool;
  index : Z;
  isCount : bool;
  pipe : string;
  hasPipe : bool;
  multi : bool
}.

(** The zero value [pathComponent{}]. *)
Definition component_zero : pathComponent :=
  mkComponent "" false false "" false 0 false "" false false.

Definition with_key (k : string) (c : pathComponent) : pathComponent :=
  mkComponent k (isWild c) (isQuery c) (query c) (isIndex c) (index c)
              (isCount c) (pipe c) (hasPipe c) (multi c).

Definition with_query (q : string) (c : pathComponent) : pathComponent :=
  mkComponent (key c) (isWild c) (isQuery c) q (isIndex c) (index c)
              (isCount c) (pipe c) (hasPipe c) (multi c).

Definition with_multi (c : pathComponent) : pathComponent :=
  mkComponent (key c) (isWild c) (isQuery c) (query c) (isIndex c) (index c)
              (isCount c) (pipe c) (hasPipe c) true.

Definition keyComponent (k : string) : pathComponent :=
  with_key k component_zero.

Definition queryComponent : pathComponent :=
  mkComponent "" false true "" false 0 false "" false false.

Definition countComponent : pathComponent :=
  mkComponent "" false false "" false 0 true "" false false.

Definition pipeComponent (rest : string) : pathComponent :=
  mkComponent "" false false "" false 0 false rest true false.

Definition parseComponent (s : string) : pathComponent :=
  if strings.ContainsAny s "*?" then
    mkComponent s true false "" false 0 false "" false false
  else
    match strconv.Atoi s with
    | Some idx => mkComponent "" false false "" true idx false "" false false
    | None => keyComponent s
    end.

(** [parts[len(parts)-1] = f(parts[len(parts)-1])] *)
Fixpoint updateLast (f : pathComponent -> pathComponent)
  (parts : list pathComponent) : list pathComponent :=
  match parts with
  | [] => []
  | [c] => [f c]
  | c :: parts' => c :: updateLast f parts'
  end.

(** [if current.Len() > 0 { parts = append(parts, mk(current.String())) }] *)
Definition flush (mk : string -> pathComponent) (parts : list pathComponent)
  (current : string) : list pathComponent :=
  match current with
  | EmptyString => parts
  | _ => parts ++ [mk current]
  end.

(** The loop of [parsePath] over the bytes still to read; [current] is
    the [strings.Builder].  Where the source looks one byte ahead and
    skips it ([i++]), the recursion continues two bytes further. *)
Fixpoint parsePath_loop (parts : list pathComponent) (current : string)
  (inQuery : bool) (queryDepth : Z) (escaped : bool) (path : string)
  {struct path} : list pathComponent :=
  match path with
  | EmptyString => flush parseComponent parts current
  | String ch rest =>
      if escaped then
        parsePath_loop parts (current ++ String ch "") inQuery queryDepth false rest
      else if Ascii.eqb ch BACKSLASH then
        parsePath_loop parts current inQuery queryDepth true rest
      else if Ascii.eqb ch "#" && negb inQuery then
        match rest with
        | String "(" rest' =>
            parsePath_loop (flush keyComponent parts current ++ [queryComponent])
                           "" true 1 false rest'
        | _ =>
            parsePath_loop (flush keyComponent parts current ++ [countComponent])
                           "" inQuery queryDepth false rest
        end
      else if inQuery then
        if Ascii.eqb ch "(" then
          parsePath_loop parts (current ++ String ch "") inQuery (queryDepth + 1) false rest
        else if Ascii.eqb ch ")" then
          if queryDepth - 1 =? 0 then
            let parts' := updateLast (with_query current) parts in
            match rest with
            | String "#" rest' =>
                parsePath_loop (updateLast with_multi parts') "" false (queryDepth - 1) false rest'
            | _ =>
                parsePath_loop parts' "" false (queryDepth - 1) false rest
            end
          else
            parsePath_loop parts (current ++ String ch "") inQuery (queryDepth - 1) false rest
        else
          parsePath_loop parts (current ++ String ch "") inQuery queryDepth false rest
      else if Ascii.eqb ch "." then
        parsePath_loop (flush parseComponent parts current) "" inQuery queryDepth false rest
      else if Ascii.eqb ch "|" then
        flush parseComponent parts current ++ [pipeComponent rest]
      else
        parsePath_loop parts (current ++ String ch "") inQuery queryDepth false rest
  end.

Definition parsePath (path : string) : list pathComponent :=
  parsePath_loop [] "" false 0 false path.

(* ================================================================= *)
(** ** The traversal engine ([gyaml.go]) *)

Section Engine.

Variable H : Host.

(** The package variable [modifiers], as it stands when a query runs. *)
Variable modifiers : registry.

(** *** Results ([gyaml.go], lines 192-370 and 607-656) *)

Definition valueToResult (val : value) : Result :=
  match val with
  | VNil => mkResult Null "" "" 0%float 0 []
  | VBool true => mkResult True_ "true" "" 0%float 0 []
  | VBool false => mkResult False_ "false" "" 0%float 0 []
  | VInt v => mkResult Number (strconv.Itoa v) "" (float64_of_int v) 0 []
  | VFloat v => mkResult Number (FormatFloat H v) "" v 0 []
  | VString v => mkResult String_ v v 0%float 0 []
  | VSeq _ | VMap _ => mkResult YAML (Marshal H val) "" 0%float 0 []
  end.

(** [func (t Result) Exists() bool] *)
Definition Exists (t : Result) : bool :=
  negb (Type_eqb (Type' t) Null) || negb (len (Raw t) =? 0).

(** [func (t Result) Value() interface{}] *)
Definition Value (t : Result) : value :=
  match Type' t with
  | False_ => VBool false
  | Number => VFloat (Num t)
  | String_ => VString (Str t)
  | True_ => VBool true
  | YAML =>
      match Unmarshal H (Raw t) with
      | Some data => data
      | None => VNil
      end
  | Null => VNil
  end.

Definition isYAMLObject (s : string) : bool := strings.Contains s ": ".

Definition isYAMLArray (s : string) : bool :=
  strings.HasPrefix (strings.TrimSpace s) "- ".

(** [t.Raw[0] == c], after [len(t.Raw) > 0] *)
Definition firstByteIs (s : string) (c : ascii) : bool :=
  match s with
  | String c0 _ => Ascii.eqb c0 c
  | EmptyString => false
  end.

(** [func (t Result) IsArray() bool] *)
Definition IsArray (t : Result) : bool :=
  Type_eqb (Type' t) YAML && (0 <? len (Raw t))
  && (firstByteIs (Raw t) "[" || isYAMLArray (Raw t)).

(** [func (t Result) IsObject() bool] *)
Definition IsObject (t : Result) : bool :=
  Type_eqb (Type' t) YAML && (0 <? len (Raw t))
  && (firstByteIs (Raw t) "{" || isYAMLObject (Raw t)).

(** [func (t Result) Array() []Result]; [arrayOrMap('[', false)]
    leaves [r.a] empty unless the text parses as a sequence. *)
Definition Array (t : Result) : list Result :=
  if Type_eqb (Type' t) Null then []
  else if negb (IsArray t) then [t]
  else match Unmarshal H (Raw t) with
       | Some (VSeq v) => map valueToResult v
       | _ => []
       end.

(** *** Queries ([gyaml.go], lines 935-1067) *)

(** Go prints a map with its keys sorted. *)
Fixpoint insertByKey (e : string * string) (l : list (string * string))
  : list (string * string) :=
  match l with
  | [] => [e]
  | e' :: l' =>
      if String.leb (fst e) (fst e') then e :: l else e' :: insertByKey e l'
  end.

Definition sortByKey (l : list (string * string)) : list (string * string) :=
  fold_right insertByKey [] l.

(** [fmt.Sprint(itemValue)] *)
Fixpoint Sprint (v : value) : string :=
  match v with
  | VNil => "<nil>"
  | VBool true => "true"
  | VBool false => "false"
  | VInt n => strconv.Itoa n
  | VFloat f => SprintFloat H f
  | VString s => s
  | VSeq items => "[" ++ strings.Join (map Sprint items) " " ++ "]"
  | VMap entries =>
      "map["
      ++ strings.Join
           (map (fun e => fst e ++ ":" ++ snd e)
                (sortByKey (map (fun e => (fst e, Sprint (snd e))) entries)))
           " "
      ++ "]"
  end.

Definition compareNumeric (itemValue : value) (op value : string) : bool :=
  let num (itemNum : float64) : bool :=
    let '(valueNum, ok) := ParseFloat H value in
    if negb ok then false
    else if String.eqb op "<" then PrimFloat.ltb itemNum valueNum
    else if String.eqb op "<=" then PrimFloat.leb itemNum valueNum
    else if String.eqb op ">" then PrimFloat.ltb valueNum itemNum
    else if String.eqb op ">=" then PrimFloat.leb valueNum itemNum
    else false in
  match itemValue with
  | VFloat v => num v
  | VInt v => num (float64_of_int v)
  | VString v => num (fst (ParseFloat H v))
  | _ => false
  end.

Definition compareValues (itemValue : value) (op value : string) : bool :=
  if String.eqb op "==" then String.eqb (Sprint itemValue) value
  else if String.eqb op "!=" then negb (String.eqb (Sprint itemValue) value)
  else if String.eqb op "%" then matchPattern (Sprint itemValue) value
  else if String.eqb op "!%" then negb (matchPattern (Sprint itemValue) value)
  else if String.eqb op "<" || String.eqb op "<=" || String.eqb op ">"
          || String.eqb op ">=" then compareNumeric itemValue op value
  else false.

(** The loop over the parts of a dotted key; a missing key reads as
    [nil]. *)
Fixpoint getValueByKey_loop (current : value) (parts : list string) : value :=
  match parts with
  | [] => current
  | part :: parts' =>
      match current with
      | VMap m =>
          getValueByKey_loop
            (match lookup part m with Some v => v | None => VNil end) parts'
      | _ => VNil
      end
  end.

Definition getValueByKey (data : value) (key : string) : value :=
  match data with
  | VMap m =>
      if strings.Contains key "." then
        getValueByKey_loop data (strings.Split key ".")
      else match lookup key m with Some v => v | None => VNil end
  | _ => VNil
  end.

(** The operators in the order [evaluateQuery] looks for them. *)
Definition operators : list string :=
  ["=="; "!="; "<="; ">="; "<"; ">"; "!%"; "%"].

(** The first operator of the list that occurs in [query], with the
    text on either side of its first occurrence. *)
Fixpoint findOperator (query : string) (ops : list string)
  : option (string * string * string) :=
  match ops with
  | [] => None
  | operator :: ops' =>
      let idx := strings.Index query operator in
      if negb (idx =? -1) then
        Some (strings.TrimSpace (String.substring 0 (Z.to_nat idx) query),
              operator,
              strings.TrimSpace (drop (Z.to_nat (idx + len operator)) query))
      else findOperator query ops'
  end.

Definition evaluateQuery (item : value) (query : string) : bool :=
  match findOperator query operators with
  | None => false
  | Some (key, op, value) =>
      let value := strings.Trim value (String DQUOTE (String SQUOTE "")) in
      let itemValue :=
        if String.eqb key "" then item else getValueByKey item key in
      compareValues itemValue op value
  end.

Definition handleQuery (data : value) (part : pathComponent)
  (remainingParts : list pathComponent) : value :=
  match data with
  | VSeq arr =>
      let matches := filter (fun item => evaluateQuery item (query part)) arr in
      if multi part then VSeq matches
      else match matches with
           | m :: _ => m
           | [] => VNil
           end
  | _ => VNil
  end.

(** *** Modifiers ([gyaml.go], lines 1108-1294) *)

(** [func Valid(yaml string) bool] *)
Definition Valid (yaml : string) : bool :=
  if len (strings.TrimSpace yaml) =? 0 then false
  else match Unmarshal H yaml with
       | Some _ => true
       | None => false
       end.

Definition modReverse (yamlStr arg : string) : string :=
  match Unmarshal H yamlStr with
  | None => yamlStr
  | Some (VSeq v) => Marshal H (VSeq (List.rev v))
  | Some (VMap v) => Marshal H (VMap v)
  | Some _ => yamlStr
  end.

Definition modUgly (yamlStr arg : string) : string :=
  match Unmarshal H yamlStr with
  | None => yamlStr
  | Some data => strings.TrimSpace (Marshal H data)
  end.

Definition modPretty (yamlStr arg : string) : string :=
  match Unmarshal H yamlStr with
  | None => yamlStr
  | Some data => Marshal H data
  end.

Definition modThis (yamlStr arg : string) : string := yamlStr.

Definition modValid (yamlStr arg : string) : string :=
  if Valid yamlStr then "true" else "false".

Fixpoint flattenItem (item : value) : list value :=
  match item with
  | VSeq subArr => flat_map flattenItem subArr
  | _ => [item]
  end.

Definition flattenArray (arr : list value) : list value :=
  flat_map flattenItem arr.

Definition modFlatten (yamlStr arg : string) : string :=
  match Unmarshal H yamlStr with
  | Some (VSeq arr) => Marshal H (VSeq (flattenArray arr))
  | _ => yamlStr
  end.

Definition joinItem (joined : list (string * value)) (item : value)
  : list (string * value) :=
  match item with
  | VMap m => fold_left (fun j e => assign (fst e) (snd e) j) m joined
  | _ => joined
  end.

Definition modJoin (yamlStr arg : string) : string :=
  match Unmarshal H yamlStr with
  | Some (VSeq arr) => Marshal H (VMap (fold_left joinItem arr []))
  | _ => yamlStr
  end.

Definition modKeys (yamlStr arg : string) : string :=
  match Unmarshal H yamlStr with
  | Some (VMap m) => Marshal H (VSeq (map (fun e => VString (fst e)) m))
  | _ => yamlStr
  end.

Definition modValues (yamlStr arg : string) : string :=
  match Unmarshal H yamlStr with
  | Some (VMap m) => Marshal H (VSeq (map snd m))
  | _ => yamlStr
  end.

(** The initial value of [var modifiers]. *)
Definition builtin_modifiers : registry :=
  fun name =>
    if String.eqb name "reverse" then Some modReverse
    else if String.eqb name "ugly" then Some modUgly
    else if String.eqb name "pretty" then Some modPretty
    else if String.eqb name "this" then Some modThis
    else if String.eqb name "valid" then Some modValid
    else if String.eqb name "flatten" then Some modFlatten
    else if String.eqb name "join" then Some modJoin
    else if String.eqb name "keys" then Some modKeys
    else if String.eqb name "values" then Some modValues
    else None.

(** [func AddModifier(name, fn)]: the table after [modifiers[name] = fn]. *)
Definition AddModifier (name : string) (fn : string -> string -> string)
  (table : registry) : registry :=
  fun n => if String.eqb n name then Some fn else table n.

(** [yamlv3.Unmarshal([]byte(result), &newData)] with the error
    dropped: [newData] stays [nil] when the text does not parse. *)
Definition unmarshalOrNil (text : string) : value :=
  match Unmarshal H text with
  | Some newData => newData
  | None => VNil
  end.

(** [applyModifier] calls itself on a strictly shorter path (the
    text after the [|] that follows the modifier's name); [fuel]
    bounds the depth of that recursion. *)
Fixpoint applyModifier_fuel (fuel : nat) (data : value) (path yamlStr : string)
  : Result :=
  if negb (strings.HasPrefix path "@") then valueToResult data
  else
    let idx := strings.Index path ":" in
    let '(modName, modArg) :=
      if negb (idx =? -1)
      then (String.substring 1 (Z.to_nat (idx - 1)) path,
            drop (Z.to_nat (idx + 1)) path)
      else (drop 1 path, "") in
    let last (modName : string) : Result :=
      match modifiers modName with
      | Some fn => valueToResult (unmarshalOrNil (fn yamlStr modArg))
      | None => valueToResult data
      end in
    let idx := strings.Index modName "|" in
    if negb (idx =? -1) then
      let remaining := drop (Z.to_nat idx) modName in
      let modName := String.substring 0 (Z.to_nat idx) modName in
      match modifiers modName with
      | Some fn =>
          match fuel with
          | S fuel' =>
              applyModifier_fuel fuel' data (drop 1 remaining) (fn yamlStr modArg)
          | O => valueToResult data
          end
      | None => last modName
      end
    else last modName.

Definition applyModifier (data : value) (path yamlStr : string) : Result :=
  applyModifier_fuel (String.length path) data path yamlStr.

(** *** Traversal ([gyaml.go], lines 658-676 and 813-933) *)

(** [Result{Type: Number, Num: float64(n), Raw: strconv.Itoa(n)}] *)
Definition countResult (n : Z) : Result :=
  mkResult Number (strconv.Itoa n) "" (float64_of_int n) 0 [].

(** [v[i]], for [0 <= i < len(v)] *)
Definition element (v : list value) (i : Z) : value :=
  nth (Z.to_nat i) v VNil.

(** The key of a path component applied to each element that is a
    map and has it. *)
Fixpoint projectKey (k : string) (v : list value) : list value :=
  match v with
  | [] => []
  | VMap m :: v' =>
      match lookup k m with
      | Some val => val :: projectKey k v'
      | None => projectKey k v'
      end
  | _ :: v' => projectKey k v'
  end.

(** The final [switch v := current.(type)] of the loop body: the new
    [current], or [None] where the source returns [Result{Type: Null}].
    For a wildcard the source ranges over a Go map, in an order the
    language leaves open and that may change from one loop to the next;
    here the entries are visited in the order of the list, which is one
    of these orders.  A result about a wildcard with more than one
    match therefore describes one possible run. *)
Definition step (part : pathComponent) (current : value) : option value :=
  match current with
  | VMap v =>
      if isWild part then
        let matches :=
          map snd (filter (fun e => matchPattern (fst e) (key part)) v) in
        match matches with
        | [m] => Some m
        | _ => Some (VSeq matches)
        end
      else lookup (key part) v
  | VSeq v =>
      if isIndex part then
        if (index part <? 0) || (Z.of_nat (List.length v) <=? index part) then None
        else Some (element v (index part))
      else if negb (String.eqb (key part) "") then
        match projectKey (key part) v with
        | [] => None
        | results => Some (VSeq results)
        end
      else Some current
  | _ => None
  end.

(** The values of the existent results, in order. *)
Definition collect (f : value -> Result) (items : list value) : list value :=
  flat_map (fun item => let res := f item in
                        if Exists res then [Value res] else []) items.

(** The [for i, part := range parts] loop consumes one component per
    turn and the recursive calls all pass [parts[i+1:]], so the
    function recurses on the list of components still to apply. *)
Fixpoint traversePath (data : value) (parts : list pathComponent)
  (origYAML : string) {struct parts} : Result :=
  match parts with
  | [] => valueToResult data
  | part :: rest =>
      let current := data in
      if hasPipe part then
        applyModifier current (pipe part) (Raw (valueToResult current))
      else
        let stepped :=
          match step part current with
          | None => Result_zero
          | Some current' => traversePath current' rest origYAML
          end in
        let queried :=
          if isQuery part then
            let current := handleQuery current part rest in
            if negb (multi part) then
              match rest with
              | _ :: _ => traversePath current rest origYAML
              | [] => valueToResult current
              end
            else
              match rest, current with
              | _ :: _, VSeq matches =>
                  valueToResult
                    (VSeq (collect (fun m => traversePath m rest origYAML) matches))
              | _, _ => valueToResult current
              end
          else stepped in
        if isCount part then
          match rest with
          | _ :: _ =>
              match current with
              | VSeq v =>
                  valueToResult
                    (VSeq (collect (fun item => traversePath item rest origYAML) v))
              | VMap _ => Result_zero
              | _ => queried
              end
          | [] =>
              match current with
              | VSeq v => countResult (Z.of_nat (List.length v))
              | VMap v => countResult (Z.of_nat (List.length v))
              | _ => countResult 0
              end
          end
        else queried
  end.

Definition getFromPath (data : value) (path origYAML : string) : Result :=
  if String.eqb path "" || String.eqb path "@this" then valueToResult data
  else if firstByteIs path "@" then applyModifier data path origYAML
  else
    match parsePath path with
    | [] => valueToResult data
    | parts => traversePath data parts origYAML
    end.

(** The lines of [yaml] that parse, as one sequence. *)
Fixpoint parseLines (lines : list string) : list value :=
  match lines with
  | [] => []
  | line :: lines' =>
      let line := strings.TrimSpace line in
      if String.eqb line "" then parseLines lines'
      else match Unmarshal H line with
           | None => parseLines lines'
           | Some item => item :: parseLines lines'
           end
  end.

Definition getMany (yaml path : string) : Result :=
  let data := parseLines (strings.Split yaml NL) in
  getFromPath (VSeq data) (drop 2 path) yaml.

(** *** The fast scalar path ([fast_parser.go]) *)

(** [func hasComplexFeatures(path string) bool] *)
Fixpoint hasComplexFeatures (path : string) : bool :=
  match path with
  | EmptyString => false
  | String c rest =>
      if Ascii.eqb c "*" || Ascii.eqb c "?" || Ascii.eqb c "@" || Ascii.eqb c "|"
      then true
      else if Ascii.eqb c "#" && firstByteIs rest "(" then true
      else hasComplexFeatures rest
  end.

Fixpoint splitPath_loop (parts : list string) (current : string)
  (escaped : bool) (path : string) : list string :=
  match path with
  | EmptyString =>
      match current with
      | EmptyString => parts
      | _ => parts ++ [current]
      end
  | String ch rest =>
      if escaped then splitPath_loop parts (current ++ String ch "") false rest
      else if Ascii.eqb ch BACKSLASH then splitPath_loop parts current true rest
      else if Ascii.eqb ch "." then
        match current with
        | EmptyString => splitPath_loop parts current false rest
        | _ => splitPath_loop (parts ++ [current]) "" false rest
        end
      else splitPath_loop parts (current ++ String ch "") false rest
  end.

(** [func splitPath(path string) []string] *)
Definition splitPath (path : string) : list string :=
  if String.eqb path "" then [] else splitPath_loop [] "" false path.

(** [func extractValue(value string) (Result, bool)].  The slice
    [value[1 : len(value)-1]] is where the function can panic. *)
Definition extractValue (value : string) : outcome (Result * bool) :=
  let value := strings.TrimSpace value in
  if String.eqb value "" then Ret (Result_zero, false)
  else if (strings.HasPrefix value (String DQUOTE "")
           && strings.HasSuffix value (String DQUOTE ""))
          || (strings.HasPrefix value (String SQUOTE "")
              && strings.HasSuffix value (String SQUOTE ""))
  then
    unquoted <- slice value 1 (len value - 1) ;;
    Ret (mkResult String_ value unquoted 0%float 0 [], true)
  else
    let lower := strings.ToLower value in
    if String.eqb lower "true" || String.eqb lower "yes" || String.eqb lower "on"
    then Ret (mkResult True_ value "" 0%float 0 [], true)
    else if String.eqb lower "false" || String.eqb lower "no"
            || String.eqb lower "off"
    then Ret (mkResult False_ value "" 0%float 0 [], true)
    else if String.eqb lower "null" || String.eqb lower "~" || String.eqb value ""
    then Ret (mkResult Null value "" 0%float 0 [], true)
    else
      let '(num, ok) := ParseFloat H value in
      if ok then Ret (mkResult Number value "" num 0 [], true)
      else Ret (mkResult String_ value value 0%float 0 [], true).

(** [len(line) - len(strings.TrimLeft(line, " \t"))] *)
Definition indentOf (line : string) : Z :=
  len line - len (strings.TrimLeft line (String " " (String TAB ""))).

(** [trimmed == "" || strings.HasPrefix(trimmed, "#")] *)
Definition blankOrComment (trimmed : string) : bool :=
  String.eqb trimmed "" || strings.HasPrefix trimmed "#".

(** State of the loop of [parseArrayElements]. *)
Record arrayScan : Set := mkScan {
  elements : list string;
  currentElement : string;
  inElement : bool;
  baseIndent : Z;
  elementIndent : Z
}.

Definition scanLine (st : arrayScan) (line : string) : arrayScan :=
  let trimmed := strings.TrimSpace line in
  if blankOrComment trimmed then st
  else
    let indent := indentOf line in
    let baseIndent := if baseIndent st =? -1 then indent else baseIndent st in
    if strings.HasPrefix trimmed "- " && (indent =? baseIndent) then
      let '(elements, current) :=
        if inElement st && (0 <? len (currentElement st))
        then ((elements st ++ [currentElement st])%list, "")
        else (elements st, currentElement st) in
      let value := strings.TrimSpace (drop 2 trimmed) in
      mkScan elements (current ++ value) true baseIndent indent
    else if inElement st && (elementIndent st <? indent) then
      let current :=
        if 0 <? len (currentElement st)
        then currentElement st ++ String NL ""
        else currentElement st in
      mkScan (elements st) (current ++ line) (inElement st) baseIndent
             (elementIndent st)
    else if inElement st && (indent <=? elementIndent st) then
      if strings.HasPrefix trimmed "- " && (indent =? baseIndent) then
        let value := strings.TrimSpace (drop 2 trimmed) in
        mkScan (elements st ++ [currentElement st])%list value true baseIndent indent
      else mkScan (elements st) (currentElement st) (inElement st) baseIndent
                  (elementIndent st)
    else mkScan (elements st) (currentElement st) (inElement st) baseIndent
                (elementIndent st).

(** [func parseArrayElements(yaml string) []string] *)
Definition parseArrayElements (yaml : string) : list string :=
  let st := fold_left scanLine (strings.Split yaml NL) (mkScan [] "" false (-1) (-1)) in
  if 0 <? len (currentElement st) then elements st ++ [currentElement st]
  else elements st.

(** [func countArrayElements(yaml string) int] *)
Definition countArrayElements (yaml : string) : Z :=
  Z.of_nat (List.length (parseArrayElements yaml)).

(** The first loop of [fastParseKey]: the indent of the first line
    that is neither blank nor a comment, or [-1]. *)
Fixpoint baseIndentOf (lines : list string) : Z :=
  match lines with
  | [] => -1
  | line :: lines' =>
      if blankOrComment (strings.TrimSpace line) then baseIndentOf lines'
      else indentOf line
  end.

(** The [for j := i + 1; ...] loops of [fastParseKey]: the lines under
    the key, each kept through [keep], which gets the line and its
    indent. *)
Fixpoint linesBelow (keep : string -> Z -> string) (indent nextIndent : Z)
  (lines : list string) : list string :=
  match lines with
  | [] => []
  | nextLine :: lines' =>
      if String.eqb (strings.TrimSpace nextLine) "" then
        linesBelow keep indent nextIndent lines'
      else
        let nextLineIndent := indentOf nextLine in
        if nextLineIndent <=? indent then []
        else if nextIndent <=? nextLineIndent then
          keep nextLine nextLineIndent :: linesBelow keep indent nextIndent lines'
        else linesBelow keep indent nextIndent lines'
  end.

(** The main loop of [fastParseKey] from line [i] on.  [final] is
    [depth == len(parts)-1] and [next] is [fastParsePath(_, parts,
    depth+1)]. *)
Fixpoint fastParseKey_loop (next : string -> outcome (Result * bool))
  (final : bool) (targetIndent : Z) (keyWithColon : string)
  (lines : list string) : outcome (Result * bool) :=
  match lines with
  | [] => Ret (Result_zero, false)
  | line :: below =>
      let trimmed := strings.TrimSpace line in
      if blankOrComment trimmed then
        fastParseKey_loop next final targetIndent keyWithColon below
      else
        let indent := indentOf line in
        if negb (indent =? targetIndent) then
          fastParseKey_loop next final targetIndent keyWithColon below
        else if negb (strings.HasPrefix trimmed keyWithColon) then
          fastParseKey_loop next final targetIndent keyWithColon below
        else
          let valuePart :=
            strings.TrimSpace (drop (String.length keyWithColon) trimmed) in
          let nextIndent := indent + 2 in
          if final then
            if negb (String.eqb valuePart "") then
              let trimmed := strings.TrimSpace valuePart in
              if strings.HasPrefix trimmed "{" || strings.HasPrefix trimmed "["
                 || strings.Contains valuePart ":"
              then Ret (Result_zero, false)
              else extractValue valuePart
            else
              let blockLines :=
                linesBelow (fun nextLine _ => nextLine) indent nextIndent below in
              match blockLines with
              | first :: _ =>
                  let firstBlockLine := strings.TrimSpace first in
                  if strings.HasPrefix firstBlockLine "- "
                     || strings.Contains firstBlockLine ": "
                  then Ret (Result_zero, false)
                  else extractValue (strings.Join blockLines (String NL ""))
              | [] => Ret (Result_zero, false)
              end
          else if negb (String.eqb valuePart "") then next valuePart
          else
            let nestedLines :=
              linesBelow
                (fun nextLine nextLineIndent =>
                   strings.Repeat " " (nextLineIndent - nextIndent)
                   ++ strings.TrimLeft nextLine (String " " (String TAB "")))
                indent nextIndent below in
            match nestedLines with
            | _ :: _ => next (strings.Join nestedLines (String NL ""))
            | [] => Ret (Result_zero, false)
            end
  end.

(** [func fastParseKey(yaml, parts, depth, key)] *)
Definition fastParseKey (next : string -> outcome (Result * bool))
  (final : bool) (yaml key : string) : outcome (Result * bool) :=
  let lines := strings.Split yaml NL in
  fastParseKey_loop next final (baseIndentOf lines) (key ++ ":") lines.

(** [func fastParseArrayIndex(yaml, parts, depth, index)] *)
Definition fastParseArrayIndex (next : string -> outcome (Result * bool))
  (final : bool) (yaml : string) (index : Z) : outcome (Result * bool) :=
  let elements := parseArrayElements yaml in
  if (index <? 0) || (Z.of_nat (List.length elements) <=? index) then
    Ret (Result_zero, false)
  else
    let element := nth (Z.to_nat index) elements "" in
    if final then extractValue element else next element.

(** [func fastParsePath(yaml, parts, depth)].  The list argument is
    [parts[depth:]]: [depth >= len(parts)] reads as the empty list,
    [depth == len(parts)-1] as a list of one, and a call at
    [depth+1] as a call on the tail. *)
Fixpoint fastParsePath (yaml : string) (parts : list string) {struct parts}
  : outcome (Result * bool) :=
  match parts with
  | [] => extractValue yaml
  | currentKey :: rest =>
      let final := match rest with [] => true | _ => false end in
      let next := fun yaml' => fastParsePath yaml' rest in
      match strconv.Atoi currentKey with
      | Some idx => fastParseArrayIndex next final yaml idx
      | None =>
          if String.eqb currentKey "#" then
            if negb final then Ret (Result_zero, false)
            else Ret (countResult (countArrayElements yaml), true)
          else fastParseKey next final yaml currentKey
      end
  end.

(** [func fastGet(yaml, path string) (Result, bool)] *)
Definition fastGet (yaml path : string) : outcome (Result * bool) :=
  if len path =? 0 then Ret (mkResult YAML yaml "" 0%float 0 [], true)
  else
    match splitPath path with
    | [] => Ret (Result_zero, false)
    | parts =>
        if hasComplexFeatures path then Ret (Result_zero, false)
        else
          '(result, ok) <- fastParsePath yaml parts ;;
          if negb ok then Ret (Result_zero, false)
          else if Type_eqb (Type' result) YAML || Type_eqb (Type' result) Null
          then Ret (Result_zero, false)
          else Ret (result, true)
    end.

(** *** The entry point ([gyaml.go], lines 458-495) *)

(** [len(path) > 1 && path[0] == '.' && path[1] == '.'] *)
Definition hasLinesPrefix (path : string) : bool :=
  (1 <? len path) && firstByteIs path "." && firstByteIs (drop 1 path) ".".

(** [if path[0] == '.' { path = path[1:] }] *)
Definition stripDot (path : string) : string :=
  if firstByteIs path "." then drop 1 path else path.

(** The fall-back of [Get] once [fastGet] has declined (lines 482-494). *)
Definition slowGet (yaml path : string) : Result :=
  match Unmarshal H yaml with
  | None => Result_zero
  | Some data => getFromPath data path yaml
  end.

(** [func Get(yaml, path string) Result] *)
Definition Get (yaml path : string) : outcome Result :=
  if hasLinesPrefix path then Ret (getMany yaml path)
  else if len path =? 0 then Ret (mkResult YAML yaml "" 0%float 0 [])
  else
    let path := stripDot path in
    '(result, ok) <- fastGet yaml path ;;
    if ok then Ret result else Ret (slowGet yaml path).

End Engine.

(* ================================================================= *)
(** ** The README document *)

(** The document of [README.md] (section "Path Syntax"). *)
Definition readme : string :=
"name:
  first: Tom
  last: Anderson
age: 37
children:
  - Sara
  - Alex
  - Jack
fav.movie: Deer Hunter
friends:
  - first: Dale
    last: Murphy
    age: 44
    nets:
      - ig
      - fb
      - tw
  - first: Roger
    last: Craig
    age: 68
    nets:
      - fb
      - tw
  - first: Jane
    last: Murphy
    age: 47
    nets:
      - ig
      - tw
".

Definition friend (first last : string) (age : Z) (nets : list string) : value :=
  VMap [("first", VString first); ("last", VString last); ("age", VInt age);
        ("nets", VSeq (map VString nets))].

Definition readme_children : value :=
  VSeq [VString "Sara"; VString "Alex"; VString "Jack"].

Definition readme_friends : list value :=
  [friend "Dale" "Murphy" 44 ["ig"; "fb"; "tw"];
   friend "Roger" "Craig" 68 ["fb"; "tw"];
   friend "Jane" "Murphy" 47 ["ig"; "tw"]].

(** The tree a YAML parser builds for [readme]. *)
Definition readme_data : value :=
  VMap [("name", VMap [("first", VString "Tom"); ("last", VString "Anderson")]);
        ("age", VInt 37);
        ("children", readme_children);
        ("fav.movie", VString "Deer Hunter");
        ("friends", VSeq readme_friends)].

(* ================================================================= *)
(** ** A sample host

    A small stand-in for the libraries, enough to run the engine on the
    README document: it serialises in a plain block-over-flow style,
    parses the texts of a fixed table, and reads and prints floats that
    are whole numbers.  It is used only to instantiate the hypotheses
    the theorems make about a host. *)

Module SampleHost.

Fixpoint flow (v : value) : string :=
  match v with
  | VNil => "null"
  | VBool true => "true"
  | VBool false => "false"
  | VInt n => strconv.Itoa n
  | VFloat f => "0"
  | VString s => s
  | VSeq items => "[" ++ String.concat ", " (map flow items) ++ "]"
  | VMap entries =>
      "{" ++ String.concat ", " (map (fun e => fst e ++ ": " ++ flow (snd e)) entries)
      ++ "}"
  end.

Definition line (s : string) : string := s ++ String NL "".

Definition marshal (v : value) : string :=
  match v with
  | VSeq [] => line "[]"
  | VSeq items => String.concat "" (map (fun x => line ("- " ++ flow x)) items)
  | VMap [] => line "{}"
  | VMap entries =>
      String.concat "" (map (fun e => line (fst e ++ ": " ++ flow (snd e))) entries)
  | _ => line (flow v)
  end.

Definition wholeFloat (s : string) : float64 * bool :=
  match strconv.Atoi s with
  | Some n => (float64_of_int n, true)
  | None => (0%float, false)
  end.

(** The values whose serialisation the sample parser reads back. *)
Definition corpus : list value :=
  [VSeq [];
   readme_children;
   VSeq (List.rev [VString "Sara"; VString "Alex"; VString "Jack"]);
   VSeq readme_friends;
   VSeq [friend "Roger" "Craig" 68 ["fb"; "tw"];
         friend "Jane" "Murphy" 47 ["ig"; "tw"]]].

Definition table : list (string * value) :=
  (readme, readme_data) :: map (fun v => (marshal v, v)) corpus.

Fixpoint find (text : string) (t : list (string * value)) : option value :=
  match t with
  | [] => None
  | (text', v) :: t' => if String.eqb text' text then Some v else find text t'
  end.

Definition host : Host :=
  mkHost (fun text => find text table) marshal wholeFloat
         (fun _ => "0") (fun _ => "0").

End SampleHost.

(** A host that reads the texts of a table and otherwise behaves as the
    sample host. *)
Definition tableHost (t : list (string * value)) : Host :=
  mkHost (fun text => SampleHost.find text t) SampleHost.marshal
         SampleHost.wholeFloat (fun _ => "0") (fun _ => "0").

(** The sample host, reading back three more sequences: the networks
    called [fb] of the friends of the README document, one friend at a
    time and all together. *)
Definition netsHost : Host :=
  tableHost
    (SampleHost.table
     ++ map (fun v => (SampleHost.marshal v, v))
            [VSeq [VString "fb"];
             VSeq [VString "fb"; VString "fb"];
             VSeq [VSeq [VString "fb"]; VSeq [VString "fb"]; VSeq []]])%list.

(* ================================================================= *)
(** ** The rest of the public surface ([gyaml.go]) *)

(** [func Parse(yaml string) Result] *)
Definition Parse (yaml : string) : Result :=
  mkResult YAML yaml "" 0%float 0 [].

(** The sum of two [int]s, wrapping at 64 bits. *)
Definition int_add (a b : Z) : Z :=
  (a + b + 2 ^ 63) mod 2 ^ 64 - 2 ^ 63.

(** [func (t Result) Get(path string) Result]; a [nil] slice of
    indexes is the empty list. *)
Definition Result_Get (H : Host) (modifiers : registry) (t : Result)
  (path : string) : outcome Result :=
  r <- Get H modifiers (Raw t) path ;;
  match Indexes r with
  | [] =>
      Ret (mkResult (Type' r) (Raw r) (Str r) (Num r)
                    (int_add (Index r) (Index t)) (Indexes r))
  | indexes =>
      Ret (mkResult (Type' r) (Raw r) (Str r) (Num r) (Index r)
                    (map (fun i => int_add i (Index t)) indexes))
  end.

(** The loop of [GetMany]: the bytes appended to [data] for the paths
    from number [i] on. *)
Fixpoint GetMany_loop (H : Host) (modifiers : registry) (yaml : string)
  (first : bool) (paths : list string) : outcome string :=
  match paths with
  | [] => Ret ""
  | path :: paths' =>
      val <- Get H modifiers yaml path ;;
      rest <- GetMany_loop H modifiers yaml false paths' ;;
      Ret ((if first then "" else ",") ++ Raw val ++ rest)
  end.

(** [func GetMany(yaml string, path ...string) Result] *)
Definition GetMany (H : Host) (modifiers : registry) (yaml : string)
  (paths : list string) : outcome Result :=
  data <- GetMany_loop H modifiers yaml true paths ;;
  Ret (mkResult YAML ("[" ++ data ++ "]") "" 0%float 0 []).

(** [t.Raw[i] < '0' || t.Raw[i] > '9'] for no byte from [i] on. *)
Fixpoint allDigits (s : string) : bool :=
  match s with
  | EmptyString => true
  | String c s' =>
      (Nat.leb 48 (nat_of_ascii c) && Nat.leb (nat_of_ascii c) 57)%bool
      && allDigits s'
  end.

(** [func (t Result) String() string] *)
Definition Result_String (H : Host) (t : Result) : string :=
  match Type' t with
  | Number =>
      match Raw t with
      | EmptyString => FormatFloat H (Num t)
      | String c rest =>
          if allDigits (if Ascii.eqb c "-" then rest else Raw t)
          then Raw t
          else FormatFloat H (Num t)
      end
  | String_ => Str t
  | YAML => Raw t
  | True_ => "true"
  | False_ => "false"
  | Null => ""
  end.

(** The [iota] value of a [Type] constant. *)
Definition Type_rank (t : Type_) : Z :=
  match t with
  | Null => 0
  | False_ => 1
  | Number => 2
  | String_ => 3
  | True_ => 4
  | YAML => 5
  end.

(** The byte [c] as a number. *)
Definition byte_val (c : ascii) : Z := Z.of_nat (nat_of_ascii c).

(** [c >= 'A' && c <= 'Z'] *)
Definition isUpperAZ (c : Z) : bool := (65 <=? c) && (c <=? 90).

(** [if p < q { return true } else if p > q { return false }], and
    otherwise the next turn of the loop. *)
Definition lessOrNext (p q : Z) (next : bool) : bool :=
  if p <? q then true else if q <? p then false else next.

(** [func stringLessInsensitive(a, b string) bool]; [+ 32] is
    arithmetic on a byte. *)
Fixpoint stringLessInsensitive (a b : string) : bool :=
  match a, b with
  | String x a', String y b' =>
      let ai := byte_val x in
      let bi := byte_val y in
      let next := stringLessInsensitive a' b' in
      if isUpperAZ ai then
        if isUpperAZ bi then lessOrNext ai bi next
        else lessOrNext ((ai + 32) mod 256) bi next
      else if isUpperAZ bi then lessOrNext ai ((bi + 32) mod 256) next
      else lessOrNext ai bi next
  | _, _ => len a <? len b
  end.

(** [func (t Result) Less(token Result, caseSensitive bool) bool];
    [<] on Go strings compares them byte by byte. *)
Definition Less (t token : Result) (caseSensitive : bool) : bool :=
  if Type_rank (Type' t) <? Type_rank (Type' token) then true
  else if Type_rank (Type' token) <? Type_rank (Type' t) then false
  else if Type_eqb (Type' t) String_ then
    if caseSensitive then String.ltb (Str t) (Str token)
    else stringLessInsensitive (Str t) (Str token)
  else if Type_eqb (Type' t) Number then PrimFloat.ltb (Num t) (Num token)
  else String.ltb (Raw t) (Raw token).

(* ================================================================= *)
(** ** Vocabulary of the statements *)

(** A [String] result built from the tree carries its text in both
    [Raw] and [Str]. *)
Definition treeShaped (r : Result) : Prop :=
  Type' r = String_ -> Raw r = Str r.

(** A document that starts a mapping and then leaves a flow sequence
    open. *)
Definition unclosed : string := "a: true" ++ String NL "b: [".

(** A double-quoted scalar. *)
Definition quoted : string := "a: " ++ String DQUOTE ("x" ++ String DQUOTE "").

(** A plain scalar followed by a comment, and the tree YAML gives the
    document: the comment is no part of the value. *)
Definition commented : string := "a: x # note".

Definition commented_data : value := VMap [("a", VString "x")].

(** The generic steps of the traversal loop over a list of components:
    the value reached, or [None] where the loop returns
    [Result{Type: Null}]. *)
Fixpoint descend (parts : list pathComponent) (current : value) : option value :=
  match parts with
  | [] => Some current
  | part :: rest =>
      match step part current with
      | None => None
      | Some current' => descend rest current'
      end
  end.

(** A component that is a key, an index or a wildcard. *)
Definition selects (c : pathComponent) : Prop :=
  hasPipe c = false /\ isCount c = false /\ isQuery c = false.

(** Text the tokenizer reads at top level without meeting [#] or [|],
    and that does not end on a pending backslash. *)
Fixpoint plainFrom (escaped : bool) (s : string) : bool :=
  match s with
  | EmptyString => negb escaped
  | String ch rest =>
      if escaped then plainFrom false rest
      else if Ascii.eqb ch BACKSLASH then plainFrom true rest
      else if Ascii.eqb ch "#" || Ascii.eqb ch "|" then false
      else plainFrom false rest
  end.

(** A path to an array: keys, indexes and wildcards separated by dots,
    possibly empty, not starting with a dot or with [@]. *)
Definition arrayPath (arr : string) : bool :=
  plainFrom false arr && negb (firstByteIs arr ".") && negb (firstByteIs arr "@").

(** A path to an array made of keys and indexes only: no byte of it is
    [*] or [?]. *)
Definition keyPath (arr : string) : bool :=
  arrayPath arr && negb (strings.ContainsAny arr "*?").

(** The text of a query between [#(] and its closing parenthesis:
    parentheses balanced from [depth], no pending backslash at the end. *)
Fixpoint queryBody (depth : Z) (escaped : bool) (q : string) : bool :=
  match q with
  | EmptyString => negb escaped && (depth =? 1)
  | String ch rest =>
      if escaped then queryBody depth false rest
      else if Ascii.eqb ch BACKSLASH then queryBody depth true rest
      else if Ascii.eqb ch "(" then queryBody (depth + 1) false rest
      else if Ascii.eqb ch ")" then
        negb (depth - 1 =? 0) && queryBody (depth - 1) false rest
      else queryBody depth false rest
  end.

(** The bytes the tokenizer keeps of a text: each backslash is dropped
    and the byte after it kept. *)
Fixpoint unescape (escaped : bool) (q : string) : string :=
  match q with
  | EmptyString => EmptyString
  | String ch rest =>
      if escaped then String ch (unescape false rest)
      else if Ascii.eqb ch BACKSLASH then unescape true rest
      else String ch (unescape false rest)
  end.



(** The path [arr.sel], or [sel] alone when [arr] is empty. *)
Definition joinPath (arr sel : string) : string :=
  match arr with
  | EmptyString => sel
  | _ => arr ++ "." ++ sel
  end.

(** The component [#(q)] or [#(q)#]. *)
Definition queryOf (q : string) (multi : bool) : pathComponent :=
  mkComponent "" false true q false 0 false "" false multi.

(** The elements of a value that satisfy a query. *)
Definition matchesOf (H : Host) (current : value) (q : string) : list value :=
  match current with
  | VSeq arr => filter (fun item => evaluateQuery H item q) arr
  | _ => []
  end.

(** The host serialises the sequence to a text that [IsArray] accepts
    and that parses back to the same sequence. *)
Definition roundTrips (H : Host) (items : list value) : Prop :=
  Unmarshal H (Marshal H (VSeq items)) = Some (VSeq items)
  /\ IsArray (valueToResult H (VSeq items)) = true.

(* ================================================================= *)
(** ** Vocabulary of the further properties *)

(** A path with no [#] and no pipe outside an escape; the empty path
    counts. *)
Fixpoint operatorFree (escaped : bool) (s : string) : bool :=
  match s with
  | EmptyString => true
  | String ch rest =>
      if escaped then operatorFree false rest
      else if Ascii.eqb ch BACKSLASH then operatorFree true rest
      else if Ascii.eqb ch "#" || Ascii.eqb ch "|" then false
      else operatorFree false rest
  end.

(** A pattern with no wildcard. *)
Definition literal (pattern : string) : bool :=
  negb (strings.ContainsAny pattern "*?").

(** A result that carries no source offset. *)
Definition unindexed (r : Result) : Prop :=
  Index r = 0 /\ Indexes r = [].

(** The text before the first colon, or the whole text. *)
Definition beforeColon (s : string) : string :=
  if strings.Index s ":" =? -1 then s
  else String.substring 0 (Z.to_nat (strings.Index s ":")) s.

(** The text after the first colon, or nothing. *)
Definition afterColon (s : string) : string :=
  if strings.Index s ":" =? -1 then ""
  else drop (Z.to_nat (strings.Index s ":" + 1)) s.

(** A visible ASCII byte: from [!] to [~]. *)
Definition visible (c : ascii) : bool :=
  Nat.leb 33 (nat_of_ascii c) && Nat.leb (nat_of_ascii c) 126.

(** A word: one or more visible ASCII bytes. *)
Fixpoint word (s : string) : bool :=
  match s with
  | EmptyString => false
  | String c EmptyString => visible c
  | String c s' => visible c && word s'
  end.

(** The block sequence whose items are the given texts, one per line. *)
Definition blockSequence (items : list string) : string :=
  String.concat "" (map (fun item => "- " ++ item ++ String NL "") items).

(** A byte of a decimal numeral: a sign or a digit. *)
Definition numeralByte (c : ascii) : bool :=
  Ascii.eqb c "-" || Ascii.eqb c "+"
  || match strconv.digit c with Some _ => true | None => false end.

(** A text of such bytes only. *)
Fixpoint numeral (s : string) : bool :=
  match s with
  | EmptyString => true
  | String c s' => numeralByte c && numeral s'
  end.

(** An ASCII letter. *)
Definition letter (c : ascii) : bool :=
  let n := nat_of_ascii c in
  (Nat.leb 65 n && Nat.leb n 90) || (Nat.leb 97 n && Nat.leb n 122).

(** A byte of a name: a letter, a digit, an underscore or a hyphen. *)
Definition nameByte (c : ascii) : bool :=
  letter c || match strconv.digit c with Some _ => true | None => false end
  || Ascii.eqb c "_" || Ascii.eqb c "-".

Fixpoint nameBytes (s : string) : bool :=
  match s with
  | EmptyString => true
  | String c s' => nameByte c && nameBytes s'
  end.

(** A name: a letter, then bytes of a name. *)
Definition name (s : string) : bool :=
  match s with
  | EmptyString => false
  | String c s' => letter c && nameBytes s'
  end.

(** A word that [fastParseKey] takes for a scalar: it holds no colon
    and opens neither a flow mapping nor a flow sequence. *)
Definition scalarWord (v : string) : bool :=
  word v && negb (strings.Contains v ":")
  && negb (firstByteIs v "{") && negb (firstByteIs v "[").

(** The block mapping with the given entries, one per line. *)
Definition blockMapping (entries : list (string * string)) : string :=
  String.concat ""
    (map (fun e => fst e ++ ": " ++ snd e ++ String NL "") entries).

(** An entry of a block mapping: a name and a scalar word. *)
Definition entry (e : string * string) : bool :=
  name (fst e) && scalarWord (snd e).

(** The value of the first entry with the given key. *)
Fixpoint firstEntry (key : string) (entries : list (string * string))
  : option string :=
  match entries with
  | [] => None
  | e :: entries' =>
      if String.eqb (fst e) key then Some (snd e) else firstEntry key entries'
  end.

(** No source offset in what the fast path returns, whether it answers
    or declines. *)
Definition fastUnindexed (o : outcome (Result * bool)) : Prop :=
  forall r ok, o = Ret (r, ok) -> unindexed r.

(** The 256 bytes. *)
Definition allBytes : list ascii := map ascii_of_nat (seq 0 256).

(** One turn of the loop of [stringLessInsensitive], and the comparison
    of the two bytes once folded. *)
Definition foldStep (x y : ascii) (next : bool) : bool :=
  let ai := byte_val x in
  let bi := byte_val y in
  if isUpperAZ ai then
    if isUpperAZ bi then lessOrNext ai bi next
    else lessOrNext ((ai + 32) mod 256) bi next
  else if isUpperAZ bi then lessOrNext ai ((bi + 32) mod 256) next
  else lessOrNext ai bi next.

Definition foldCompare (x y : ascii) (next : bool) : bool :=
  match Ascii.compare (strings.lowerByte x) (strings.lowerByte y) with
  | Lt => true
  | Gt => false
  | Eq => next
  end.

(** An operand of a query: a text with none of the bytes the operators
    are written with. *)
Definition operand (s : string) : bool := negb (strings.ContainsAny s "=!<>%").

(** A text without a line break. *)
Definition oneLine (s : string) : bool := negb (strings.mem NL s).

(** A line that the lines mode keeps: not blank, and accepted by the
    parser once trimmed. *)
Definition kept (H : Host) (line : string) : bool :=
  negb (String.eqb (strings.TrimSpace line) "")
  && match Unmarshal H (strings.TrimSpace line) with Some _ => true | None => false end.

(* ================================================================= *)
(** * Properties *)

(** ** Strings *)

Lemma append_empty_r (s : string) : s ++ "" = s.
Proof. induction s as [|c s IH]; simpl; [reflexivity | now rewrite IH]. Qed.

Lemma append_assoc (a b c : string) : (a ++ b) ++ c = a ++ (b ++ c).
Proof. induction a as [|x a IH]; simpl; [reflexivity | now rewrite IH]. Qed.

Lemma len_empty_iff (s : string) : (len s =? 0) = true <-> s = "".
Proof.
  unfold len. destruct s; simpl; split; intro E; try reflexivity; discriminate.
Qed.

Lemma length_drop (n : nat) (s : string) :
  (String.length (drop n s) <= String.length s)%nat.
Proof.
  revert s. induction n as [|n IH]; intros s; [simpl; lia|].
  destruct s as [|c s]; simpl; [lia|]. specialize (IH s). lia.
Qed.

Lemma length_substring (n m : nat) (s : string) :
  (String.length (String.substring n m s) <= String.length s)%nat.
Proof.
  revert n m. induction s as [|c s IH]; intros n m.
  - destruct n, m; simpl; lia.
  - destruct n as [|n].
    + destruct m as [|m]; simpl; [lia|]. specialize (IH 0%nat m). lia.
    + simpl. specialize (IH n m). lia.
Qed.

(** ** The recursion of [applyModifier] ends

    Each call passes a path at least two bytes shorter, so the fuel
    [applyModifier] starts from, the length of the path, is never used
    up: any larger amount gives the same result. *)

Section Fuel.
Variable H : Host.
Variable modifiers : registry.

Lemma applyModifier_fuel_enough (n : nat) :
  forall (m : nat) (data : value) (path yamlStr : string),
    (String.length path <= n)%nat -> (String.length path <= m)%nat ->
    applyModifier_fuel H modifiers n data path yamlStr
    = applyModifier_fuel H modifiers m data path yamlStr.
Proof.
  induction n as [|n IH]; intros m data path yamlStr Hn Hm.
  - destruct path; [|simpl in Hn; lia]. destruct m; reflexivity.
  - destruct path as [|c path'].
    + destruct m; reflexivity.
    + destruct m as [|m]; [simpl in Hm; lia|].
      cbn [applyModifier_fuel].
      destruct (negb (strings.HasPrefix (String c path') "@")); [reflexivity|].
      cbv zeta.
      set (pair := if negb (strings.Index (String c path') ":" =? -1) then _ else _).
      assert (Hlen : (String.length (fst pair) <= String.length path')%nat).
      { subst pair. destruct (negb _); cbn [fst].
        - apply (length_substring 0 _ path').
        - simpl. lia. }
      destruct pair as [modName modArg]. cbn [fst] in Hlen.
      destruct (negb (strings.Index modName "|" =? -1)); [|reflexivity].
      destruct (modifiers _); [|reflexivity].
      apply IH.
      * pose proof (length_drop 1 (drop (Z.to_nat (strings.Index modName "|")) modName)).
        pose proof (length_drop (Z.to_nat (strings.Index modName "|")) modName).
        simpl in Hn. lia.
      * pose proof (length_drop 1 (drop (Z.to_nat (strings.Index modName "|")) modName)).
        pose proof (length_drop (Z.to_nat (strings.Index modName "|")) modName).
        simpl in Hm. lia.
Qed.
End Fuel.

(** ** The pattern matcher *)

Section Matcher.

Lemma deepMatch_star (str : string) (c : ascii) (pattern' : string) :
  deepMatch str (String "*" (String c pattern'))
  = anySuffix (String c pattern') str.
Proof.
  induction str as [|x str IH].
  - reflexivity.
  - change (deepMatch (String x str) (String "*" (String c pattern')))
      with (if deepMatch (String x str) (String c pattern') then true
            else deepMatch str (String "*" (String c pattern'))).
    rewrite IH. reflexivity.
Qed.

Lemma anySuffix_true (pattern' s : string) :
  anySuffix pattern' s = true <->
  exists run s', s = run ++ s' /\ deepMatch s' pattern' = true.
Proof.
  induction s as [|x s IH]; simpl.
  - destruct (deepMatch "" pattern') eqn:E.
    + split; [intros _; exists "", ""; auto | reflexivity].
    + split; [discriminate|].
      intros (run & s' & Hs & Hm).
      destruct run; simpl in Hs; [subst s'; congruence | discriminate].
  - destruct (deepMatch (String x s) pattern') eqn:E.
    + split; [intros _; exists "", (String x s); auto | reflexivity].
    + rewrite IH. split.
      * intros (run & s' & -> & Hm). exists (String x run), s'. auto.
      * intros (run & s' & Hs & Hm).
        destruct run as [|y run]; simpl in Hs.
        -- subst s'. congruence.
        -- injection Hs as -> ->. exists run, s'. auto.
Qed.

Lemma deepMatch_complete (str pattern : string) :
  glob_spec str pattern -> deepMatch str pattern = true.
Proof.
  induction 1 as [|run str pattern Hg IH|c str pattern Hg IH|c str pattern Hs Hq Hg IH].
  - reflexivity.
  - destruct pattern as [|c pattern'].
    + reflexivity.
    + rewrite deepMatch_star. apply anySuffix_true. exists run, str. auto.
  - exact IH.
  - simpl.
    apply Ascii.eqb_neq in Hs. apply Ascii.eqb_neq in Hq.
    rewrite Hs, Hq, Ascii.eqb_refl. exact IH.
Qed.

Lemma deepMatch_sound (pattern str : string) :
  deepMatch str pattern = true -> glob_spec str pattern.
Proof.
  revert str.
  induction pattern as [|p pattern' IH]; intros str Hm.
  - apply len_empty_iff in Hm. subst str. constructor.
  - destruct (Ascii.eqb p "*") eqn:Estar.
    + apply Ascii.eqb_eq in Estar. subst p.
      destruct pattern' as [|c pattern''].
      * rewrite <- (append_empty_r str). apply glob_star. constructor.
      * rewrite deepMatch_star in Hm.
        apply anySuffix_true in Hm as (run & s' & -> & Hm').
        apply glob_star. apply IH. exact Hm'.
    + simpl in Hm. rewrite Estar in Hm.
      destruct (Ascii.eqb p "?") eqn:Eq.
      * apply Ascii.eqb_eq in Eq. subst p.
        destruct str as [|c str']; [discriminate|].
        apply glob_one. apply IH. exact Hm.
      * destruct str as [|c str']; [discriminate|].
        destruct (Ascii.eqb c p) eqn:Ec; [|discriminate].
        apply Ascii.eqb_eq in Ec. subst c.
        apply glob_byte.
        -- intros ->. discriminate.
        -- intros ->. discriminate.
        -- apply IH. exact Hm.
Qed.

End Matcher.

(** C8. The glob matcher accepts exactly what the specification
    describes: [*] matches any run of bytes, the empty run included,
    [?] matches exactly one byte, every other pattern byte matches only
    the same byte; and the empty string matches the pattern [*]. *)
Theorem matchPattern_glob :
  (forall str pattern : string,
      matchPattern str pattern = true <-> glob_spec str pattern)
  /\ matchPattern "" "*" = true.
Proof.
  split.
  - intros str pattern. unfold matchPattern, wildcard. split.
    + apply deepMatch_sound.
    + apply deepMatch_complete.
  - reflexivity.
Qed.

(** ** The entry point *)

(** C9. With the empty path, [Get] returns the whole document, byte for
    byte, as a result of type [YAML] with index 0. *)
Theorem Get_empty_path (H : Host) (modifiers : registry) (yaml : string) :
  Get H modifiers yaml "" = Ret (mkResult YAML yaml "" 0%float 0 []).
Proof. reflexivity. Qed.

(** [Get] when the fast path answers. *)
Lemma Get_fast (H : Host) (modifiers : registry) (yaml path : string) (r : Result) :
  path <> "" -> hasLinesPrefix path = false ->
  fastGet H yaml (stripDot path) = Ret (r, true) ->
  Get H modifiers yaml path = Ret r.
Proof.
  intros Hne Hlines Hfast. unfold Get. rewrite Hlines.
  destruct path as [|c path']; [congruence|].
  change (len (String c path') =? 0) with false. cbv iota zeta.
  rewrite Hfast. reflexivity.
Qed.

(** [Get] when the fast path declines. *)
Lemma Get_slow (H : Host) (modifiers : registry) (yaml path : string) (r : Result) :
  path <> "" -> hasLinesPrefix path = false ->
  fastGet H yaml (stripDot path) = Ret (r, false) ->
  Get H modifiers yaml path = Ret (slowGet H modifiers yaml (stripDot path)).
Proof.
  intros Hne Hlines Hfast. unfold Get. rewrite Hlines.
  destruct path as [|c path']; [congruence|].
  change (len (String c path') =? 0) with false. cbv iota zeta.
  rewrite Hfast. reflexivity.
Qed.

(** ** Where [Get] panics *)

(** C1. [Get] does not always return: on the document that gives the
    key [a] a lone double quote as its value, and the path [a], the fast
    path reaches [extractValue], which slices [value[1:0]] and panics. *)
Theorem Get_panics_on_lone_quote (H : Host) (modifiers : registry) :
  Get H modifiers ("a: " ++ String DQUOTE "") "a" = Panic.
Proof. vm_compute. reflexivity. Qed.

(** The slice in [extractValue] is the only place where the fast path
    can panic: it does when, and only when, the trimmed text is one
    quote byte. *)
Lemma extractValue_panics (H : Host) (value : string) :
  extractValue H value = Panic <->
  strings.TrimSpace value = String DQUOTE "" \/ strings.TrimSpace value = String SQUOTE "".
Proof.
  unfold extractValue. set (v := strings.TrimSpace value). clearbody v.
  destruct (String.eqb v "") eqn:E0.
  { apply String.eqb_eq in E0. subst v.
    split; [discriminate | intros [E|E]; discriminate E]. }
  destruct (_ || _) eqn:Eq.
  - destruct v as [|c [|c' v]].
    + discriminate E0.
    + destruct (ascii_dec DQUOTE c) as [<-|Hd]; [split; [left|]; reflexivity|].
      destruct (ascii_dec SQUOTE c) as [<-|Hs]; [split; [right|]; reflexivity|].
      exfalso. unfold strings.HasPrefix, strings.HasSuffix in Eq.
      change (rev (String c "")) with (String c "") in Eq.
      change (rev (String DQUOTE "")) with (String DQUOTE "") in Eq.
      change (rev (String SQUOTE "")) with (String SQUOTE "") in Eq.
      cbn [String.prefix] in Eq.
      destruct (ascii_dec DQUOTE c); [contradiction|].
      destruct (ascii_dec SQUOTE c); [contradiction|].
      discriminate Eq.
    + split; [|intros [E|E]; discriminate E].
      unfold slice.
      assert (Hs : (0 <=? 1) && (1 <=? len (String c (String c' v)) - 1)
                   && (len (String c (String c' v)) - 1 <=? len (String c (String c' v)))
                   = true).
      { unfold len. cbn [String.length].
        rewrite !andb_true_iff, !Z.leb_le. lia. }
      rewrite Hs. discriminate.
  - split.
    + repeat match goal with
             | |- context [if ?b then _ else _] => destruct b
             | |- context [let '(_, _) := ?p in _] => destruct p
             end; discriminate.
    + intros [E|E]; subst v; discriminate Eq.
Qed.

(** [Get] panics only where the fast path does. *)
Lemma Get_panics_in_fastGet (H : Host) (modifiers : registry) (yaml path : string) :
  Get H modifiers yaml path = Panic ->
  fastGet H yaml (stripDot path) = Panic.
Proof.
  unfold Get. destruct (hasLinesPrefix path); [discriminate|].
  destruct (len path =? 0); [discriminate|]. cbv zeta.
  destruct (fastGet H yaml (stripDot path)) as [[result ok]|]; [|reflexivity].
  simpl. destruct ok; discriminate.
Qed.

(** ** A final [#] *)

(** C6. A final [#] does not always count: the fast path answers it by
    counting the lines that start with a dash, so a sequence written in
    flow style and a mapping both count as 0, whatever the parser would
    make of them. *)
Theorem Get_count_fast_path (H : Host) (modifiers : registry) :
  Get H modifiers "children: [Sara, Alex, Jack]" "children.#" = Ret (countResult 0)
  /\ Get H modifiers readme "name.#" = Ret (countResult 0).
Proof. split; vm_compute; reflexivity. Qed.

(** What the traversal engine itself does with a final [#]: the number
    of elements of a sequence, the number of keys of a mapping, 0 for a
    scalar. *)
Lemma traversePath_count (H : Host) (modifiers : registry) (current : value)
  (origYAML : string) :
  traversePath H modifiers current [countComponent] origYAML
  = countResult (match current with
                 | VSeq v => Z.of_nat (List.length v)
                 | VMap v => Z.of_nat (List.length v)
                 | _ => 0
                 end).
Proof. destruct current; reflexivity. Qed.

(** ** A pipe and a nested query on the README document *)

(** C4. A path after a modifier is not applied to the modifier's
    output: on the README document, [children|@reverse|0] gives the
    [children] sequence itself, in its original order and as raw YAML,
    whatever the [reverse] modifier returned. *)
Theorem Get_path_after_modifier (H : Host) (modifiers : registry) :
  Unmarshal H readme = Some readme_data ->
  Get H modifiers readme "children|@reverse|0"
  = Ret (mkResult YAML (Marshal H readme_children) "" 0%float 0 []).
Proof.
  intros Hparse.
  rewrite (Get_slow H modifiers readme _ Result_zero);
    [| discriminate | reflexivity | vm_compute; reflexivity].
  unfold slowGet. rewrite Hparse.
  vm_compute.
  destruct (modifiers _); reflexivity.
Qed.

(** C5. A query whose left side is itself a query is not evaluated by
    the traversal engine: the left key [nets.#(] is looked up as a
    dotted key, finds nothing, and no friend matches; on the README
    document the result is the serialised empty sequence. *)
Theorem Get_nested_query (H : Host) (modifiers : registry) :
  Unmarshal H readme = Some readme_data ->
  Get H modifiers readme
      ("friends.#(nets.#(==" ++ String DQUOTE "fb" ++ String DQUOTE "))#.first")
  = Ret (mkResult YAML (Marshal H (VSeq [])) "" 0%float 0 []).
Proof.
  intros Hparse.
  rewrite (Get_slow H modifiers readme _ Result_zero);
    [| discriminate | reflexivity | vm_compute; reflexivity].
  unfold slowGet. rewrite Hparse.
  vm_compute. reflexivity.
Qed.

(** ** What the traversal engine can return *)

Section SlowShape.

Variable H : Host.
Variable modifiers : registry.

Lemma treeShaped_valueToResult (val : value) : treeShaped (valueToResult H val).
Proof. destruct val as [|[]| | | | |]; unfold treeShaped; simpl; congruence. Qed.

Lemma treeShaped_zero : treeShaped Result_zero.
Proof. unfold treeShaped; simpl; congruence. Qed.

Lemma treeShaped_count (n : Z) : treeShaped (countResult n).
Proof. unfold treeShaped; simpl; congruence. Qed.

Lemma treeShaped_applyModifier_fuel (fuel : nat) :
  forall (data : value) (path yamlStr : string),
    treeShaped (applyModifier_fuel H modifiers fuel data path yamlStr).
Proof.
  induction fuel as [|fuel IH]; intros data path yamlStr; simpl;
    repeat match goal with
           | |- treeShaped (valueToResult _ _) => apply treeShaped_valueToResult
           | |- treeShaped (applyModifier_fuel _ _ _ _ _ _) => apply IH
           | |- context [if ?b then _ else _] => destruct b
           | |- context [match modifiers ?n with _ => _ end] => destruct (modifiers n)
           end.
Qed.

Lemma treeShaped_applyModifier (data : value) (path yamlStr : string) :
  treeShaped (applyModifier H modifiers data path yamlStr).
Proof. apply treeShaped_applyModifier_fuel. Qed.

(** One turn of the loop of [traversePath]. *)
Lemma traversePath_cons (data : value) (part : pathComponent)
  (rest : list pathComponent) (origYAML : string) :
  traversePath H modifiers data (part :: rest) origYAML
  = if hasPipe part then
      applyModifier H modifiers data (pipe part) (Raw (valueToResult H data))
    else
      let stepped :=
        match step part data with
        | None => Result_zero
        | Some current' => traversePath H modifiers current' rest origYAML
        end in
      let queried :=
        if isQuery part then
          let current := handleQuery H data part rest in
          if negb (multi part) then
            match rest with
            | _ :: _ => traversePath H modifiers current rest origYAML
            | [] => valueToResult H current
            end
          else
            match rest, current with
            | _ :: _, VSeq matches =>
                valueToResult H
                  (VSeq (collect H (fun m => traversePath H modifiers m rest origYAML)
                                 matches))
            | _, _ => valueToResult H current
            end
        else stepped in
      if isCount part then
        match rest with
        | _ :: _ =>
            match data with
            | VSeq v =>
                valueToResult H
                  (VSeq (collect H (fun item => traversePath H modifiers item rest origYAML)
                                 v))
            | VMap _ => Result_zero
            | _ => queried
            end
        | [] =>
            match data with
            | VSeq v => countResult (Z.of_nat (List.length v))
            | VMap v => countResult (Z.of_nat (List.length v))
            | _ => countResult 0
            end
        end
      else queried.
Proof. reflexivity. Qed.

Lemma treeShaped_traversePath (parts : list pathComponent) :
  forall (data : value) (origYAML : string),
    treeShaped (traversePath H modifiers data parts origYAML).
Proof.
  induction parts as [|part rest IH]; intros data origYAML.
  - apply treeShaped_valueToResult.
  - rewrite traversePath_cons. cbv zeta.
    repeat match goal with
           | |- treeShaped (valueToResult _ _) => apply treeShaped_valueToResult
           | |- treeShaped (applyModifier _ _ _ _ _) => apply treeShaped_applyModifier
           | |- treeShaped (traversePath _ _ _ _ _) => apply IH
           | |- treeShaped Result_zero => apply treeShaped_zero
           | |- treeShaped (countResult _) => apply treeShaped_count
           | |- context [if ?b then _ else _] => destruct b
           | |- context [match step ?p ?d with _ => _ end] => destruct (step p d)
           | |- context [match handleQuery ?h ?d ?p ?r with _ => _ end] =>
               destruct (handleQuery h d p r)
           | |- context [match ?l with [] => _ | _ :: _ => _ end] => destruct l
           | |- context [match ?d with VNil => _ | _ => _ end] => destruct d
           end.
Qed.

Lemma treeShaped_getFromPath (data : value) (path origYAML : string) :
  treeShaped (getFromPath H modifiers data path origYAML).
Proof.
  unfold getFromPath.
  destruct (_ || _); [apply treeShaped_valueToResult|].
  destruct (firstByteIs path "@"); [apply treeShaped_applyModifier|].
  destruct (parsePath path); [apply treeShaped_valueToResult|].
  apply treeShaped_traversePath.
Qed.

Lemma treeShaped_slowGet (yaml path : string) :
  treeShaped (slowGet H modifiers yaml path).
Proof.
  unfold slowGet. destruct (Unmarshal H yaml).
  - apply treeShaped_getFromPath.
  - apply treeShaped_zero.
Qed.

End SlowShape.

(** ** Documents the parser rejects *)

(** On [unclosed], the fast path answers the path [a] for every host,
    and the empty path returns the text. *)
Lemma Get_unclosed (H : Host) (modifiers : registry) :
  Get H modifiers unclosed "a" = Ret (mkResult True_ "true" "" 0%float 0 [])
  /\ Get H modifiers unclosed "" = Ret (mkResult YAML unclosed "" 0%float 0 []).
Proof. split; vm_compute; reflexivity. Qed.

(** C2, as stated, fails: the sample parser rejects [unclosed], and
    [Get] still returns an existent [True] result for the path [a]
    (the fast path answers from the first line) and an existent [YAML]
    result for the empty path. *)
Lemma Get_rejected_document_answers :
  Unmarshal SampleHost.host unclosed = None
  /\ Get SampleHost.host (builtin_modifiers SampleHost.host) unclosed "a"
     = Ret (mkResult True_ "true" "" 0%float 0 [])
  /\ Exists (mkResult True_ "true" "" 0%float 0 []) = true
  /\ Get SampleHost.host (builtin_modifiers SampleHost.host) unclosed ""
     = Ret (mkResult YAML unclosed "" 0%float 0 [])
  /\ Exists (mkResult YAML unclosed "" 0%float 0 []) = true.
Proof.
  split; [reflexivity|].
  destruct (Get_unclosed SampleHost.host (builtin_modifiers SampleHost.host))
    as [Ha He].
  repeat split; assumption || reflexivity.
Qed.

(** C2, amended. When the parser rejects the document, the path is not
    empty and has no [..] prefix, and the fast path declines, [Get]
    returns the zero result: type [Null], empty [Raw], not existent. *)
Theorem Get_rejected_document (H : Host) (modifiers : registry)
  (yaml path : string) (r : Result) :
  Unmarshal H yaml = None ->
  path <> "" ->
  hasLinesPrefix path = false ->
  fastGet H yaml (stripDot path) = Ret (r, false) ->
  Get H modifiers yaml path = Ret Result_zero
  /\ Type' Result_zero = Null /\ Raw Result_zero = "" /\ Exists Result_zero = false.
Proof.
  intros Hrej Hne Hlines Hfast.
  rewrite (Get_slow H modifiers yaml path r Hne Hlines Hfast).
  unfold slowGet. rewrite Hrej. repeat split.
Qed.

(** ** The fast path against the traversal engine *)

(** What [fastGet] lets through on a path that is not empty. *)
Lemma fastGet_answer_kind (H : Host) (yaml path : string) (r : Result) :
  path <> "" ->
  fastGet H yaml path = Ret (r, true) ->
  Type' r <> YAML /\ Type' r <> Null.
Proof.
  intros Hne. unfold fastGet.
  destruct path as [|c path']; [congruence|].
  change (len (String c path') =? 0) with false. cbv iota.
  destruct (splitPath (String c path')); [discriminate|].
  destruct (hasComplexFeatures (String c path')); [discriminate|].
  destruct (fastParsePath H yaml _) as [[result ok]|]; simpl; [|discriminate].
  destruct ok; simpl; [|discriminate].
  destruct (Type' result) eqn:E; simpl; try discriminate;
    intros [= <-]; rewrite E; split; discriminate.
Qed.

(** On the document [quoted] and the path [a] the fast path answers with
    a [String] whose [Raw] keeps the quotes, and no host and no modifier
    table make the traversal engine return that result, its [String]
    results having [Raw] equal to [Str]. *)
Lemma fastGet_differs_from_slowGet :
  exists r : Result,
    (forall H : Host, fastGet H quoted "a" = Ret (r, true))
    /\ (forall (H : Host) (modifiers : registry),
           slowGet H modifiers quoted "a" <> r).
Proof.
  exists (mkResult String_ (String DQUOTE ("x" ++ String DQUOTE "")) "x" 0%float 0 []).
  split.
  - intros H. vm_compute. reflexivity.
  - intros H modifiers E.
    pose proof (treeShaped_slowGet H modifiers quoted "a") as Hshape.
    rewrite E in Hshape. specialize (Hshape eq_refl). discriminate Hshape.
Qed.

(** When the fast path answers a path that is not empty and is not in
    lines mode, [Get] returns its result as it is, and that result is an
    existent scalar: its type is [False], [Number], [String] or [True]. *)
Lemma fastGet_answer (H : Host) (modifiers : registry)
  (yaml path : string) (r : Result) :
  hasLinesPrefix path = false ->
  stripDot path <> "" ->
  fastGet H yaml (stripDot path) = Ret (r, true) ->
  Get H modifiers yaml path = Ret r
  /\ Exists r = true
  /\ (Type' r = False_ \/ Type' r = Number \/ Type' r = String_ \/ Type' r = True_).
Proof.
  intros Hlines Hne Hfast.
  assert (Hpath : path <> "") by (intros ->; apply Hne; reflexivity).
  destruct (fastGet_answer_kind H yaml (stripDot path) r Hne Hfast) as [Hy Hn].
  split; [exact (Get_fast H modifiers yaml path r Hpath Hlines Hfast)|].
  unfold Exists.
  destruct (Type' r); try congruence; simpl; auto.
Qed.

(** C3. The fast path does return wrong answers.  On the document
    [commented], where the value of [a] is followed by a comment, it
    answers the path [a] with the rest of the line, comment included,
    and [Get] returns that answer; the traversal engine, on the tree a
    YAML parser gives the document, returns the value without the
    comment.  The two hypotheses say what the libraries do with the two
    texts: the parser drops the comment, and the line is no number. *)
Theorem fastGet_wrong_answer (H : Host) (modifiers : registry) :
  Unmarshal H commented = Some commented_data ->
  snd (ParseFloat H "x # note") = false ->
  let fast := mkResult String_ "x # note" "x # note" 0%float 0 [] in
  let slow := mkResult String_ "x" "x" 0%float 0 [] in
  fastGet H commented "a" = Ret (fast, true)
  /\ Get H modifiers commented "a" = Ret fast
  /\ slowGet H modifiers commented "a" = slow
  /\ Str fast <> Str slow.
Proof.
  intros Hparse Hfloat fast slow.
  assert (Hfast : fastGet H commented "a" = Ret (fast, true)).
  { unfold fastGet.
    change (len "a" =? 0) with false. change (splitPath "a") with ["a"].
    change (hasComplexFeatures "a") with false. cbv iota.
    assert (Hx : fastParsePath H commented ["a"] = extractValue H "x # note")
      by reflexivity.
    rewrite Hx. unfold extractValue.
    change (strings.TrimSpace "x # note") with "x # note".
    cbn [String.eqb Ascii.eqb Bool.eqb].
    change (strings.HasPrefix "x # note" (String DQUOTE "")) with false.
    change (strings.HasPrefix "x # note" (String SQUOTE "")) with false.
    cbn [andb orb].
    change (strings.ToLower "x # note") with "x # note".
    cbn [String.eqb Ascii.eqb Bool.eqb orb].
    destruct (ParseFloat H "x # note") as [num ok]. cbn [snd] in Hfloat.
    subst ok. reflexivity. }
  split; [exact Hfast|].
  split; [apply Get_fast; [discriminate | reflexivity | exact Hfast]|].
  split; [unfold slowGet; rewrite Hparse; reflexivity|].
  discriminate.
Qed.

(** ** The tokenizer on a path that ends in a selector *)

Lemma firstByteIs_false_neq (ch c : ascii) (rest : string) :
  Ascii.eqb ch c = false -> firstByteIs (String ch rest) c = false.
Proof. intros E. simpl. exact E. Qed.

Lemma parseComponent_selects (s : string) : selects (parseComponent s).
Proof.
  unfold parseComponent, selects.
  destruct (strings.ContainsAny s "*?"); [simpl; auto|].
  destruct (strconv.Atoi s); simpl; auto.
Qed.

Lemma flush_selects (parts : list pathComponent) (current : string) :
  Forall selects parts -> Forall selects (flush parseComponent parts current).
Proof.
  intros Hp. unfold flush. destruct current; [exact Hp|].
  apply Forall_app. split; [exact Hp|].
  constructor; [apply parseComponent_selects | constructor].
Qed.

Section Tokenizer.

Variable depth : Z.

(** A plain text followed by a dot: the loop ends the text as it would
    at the end of the path, and goes on after the dot. *)
Lemma parsePath_loop_plain (arr : string) :
  forall (parts : list pathComponent) (current : string) (escaped : bool)
         (rest : string),
    plainFrom escaped arr = true ->
    parsePath_loop parts current false depth escaped (arr ++ String "." rest)
    = parsePath_loop (parsePath_loop parts current false depth escaped arr)
                     "" false depth false rest.
Proof.
  induction arr as [|ch arr IH]; intros parts current escaped rest Hplain.
  - simpl in Hplain. destruct escaped; [discriminate|]. reflexivity.
  - simpl in Hplain. simpl.
    destruct escaped.
    + apply IH. exact Hplain.
    + destruct (Ascii.eqb ch BACKSLASH).
      * apply IH. exact Hplain.
      * destruct (Ascii.eqb ch "#") eqn:Ehash; [discriminate|].
        destruct (Ascii.eqb ch "|") eqn:Epipe; [discriminate|].
        simpl.
        destruct (Ascii.eqb ch "."); apply IH; exact Hplain.
Qed.

Lemma parsePath_loop_selects (arr : string) :
  forall (parts : list pathComponent) (current : string) (escaped : bool),
    plainFrom escaped arr = true ->
    Forall selects parts ->
    Forall selects (parsePath_loop parts current false depth escaped arr).
Proof.
  induction arr as [|ch arr IH]; intros parts current escaped Hplain Hparts.
  - simpl. apply flush_selects. exact Hparts.
  - simpl in Hplain. simpl.
    destruct escaped.
    + apply IH; assumption.
    + destruct (Ascii.eqb ch BACKSLASH).
      * apply IH; assumption.
      * destruct (Ascii.eqb ch "#") eqn:Ehash; [discriminate|].
        destruct (Ascii.eqb ch "|") eqn:Epipe; [discriminate|].
        simpl.
        destruct (Ascii.eqb ch ".").
        -- apply IH; [assumption | apply flush_selects; assumption].
        -- apply IH; assumption.
Qed.


End Tokenizer.

Lemma updateLast_snoc (f : pathComponent -> pathComponent)
  (parts : list pathComponent) (c : pathComponent) :
  updateLast f (parts ++ [c])%list = (parts ++ [f c])%list.
Proof.
  induction parts as [|c0 parts IH]; [reflexivity|].
  simpl. rewrite IH. destruct (parts ++ [c])%list eqn:E; [|reflexivity].
  destruct parts; discriminate.
Qed.

(** Inside a query: the loop keeps the bytes of a well-formed body,
    closes the query at the parenthesis after it, and marks it [multi]
    when a [#] follows. *)
Lemma parsePath_loop_query (q : string) :
  forall (parts : list pathComponent) (current : string) (depth : Z)
         (escaped : bool) (tail : string),
    queryBody depth escaped q = true ->
    parsePath_loop parts current true depth escaped (q ++ String ")" tail)
    = let parts' := updateLast (with_query (current ++ unescape escaped q)) parts in
      match tail with
      | String "#" tail' =>
          parsePath_loop (updateLast with_multi parts') "" false 0 false tail'
      | _ => parsePath_loop parts' "" false 0 false tail
      end.
Proof.
  induction q as [|ch q IH]; intros parts current depth escaped tail Hq.
  - simpl in Hq. apply andb_true_iff in Hq as [Hesc Hd].
    destruct escaped; [discriminate|].
    apply Z.eqb_eq in Hd. subst depth.
    simpl. rewrite append_empty_r. reflexivity.
  - simpl in Hq. simpl.
    destruct escaped.
    + rewrite IH by exact Hq. cbv zeta. rewrite append_assoc. reflexivity.
    + destruct (Ascii.eqb ch BACKSLASH) eqn:Ebs.
      * rewrite IH by exact Hq. reflexivity.
      * rewrite andb_false_r.
        destruct (Ascii.eqb ch "(") eqn:Eopen.
        -- rewrite IH by exact Hq. cbv zeta. rewrite append_assoc. reflexivity.
        -- destruct (Ascii.eqb ch ")") eqn:Eclose.
           ++ apply andb_true_iff in Hq as [Hd Hq].
              apply negb_true_iff in Hd. rewrite Hd.
              rewrite IH by exact Hq. cbv zeta. rewrite append_assoc. reflexivity.
           ++ rewrite IH by exact Hq. cbv zeta. rewrite append_assoc. reflexivity.
Qed.

(** The two query selectors after any components. *)
Lemma parsePath_loop_selector (q : string) (parts : list pathComponent) :
  queryBody 1 false q = true ->
  parsePath_loop parts "" false 0 false ("#(" ++ q ++ ")#")
  = (parts ++ [queryOf (unescape false q) true])%list
  /\ parsePath_loop parts "" false 0 false ("#(" ++ q ++ ")")
     = (parts ++ [queryOf (unescape false q) false])%list.
Proof.
  intros Hq. split.
  - change ("#(" ++ q ++ ")#") with (String "#" (String "(" (q ++ String ")" "#"))).
    cbn [parsePath_loop]. simpl Ascii.eqb. cbv iota. simpl negb. simpl andb. cbv iota.
    rewrite parsePath_loop_query by exact Hq.
    cbv zeta. simpl flush. rewrite !updateLast_snoc. reflexivity.
  - change ("#(" ++ q ++ ")") with (String "#" (String "(" (q ++ String ")" ""))).
    cbn [parsePath_loop]. simpl Ascii.eqb. cbv iota. simpl negb. simpl andb. cbv iota.
    rewrite parsePath_loop_query by exact Hq.
    cbv zeta. simpl flush. rewrite !updateLast_snoc. reflexivity.
Qed.

(** ** The fast path declines a path with an operator *)

Lemma hasComplexFeatures_app (a b : string) :
  hasComplexFeatures b = true -> hasComplexFeatures (a ++ b) = true.
Proof.
  intros Hb. induction a as [|c a IH]; [exact Hb|].
  simpl. destruct (_ || _); [reflexivity|].
  destruct (_ && _); [reflexivity | exact IH].
Qed.


Lemma fastGet_declines (H : Host) (yaml path : string) :
  path <> "" -> hasComplexFeatures path = true ->
  fastGet H yaml path = Ret (Result_zero, false).
Proof.
  intros Hne Hcomplex. unfold fastGet.
  destruct path as [|c path']; [congruence|].
  change (len (String c path') =? 0) with false. cbv iota.
  rewrite Hcomplex. destruct (splitPath _); reflexivity.
Qed.

(** ** Traversal through keys, indexes and wildcards *)

Section Traversal.

Variable H : Host.
Variable modifiers : registry.

Lemma traversePath_prefix (prefix : list pathComponent) :
  forall (data : value) (rest : list pathComponent) (origYAML : string),
    Forall selects prefix ->
    traversePath H modifiers data (prefix ++ rest) origYAML
    = match descend prefix data with
      | None => Result_zero
      | Some current => traversePath H modifiers current rest origYAML
      end.
Proof.
  induction prefix as [|part prefix IH]; intros data rest origYAML Hsel.
  - reflexivity.
  - inversion Hsel as [|? ? (Hpipe & Hcount & Hquery) Hsel']; subst.
    rewrite <- app_comm_cons, traversePath_cons.
    rewrite Hpipe, Hcount, Hquery. cbv zeta iota.
    simpl descend. destruct (step part data) as [current'|]; [|reflexivity].
    apply IH. exact Hsel'.
Qed.

Lemma getFromPath_traverse (data : value) (path origYAML : string) :
  path <> "" -> firstByteIs path "@" = false ->
  getFromPath H modifiers data path origYAML
  = traversePath H modifiers data (parsePath path) origYAML.
Proof.
  intros Hne Hat. unfold getFromPath. rewrite Hat.
  destruct path as [|c path']; [congruence|].
  assert (E : String.eqb (String c path') "@this" = false).
  { destruct (String.eqb_spec (String c path') "@this") as [E|]; [|reflexivity].
    rewrite E in Hat. discriminate Hat. }
  rewrite E. simpl orb. cbv iota.
  destruct (parsePath (String c path')); reflexivity.
Qed.

(** [Get] on the path [arr.sel], where [arr] is a path to an array and
    [sel] a selector the tokenizer reads as the components [comps]. *)
Lemma Get_selector (yaml arr sel : string) (comps : list pathComponent) :
  arrayPath arr = true ->
  sel <> "" -> firstByteIs sel "." = false -> firstByteIs sel "@" = false ->
  hasComplexFeatures sel = true ->
  (forall parts, parsePath_loop parts "" false 0 false sel = (parts ++ comps)%list) ->
  Get H modifiers yaml (arr ++ "." ++ sel)
  = Ret (match Unmarshal H yaml with
         | None => Result_zero
         | Some data =>
             match descend (parsePath arr) data with
             | None => Result_zero
             | Some current => traversePath H modifiers current comps yaml
             end
         end).
Proof.
  intros Harr Hsel Hdot Hat Hcomplex Htok.
  unfold arrayPath in Harr.
  apply andb_true_iff in Harr as [Harr Hat'].
  apply andb_true_iff in Harr as [Hplain Hdot'].
  apply negb_true_iff in Hat'. apply negb_true_iff in Hdot'.
  set (path := arr ++ "." ++ sel).
  assert (Hne : path <> "") by (subst path; destruct arr; discriminate).
  assert (Hlines : hasLinesPrefix path = false).
  { subst path. unfold hasLinesPrefix. destruct arr as [|c arr].
    - destruct sel as [|c sel]; [congruence|].
      simpl in Hdot. simpl. rewrite Hdot. apply andb_false_r.
    - simpl in Hdot'. simpl. rewrite Hdot'.
      rewrite andb_false_r. reflexivity. }
  assert (Hstrip : stripDot path <> ""
                   /\ firstByteIs (stripDot path) "@" = false
                   /\ hasComplexFeatures (stripDot path) = true
                   /\ parsePath (stripDot path) = (parsePath arr ++ comps)%list).
  { subst path. unfold stripDot. destruct arr as [|c arr].
    - simpl. repeat split; try assumption. apply (Htok []).
    - simpl in Hdot'. cbn [append firstByteIs]. rewrite Hdot'.
      repeat split.
      + discriminate.
      + exact Hat'.
      + apply (hasComplexFeatures_app (String c arr)).
        apply (hasComplexFeatures_app "."). exact Hcomplex.
      + unfold parsePath.
        change (parsePath_loop [] "" false 0 false (String c arr ++ String "." sel)
                = (parsePath_loop [] "" false 0 false (String c arr) ++ comps)%list).
        rewrite parsePath_loop_plain by exact Hplain.
        apply Htok. }
  destruct Hstrip as (Hne' & Hat'' & Hcomplex' & Hparse).
  rewrite (Get_slow H modifiers yaml path Result_zero Hne Hlines
             (fastGet_declines H yaml _ Hne' Hcomplex')).
  unfold slowGet. destruct (Unmarshal H yaml) as [data|]; [|reflexivity].
  rewrite getFromPath_traverse by assumption.
  rewrite Hparse.
  rewrite traversePath_prefix; [reflexivity|].
  apply parsePath_loop_selects; [exact Hplain | constructor].
Qed.

End Traversal.

(** ** Selectors at the end of a path *)

Section Selectors.

Variable H : Host.
Variable modifiers : registry.

(** A leading dot changes nothing. *)
Lemma Get_leading_dot (yaml sel : string) :
  sel <> "" -> firstByteIs sel "." = false ->
  Get H modifiers yaml ("." ++ sel) = Get H modifiers yaml sel.
Proof.
  intros Hne Hdot. destruct sel as [|c sel]; [congruence|].
  simpl in Hdot. unfold Get, hasLinesPrefix, stripDot.
  cbn [append firstByteIs drop]. simpl Ascii.eqb. rewrite Hdot.
  rewrite !andb_false_r. reflexivity.
Qed.

Lemma Get_joinPath (yaml arr sel : string) (comps : list pathComponent) :
  arrayPath arr = true ->
  sel <> "" -> firstByteIs sel "." = false -> firstByteIs sel "@" = false ->
  hasComplexFeatures sel = true ->
  (forall parts, parsePath_loop parts "" false 0 false sel = (parts ++ comps)%list) ->
  Get H modifiers yaml (joinPath arr sel)
  = Ret (match Unmarshal H yaml with
         | None => Result_zero
         | Some data =>
             match descend (parsePath arr) data with
             | None => Result_zero
             | Some current => traversePath H modifiers current comps yaml
             end
         end).
Proof.
  intros Harr Hne Hdot Hat Hcomplex Htok.
  destruct arr as [|c arr].
  - unfold joinPath. rewrite <- (Get_leading_dot yaml sel Hne Hdot).
    apply (Get_selector H modifiers yaml "" sel comps); assumption.
  - apply (Get_selector H modifiers yaml (String c arr) sel comps); assumption.
Qed.



End Selectors.


(** ** Queries: first match and all matches *)

Section Queries.

Variable H : Host.
Variable modifiers : registry.

Lemma traversePath_query_single (current : value) (q origYAML : string) :
  traversePath H modifiers current [queryOf q false] origYAML
  = valueToResult H (hd VNil (matchesOf H current q)).
Proof.
  rewrite traversePath_cons. cbn [hasPipe isCount isQuery multi negb].
  cbv zeta iota. unfold handleQuery, matchesOf. cbn [query multi queryOf].
  destruct current; reflexivity.
Qed.

Lemma traversePath_query_multi (current : value) (q origYAML : string) :
  traversePath H modifiers current [queryOf q true] origYAML
  = match current with
    | VSeq _ => valueToResult H (VSeq (matchesOf H current q))
    | _ => Result_zero
    end.
Proof.
  rewrite traversePath_cons. cbn [hasPipe isCount isQuery multi negb].
  cbv zeta iota. unfold handleQuery, matchesOf. cbn [query multi queryOf].
  destruct current; reflexivity.
Qed.

Lemma Array_roundTrips (items : list value) :
  roundTrips H items ->
  Array H (valueToResult H (VSeq items)) = map (valueToResult H) items.
Proof.
  intros [Hback Harray]. unfold Array. rewrite Harray.
  cbn [valueToResult Type' Type_eqb negb Raw]. cbv iota.
  rewrite Hback. reflexivity.
Qed.

Lemma query_selector_tokens (q : string) (multi : bool) :
  queryBody 1 false q = true ->
  let sel := "#(" ++ q ++ (if multi then ")#" else ")") in
  sel <> "" /\ firstByteIs sel "." = false /\ firstByteIs sel "@" = false
  /\ hasComplexFeatures sel = true
  /\ (forall parts, parsePath_loop parts "" false 0 false sel
                    = (parts ++ [queryOf (unescape false q) multi])%list).
Proof.
  intros Hq sel. subst sel.
  repeat split; try discriminate; try reflexivity.
  intros parts.
  destruct (parsePath_loop_selector q parts Hq) as [Hmulti Hsingle].
  destruct multi; assumption.
Qed.

End Queries.

Lemma ContainsAny_append (a b chars : string) :
  strings.ContainsAny (a ++ b) chars
  = strings.ContainsAny a chars || strings.ContainsAny b chars.
Proof.
  induction a as [|c a IH]; [reflexivity|].
  cbn [append strings.ContainsAny]. rewrite IH. apply orb_assoc.
Qed.

Lemma flush_literal (parts : list pathComponent) (current : string) :
  strings.ContainsAny current "*?" = false ->
  Forall (fun part => isWild part = false) parts ->
  Forall (fun part => isWild part = false) (flush parseComponent parts current).
Proof.
  intros Hc Hp. unfold flush. destruct current as [|c current]; [exact Hp|].
  apply Forall_app. split; [exact Hp|]. constructor; [|constructor].
  unfold parseComponent. rewrite Hc. destruct (strconv.Atoi _); reflexivity.
Qed.

Lemma parsePath_loop_literal (depth : Z) (arr : string) :
  forall (parts : list pathComponent) (current : string) (escaped : bool),
    plainFrom escaped arr = true ->
    strings.ContainsAny arr "*?" = false ->
    strings.ContainsAny current "*?" = false ->
    Forall (fun part => isWild part = false) parts ->
    Forall (fun part => isWild part = false)
           (parsePath_loop parts current false depth escaped arr).
Proof.
  induction arr as [|ch arr IH]; intros parts current escaped Hplain Harr Hcur Hparts.
  - cbn [parsePath_loop]. apply flush_literal; assumption.
  - cbn [plainFrom] in Hplain. cbn [strings.ContainsAny] in Harr.
    apply orb_false_iff in Harr as [Hch Harr].
    assert (Hext : strings.ContainsAny (current ++ String ch "") "*?" = false).
    { rewrite ContainsAny_append, Hcur. cbn [strings.ContainsAny orb].
      rewrite Hch. reflexivity. }
    cbn [parsePath_loop].
    destruct escaped.
    + apply IH; assumption.
    + destruct (Ascii.eqb ch BACKSLASH).
      * apply IH; assumption.
      * destruct (Ascii.eqb ch "#") eqn:Ehash; [discriminate|].
        destruct (Ascii.eqb ch "|") eqn:Epipe; [discriminate|].
        cbn [andb orb]. cbv iota.
        destruct (Ascii.eqb ch ".").
        -- apply IH; [assumption | assumption | reflexivity |].
           apply flush_literal; assumption.
        -- apply IH; assumption.
Qed.

(** A path of keys and indexes has no wildcard component, so the
    traversal along it never ranges over a map. *)
Lemma keyPath_parts (arr : string) :
  keyPath arr = true ->
  arrayPath arr = true
  /\ Forall (fun part => isWild part = false) (parsePath arr).
Proof.
  unfold keyPath. intros Hk. apply andb_true_iff in Hk as [Harr Hlit].
  apply negb_true_iff in Hlit. split; [exact Harr|].
  unfold arrayPath in Harr.
  apply andb_true_iff in Harr as [Harr _]. apply andb_true_iff in Harr as [Hplain _].
  apply parsePath_loop_literal; [exact Hplain | exact Hlit | reflexivity | constructor].
Qed.

(** C7, as stated, fails for a path [arr] that holds a [#].  On the
    README document, with [arr] the path [friends.#.nets] and the query
    [==fb], the form [arr.#(q)#] returns one list of matches for each
    friend, so the first element of its array is the list of the first
    friend, while the form [arr.#(q)] returns the first matches of the
    friends that have one, a list of two. *)
Lemma Get_query_first_multi_after_count :
  let H := netsHost in
  let modifiers := builtin_modifiers netsHost in
  let fb := VString "fb" in
  let every := valueToResult H (VSeq [VSeq [fb]; VSeq [fb]; VSeq []]) in
  let first := valueToResult H (VSeq [fb; fb]) in
  arrayPath "friends.#.nets" = false
  /\ queryBody 1 false "==fb" = true
  /\ Unmarshal H readme = Some readme_data
  /\ Get H modifiers readme (joinPath "friends.#.nets" ("#(" ++ "==fb" ++ ")#"))
     = Ret every
  /\ Get H modifiers readme (joinPath "friends.#.nets" ("#(" ++ "==fb" ++ ")"))
     = Ret first
  /\ Exists first = true
  /\ hd_error (Array H every) = Some (valueToResult H (VSeq [fb]))
  /\ valueToResult H (VSeq [fb]) <> first.
Proof.
  cbv zeta. repeat split; try (vm_compute; reflexivity).
  vm_compute. discriminate.
Qed.

(** C7, amended. For a path [arr] to an array that is made of keys and
    indexes only, and a query body [q], there is a list of matches such
    that [arr.#(q)#] returns the serialised list and [arr.#(q)] returns
    the result of its first element, or the non-existent zero result
    when the list is empty; where the host reads the serialised list
    back, the first element of the array of the one is the other.  No
    component of [arr] is a wildcard, so neither call ranges over a
    map. *)
Theorem Get_query_first_multi (H : Host) (modifiers : registry)
  (yaml arr q : string) :
  keyPath arr = true ->
  queryBody 1 false q = true ->
  Forall (fun part => isWild part = false) (parsePath arr)
  /\ exists (matches : list value) (every first : Result),
       Get H modifiers yaml (joinPath arr ("#(" ++ q ++ ")#")) = Ret every
       /\ Get H modifiers yaml (joinPath arr ("#(" ++ q ++ ")")) = Ret first
       /\ (every = valueToResult H (VSeq matches)
           \/ (matches = [] /\ every = Result_zero))
       /\ first = valueToResult H (hd VNil matches)
       /\ (matches = [] -> Exists first = false)
       /\ (roundTrips H matches ->
           Array H every = map (valueToResult H) matches
           /\ forall r rest, Array H every = r :: rest -> r = first).
Proof.
  intros Hkey Hq. destruct (keyPath_parts arr Hkey) as [Harr Hlit].
  split; [exact Hlit|].
  destruct (query_selector_tokens q true Hq) as (Hne & Hdot & Hat & Hcx & Htok).
  destruct (query_selector_tokens q false Hq) as (Hne' & Hdot' & Hat' & Hcx' & Htok').
  cbv zeta in *.
  rewrite (Get_joinPath H modifiers yaml arr _ _ Harr Hne Hdot Hat Hcx Htok).
  rewrite (Get_joinPath H modifiers yaml arr _ _ Harr Hne' Hdot' Hat' Hcx' Htok').
  assert (Hnone : exists (matches : list value) (every first : Result),
             Ret Result_zero = Ret every /\ Ret Result_zero = Ret first
             /\ (every = valueToResult H (VSeq matches)
                 \/ (matches = [] /\ every = Result_zero))
             /\ first = valueToResult H (hd VNil matches)
             /\ (matches = [] -> Exists first = false)
             /\ (roundTrips H matches ->
                 Array H every = map (valueToResult H) matches
                 /\ forall r rest, Array H every = r :: rest -> r = first)).
  { exists [], Result_zero, Result_zero.
    repeat split; auto. intros r rest E. discriminate E. }
  destruct (Unmarshal H yaml) as [data|]; [|exact Hnone].
  destruct (descend (parsePath arr) data) as [current|]; [|exact Hnone].
  rewrite traversePath_query_multi, traversePath_query_single.
  destruct current as [| | | | |items|]; try exact Hnone.
  exists (matchesOf H (VSeq items) (unescape false q)).
  eexists. eexists. split; [reflexivity|]. split; [reflexivity|].
  split; [left; reflexivity|]. split; [reflexivity|].
  split.
  - intros ->. reflexivity.
  - intros Hrt. rewrite (Array_roundTrips H _ Hrt). split; [reflexivity|].
    intros r rest E.
    destruct (matchesOf H (VSeq items) (unescape false q)); [discriminate E|].
    simpl in E. injection E as <- _. reflexivity.
Qed.

(* ================================================================= *)
(** * The statements at the README document, on the sample host *)

(** [Get_rejected_document] at the document [unclosed] and the path [b],
    whose value looks like a collection, so that the fast path declines. *)
Lemma Get_rejected_document_witness :
  (Unmarshal SampleHost.host unclosed = None
   /\ "b" <> ""
   /\ hasLinesPrefix "b" = false
   /\ fastGet SampleHost.host unclosed (stripDot "b") = Ret (Result_zero, false))
  /\ Get SampleHost.host (builtin_modifiers SampleHost.host) unclosed "b"
     = Ret Result_zero
  /\ Type' Result_zero = Null /\ Raw Result_zero = "" /\ Exists Result_zero = false.
Proof.
  assert (Hrej : Unmarshal SampleHost.host unclosed = None) by reflexivity.
  assert (Hne : "b" <> "") by discriminate.
  assert (Hlines : hasLinesPrefix "b" = false) by reflexivity.
  assert (Hfast : fastGet SampleHost.host unclosed (stripDot "b")
                  = Ret (Result_zero, false)) by (vm_compute; reflexivity).
  split; [repeat split; assumption|].
  exact (Get_rejected_document SampleHost.host (builtin_modifiers SampleHost.host)
           unclosed "b" Result_zero Hrej Hne Hlines Hfast).
Defined.

(** [fastGet_wrong_answer] on a host that reads the document
    [commented] as YAML does. *)
Lemma fastGet_wrong_answer_witness :
  let H := tableHost [(commented, commented_data)] in
  let fast := mkResult String_ "x # note" "x # note" 0%float 0 [] in
  let slow := mkResult String_ "x" "x" 0%float 0 [] in
  (Unmarshal H commented = Some commented_data
   /\ snd (ParseFloat H "x # note") = false)
  /\ fastGet H commented "a" = Ret (fast, true)
  /\ Get H (builtin_modifiers H) commented "a" = Ret fast
  /\ slowGet H (builtin_modifiers H) commented "a" = slow
  /\ Str fast <> Str slow.
Proof.
  split; [split; reflexivity|].
  apply (fastGet_wrong_answer (tableHost [(commented, commented_data)])
           (builtin_modifiers (tableHost [(commented, commented_data)])));
    reflexivity.
Defined.

(** [Get_path_after_modifier] on the sample parser. *)
Lemma Get_path_after_modifier_witness :
  Unmarshal SampleHost.host readme = Some readme_data
  /\ Get SampleHost.host (builtin_modifiers SampleHost.host) readme
         "children|@reverse|0"
     = Ret (mkResult YAML (Marshal SampleHost.host readme_children) "" 0%float 0 []).
Proof.
  assert (Hparse : Unmarshal SampleHost.host readme = Some readme_data)
    by reflexivity.
  split; [exact Hparse|].
  exact (Get_path_after_modifier SampleHost.host
           (builtin_modifiers SampleHost.host) Hparse).
Defined.

(** [Get_nested_query] on the sample parser. *)
Lemma Get_nested_query_witness :
  Unmarshal SampleHost.host readme = Some readme_data
  /\ Get SampleHost.host (builtin_modifiers SampleHost.host) readme
         ("friends.#(nets.#(==" ++ String DQUOTE "fb" ++ String DQUOTE "))#.first")
     = Ret (mkResult YAML (Marshal SampleHost.host (VSeq [])) "" 0%float 0 []).
Proof.
  assert (Hparse : Unmarshal SampleHost.host readme = Some readme_data)
    by reflexivity.
  split; [exact Hparse|].
  exact (Get_nested_query SampleHost.host (builtin_modifiers SampleHost.host) Hparse).
Defined.


(** [Get_query_first_multi] at the array [friends] and the query
    [age>45]. *)
Lemma Get_query_first_multi_witness :
  (keyPath "friends" = true /\ queryBody 1 false "age>45" = true)
  /\ Forall (fun part => isWild part = false) (parsePath "friends")
  /\ exists (matches : list value) (every first : Result),
       Get SampleHost.host (builtin_modifiers SampleHost.host) readme
           "friends.#(age>45)#" = Ret every
       /\ Get SampleHost.host (builtin_modifiers SampleHost.host) readme
              "friends.#(age>45)" = Ret first
       /\ (every = valueToResult SampleHost.host (VSeq matches)
           \/ (matches = [] /\ every = Result_zero))
       /\ first = valueToResult SampleHost.host (hd VNil matches)
       /\ (matches = [] -> Exists first = false)
       /\ (roundTrips SampleHost.host matches ->
           Array SampleHost.host every = map (valueToResult SampleHost.host) matches
           /\ forall r rest, Array SampleHost.host every = r :: rest -> r = first).
Proof.
  assert (Harr : keyPath "friends" = true) by reflexivity.
  assert (Hq : queryBody 1 false "age>45" = true) by reflexivity.
  split; [split; assumption|].
  exact (Get_query_first_multi SampleHost.host (builtin_modifiers SampleHost.host)
           readme "friends" "age>45" Harr Hq).
Defined.

(** The query [age>45] on the README document, run on the sample host:
    the two friends over 45, the first of them, and the array of the
    one starting with the other. *)
Example friends_over_45 :
  let over45 := [friend "Roger" "Craig" 68 ["fb"; "tw"];
                 friend "Jane" "Murphy" 47 ["ig"; "tw"]] in
  let every := valueToResult SampleHost.host (VSeq over45) in
  let first := valueToResult SampleHost.host (friend "Roger" "Craig" 68 ["fb"; "tw"]) in
  roundTrips SampleHost.host over45
  /\ Get SampleHost.host (builtin_modifiers SampleHost.host) readme
         "friends.#(age>45)#" = Ret every
  /\ Get SampleHost.host (builtin_modifiers SampleHost.host) readme
         "friends.#(age>45)" = Ret first
  /\ hd_error (Array SampleHost.host every) = Some first.
Proof. cbv zeta. repeat split; vm_compute; reflexivity. Qed.

(* ================================================================= *)
(** * Further properties *)

(** ** The two tokenizers and the test for the fast path *)

Lemma HasPrefix_byte (s : string) (c : ascii) :
  strings.HasPrefix s (String c "") = firstByteIs s c.
Proof.
  destruct s as [|b s]; [reflexivity|].
  unfold strings.HasPrefix. simpl.
  destruct (ascii_dec c b) as [<-|Hne].
  - rewrite Ascii.eqb_refl. destruct s; reflexivity.
  - symmetry. apply Ascii.eqb_neq. congruence.
Qed.

Lemma HasPrefix_cons (s : string) (c : ascii) (p : string) :
  strings.HasPrefix s (String c p)
  = match s with
    | EmptyString => false
    | String b s' => Ascii.eqb b c && strings.HasPrefix s' p
    end.
Proof.
  destruct s as [|b s]; [reflexivity|].
  unfold strings.HasPrefix. simpl.
  destruct (ascii_dec c b) as [<-|Hne].
  - rewrite Ascii.eqb_refl. reflexivity.
  - assert (E : Ascii.eqb b c = false) by (apply Ascii.eqb_neq; congruence).
    rewrite E. reflexivity.
Qed.

(** X1. [hasComplexFeatures] holds exactly of the paths that contain one
    of the bytes [*], [?], [@], [|] or the two bytes [#(]; an escape
    before them changes nothing. *)
Theorem hasComplexFeatures_spec (path : string) :
  hasComplexFeatures path
  = strings.ContainsAny path "*?@|" || strings.Contains path "#(".
Proof.
  induction path as [|c path IH]; [reflexivity|].
  cbn [hasComplexFeatures strings.ContainsAny strings.Contains].
  rewrite HasPrefix_cons, HasPrefix_byte. rewrite IH.
  cbn [strings.mem].
  destruct (Ascii.eqb c "*"), (Ascii.eqb c "?"), (Ascii.eqb c "@"),
    (Ascii.eqb c "|"); cbn [orb]; try reflexivity.
  destruct (Ascii.eqb c "#" && firstByteIs path "("); cbn [orb].
  - rewrite orb_true_r. reflexivity.
  - reflexivity.
Qed.

Lemma splitPath_loop_nonempty (path : string) :
  forall (parts : list string) (current : string) (escaped : bool),
    Forall (fun part => part <> "") parts ->
    Forall (fun part => part <> "") (splitPath_loop parts current escaped path).
Proof.
  induction path as [|ch path IH]; intros parts current escaped Hparts.
  - simpl. destruct current; [exact Hparts|].
    apply Forall_app. split; [exact Hparts|]. constructor; [discriminate|constructor].
  - simpl. destruct escaped; [apply IH; exact Hparts|].
    destruct (Ascii.eqb ch BACKSLASH); [apply IH; exact Hparts|].
    destruct (Ascii.eqb ch ".").
    + destruct current; apply IH; [exact Hparts|].
      apply Forall_app. split; [exact Hparts|]. constructor; [discriminate|constructor].
    + apply IH; exact Hparts.
Qed.

(** X2. [splitPath] returns no empty part: leading, trailing and
    repeated dots add nothing to the list. *)
Theorem splitPath_nonempty (path : string) :
  Forall (fun part => part <> "") (splitPath path).
Proof.
  unfold splitPath. destruct (String.eqb path ""); [constructor|].
  apply splitPath_loop_nonempty. constructor.
Qed.

Lemma flush_map (parts : list string) (current : string) :
  flush parseComponent (map parseComponent parts) current
  = map parseComponent (match current with
                        | EmptyString => parts
                        | _ => parts ++ [current]
                        end)%list.
Proof.
  destruct current; [reflexivity|].
  unfold flush. rewrite map_app. reflexivity.
Qed.

Lemma parsePath_loop_splitPath (depth : Z) (path : string) :
  forall (parts : list string) (current : string) (escaped : bool),
    operatorFree escaped path = true ->
    parsePath_loop (map parseComponent parts) current false depth escaped path
    = map parseComponent (splitPath_loop parts current escaped path).
Proof.
  induction path as [|ch path IH]; intros parts current escaped Hfree.
  - simpl. apply flush_map.
  - simpl in Hfree. simpl.
    destruct escaped; [apply IH; exact Hfree|].
    destruct (Ascii.eqb ch BACKSLASH); [apply IH; exact Hfree|].
    destruct (Ascii.eqb ch "#") eqn:Ehash; [discriminate|].
    destruct (Ascii.eqb ch "|") eqn:Epipe; [discriminate|].
    simpl.
    destruct (Ascii.eqb ch ".").
    + rewrite flush_map. destruct current; apply IH; exact Hfree.
    + apply IH; exact Hfree.
Qed.

(** X3. The two tokenizers agree away from [#] and [|]: on a path with
    no unescaped [#] or [|], [parsePath] gives one component for each
    part of [splitPath], in order, each made by [parseComponent]. *)
Theorem parsePath_splitPath (path : string) :
  operatorFree false path = true ->
  parsePath path = map parseComponent (splitPath path).
Proof.
  intros Hfree. unfold parsePath, splitPath.
  destruct path as [|c path]; [reflexivity|].
  change (String.eqb (String c path) "") with false. cbv iota.
  apply (parsePath_loop_splitPath 0 (String c path) [] "" false Hfree).
Qed.

(** ** Patterns without wildcards *)

Lemma deepMatch_literal (pattern : string) :
  forall str : string,
    literal pattern = true -> deepMatch str pattern = String.eqb str pattern.
Proof.
  unfold literal.
  induction pattern as [|p pattern IH]; intros str Hlit.
  - destruct str; reflexivity.
  - apply negb_true_iff in Hlit. cbn [strings.ContainsAny strings.mem] in Hlit.
    apply orb_false_iff in Hlit as [Hp Hrest].
    apply orb_false_iff in Hp as [Hstar Hp].
    apply orb_false_iff in Hp as [Hq _].
    simpl deepMatch. rewrite Hstar, Hq.
    destruct str as [|c str]; [reflexivity|].
    simpl String.eqb.
    destruct (Ascii.eqb c p); [|reflexivity].
    apply IH. apply negb_true_iff. exact Hrest.
Qed.

(** X4. A pattern with neither [*] nor [?] matches one text only,
    itself. *)
Theorem matchPattern_literal (str pattern : string) :
  literal pattern = true ->
  (matchPattern str pattern = true <-> str = pattern).
Proof.
  intros Hlit. unfold matchPattern, wildcard.
  rewrite (deepMatch_literal pattern str Hlit). apply String.eqb_eq.
Qed.

Lemma deepMatch_star_only (str : string) : deepMatch str "*" = true.
Proof. destruct str; reflexivity. Qed.

Lemma deepMatch_literal_star (pattern : string) :
  forall str : string,
    literal pattern = true ->
    deepMatch str (pattern ++ "*") = strings.HasPrefix str pattern.
Proof.
  unfold literal.
  induction pattern as [|p pattern IH]; intros str Hlit.
  - simpl append. rewrite deepMatch_star_only. destruct str; reflexivity.
  - apply negb_true_iff in Hlit. cbn [strings.ContainsAny strings.mem] in Hlit.
    apply orb_false_iff in Hlit as [Hp Hrest].
    apply orb_false_iff in Hp as [Hstar Hp].
    apply orb_false_iff in Hp as [Hq _].
    rewrite HasPrefix_cons.
    cbn [append]. simpl deepMatch. rewrite Hstar, Hq.
    destruct str as [|c str]; [reflexivity|].
    destruct (Ascii.eqb c p); [|reflexivity].
    apply IH. apply negb_true_iff. exact Hrest.
Qed.

(** X5. A pattern made of a text without [*] or [?] and a final [*]
    matches exactly the texts that start with it. *)
Theorem matchPattern_prefix (str pattern : string) :
  literal pattern = true ->
  matchPattern str (pattern ++ "*") = strings.HasPrefix str pattern.
Proof. intros Hlit. apply deepMatch_literal_star. exact Hlit. Qed.

(** ** What [extractValue] returns *)

(** X6. Whenever [extractValue] returns, it declines exactly the texts
    that trim to nothing, and an accepted text is kept, trimmed, as the
    [Raw] of the result, quotes included, with no source offset. *)
Theorem extractValue_raw (H : Host) (value : string) (r : Result) (ok : bool) :
  extractValue H value = Ret (r, ok) ->
  (ok = false <-> strings.TrimSpace value = "")
  /\ (ok = true -> Raw r = strings.TrimSpace value /\ Index r = 0 /\ Indexes r = []).
Proof.
  unfold extractValue. set (v := strings.TrimSpace value). clearbody v.
  destruct (String.eqb_spec v "") as [->|Hne].
  - intros [= <- <-]. split; [split; reflexivity | discriminate].
  - unfold bind.
    repeat match goal with
           | |- context [if ?b then _ else _] => destruct b
           | |- context [let '(_, _) := ?p in _] => destruct p
           | |- context [match slice ?s ?a ?b with _ => _ end] => destruct (slice s a b)
           end;
      intros E; try discriminate E; injection E as <- <-;
      (split; [split; [discriminate | congruence] | intros _; repeat split]).
Qed.

(** ** Projections *)

Lemma collect_length (H : Host) (f : value -> Result) (items : list value) :
  (List.length (collect H f items) <= List.length items)%nat.
Proof.
  unfold collect. induction items as [|item items IH]; [simpl; lia|].
  simpl. rewrite length_app. destruct (Exists (f item)); simpl; lia.
Qed.

Lemma collect_filter (H : Host) (f : value -> Result) (items : list value) :
  collect H f items = map (Value H) (filter Exists (map f items)).
Proof.
  unfold collect. induction items as [|item items IH]; [reflexivity|].
  simpl. rewrite IH. destruct (Exists (f item)); reflexivity.
Qed.

(** X7. A [#] followed by more components maps the rest of the path
    over a sequence and keeps the results that exist, in order, so the
    answer never has more elements than the sequence; on anything but a
    sequence the answer is the zero result. *)
Theorem traversePath_projection (H : Host) (modifiers : registry)
  (part : pathComponent) (rest : list pathComponent) (origYAML : string) :
  (forall items : list value,
      let results :=
        map (Value H)
            (filter Exists
                    (map (fun item =>
                            traversePath H modifiers item (part :: rest) origYAML)
                         items)) in
      traversePath H modifiers (VSeq items) (countComponent :: part :: rest) origYAML
      = valueToResult H (VSeq results)
      /\ (List.length results <= List.length items)%nat)
  /\ (forall data : value,
         (forall items, data <> VSeq items) ->
         traversePath H modifiers data (countComponent :: part :: rest) origYAML
         = Result_zero).
Proof.
  split.
  - intros items results. subst results. rewrite <- collect_filter.
    split; [reflexivity | apply collect_length].
  - intros data Hscalar. rewrite traversePath_cons.
    destruct data; try reflexivity. destruct (Hscalar items eq_refl).
Qed.

(** ** Flattening *)





(** ** Queries *)

Lemma Index_absent (op : string) (s : string) :
  strings.Contains s op = false -> strings.Index s op = -1.
Proof.
  induction s as [|c s IH]; simpl; intros Hc.
  - apply orb_false_iff in Hc as [Hp _]. rewrite Hp. reflexivity.
  - apply orb_false_iff in Hc as [Hp Hc]. rewrite Hp. rewrite (IH Hc). reflexivity.
Qed.

Lemma findOperator_absent (query : string) (ops : list string) :
  existsb (strings.Contains query) ops = false -> findOperator query ops = None.
Proof.
  induction ops as [|op ops IH]; [reflexivity|].
  simpl. intros Hex. apply orb_false_iff in Hex as [Hop Hex].
  rewrite (Index_absent op query Hop). simpl. apply IH. exact Hex.
Qed.

(** X9. A query that contains none of the comparison operators selects
    nothing: there is no test for the mere presence of a key. *)
Theorem evaluateQuery_no_operator (H : Host) (item : value) (query : string) :
  existsb (strings.Contains query) operators = false ->
  evaluateQuery H item query = false.
Proof.
  intros Hex. unfold evaluateQuery.
  rewrite (findOperator_absent query operators Hex). reflexivity.
Qed.

Lemma len_cons (c : ascii) (s : string) : len (String c s) = len s + 1.
Proof. unfold len. cbn [String.length]. lia. Qed.

Lemma len_nonneg (s : string) : 0 <= len s.
Proof. unfold len. lia. Qed.

Lemma len_to_nat (s : string) : Z.to_nat (len s) = String.length s.
Proof. unfold len. apply Nat2Z.id. Qed.

Lemma len_append (a b : string) : len (a ++ b) = len a + len b.
Proof.
  induction a as [|c a IH]; cbn [append].
  - change (len "") with 0. lia.
  - rewrite !len_cons, IH. lia.
Qed.

Lemma Index_after (k rest : string) (c : ascii) (op' : string) :
  strings.mem c k = false ->
  strings.HasPrefix rest (String c op') = true ->
  strings.Index (k ++ rest) (String c op') = len k.
Proof.
  intros Hk Hrest. induction k as [|b k IH].
  - cbn [append]. change (len "") with 0.
    destruct rest; cbn [strings.Index]; rewrite Hrest; reflexivity.
  - cbn [strings.mem] in Hk. apply orb_false_iff in Hk as [Hb Hk].
    cbn [append strings.Index]. rewrite HasPrefix_cons.
    rewrite Ascii.eqb_sym in Hb. rewrite Hb. cbn [andb].
    rewrite (IH Hk). rewrite len_cons.
    pose proof (len_nonneg k) as Hn.
    destruct (len k <? 0) eqn:E; [apply Z.ltb_lt in E; lia | reflexivity].
Qed.

Lemma substring_prefix (k rest : string) :
  String.substring 0 (String.length k) (k ++ rest) = k.
Proof.
  induction k as [|c k IH]; [destruct rest; reflexivity|].
  simpl. rewrite IH. reflexivity.
Qed.

Lemma drop_append (k rest : string) :
  drop (String.length k) (k ++ rest) = rest.
Proof. induction k as [|c k IH]; [reflexivity | exact IH]. Qed.

Lemma drop_drop (n m : nat) (s : string) : drop n (drop m s) = drop (m + n) s.
Proof.
  revert s. induction m as [|m IH]; intros s; [reflexivity|].
  destruct s as [|c s]; [destruct n; reflexivity|]. simpl. apply IH.
Qed.

(** X10. The query [k==v], with no [=] in [k], compares texts: the
    printed form of the field [k] of the item (of the item itself when
    [k] is blank) with [v], trimmed and stripped of its quotes. *)
Theorem evaluateQuery_equals (H : Host) (item : value) (k v : string) :
  strings.mem "=" k = false ->
  evaluateQuery H item (k ++ "==" ++ v)
  = String.eqb
      (Sprint H (if String.eqb (strings.TrimSpace k) "" then item
                 else getValueByKey item (strings.TrimSpace k)))
      (strings.Trim (strings.TrimSpace v) (String DQUOTE (String SQUOTE ""))).
Proof.
  intros Hk. unfold evaluateQuery, operators. cbn [findOperator].
  assert (Hop : strings.HasPrefix ("==" ++ v) "==" = true)
    by (destruct v; reflexivity).
  rewrite (Index_after k ("==" ++ v) "=" "=" Hk Hop).
  pose proof (len_nonneg k) as Hn.
  assert (E : negb (len k =? -1) = true).
  { apply negb_true_iff. apply Z.eqb_neq. lia. }
  rewrite E. cbv iota.
  rewrite len_to_nat, substring_prefix.
  replace (Z.to_nat (len k + len "==")) with (String.length k + 2)%nat
    by (unfold len; simpl String.length; lia).
  rewrite <- drop_drop, drop_append.
  reflexivity.
Qed.

(** ** Ordering of results *)

Lemma allBytes_complete (c : ascii) : In c allBytes.
Proof.
  unfold allBytes. rewrite <- (ascii_nat_embedding c).
  apply in_map. apply in_seq. pose proof (nat_ascii_bounded c). lia.
Qed.

Lemma foldStep_table :
  forallb (fun x =>
             forallb (fun y =>
                        Bool.eqb (foldStep x y true) (foldCompare x y true)
                        && Bool.eqb (foldStep x y false) (foldCompare x y false))
                     allBytes)
          allBytes = true.
Proof. vm_compute. reflexivity. Qed.

Lemma foldStep_compare (x y : ascii) (next : bool) :
  foldStep x y next = foldCompare x y next.
Proof.
  pose proof foldStep_table as Htable.
  rewrite forallb_forall in Htable.
  specialize (Htable x (allBytes_complete x)).
  rewrite forallb_forall in Htable.
  specialize (Htable y (allBytes_complete y)).
  apply andb_true_iff in Htable as [Ht Hf].
  destruct next; apply Bool.eqb_prop; assumption.
Qed.

(** X11. [stringLessInsensitive] is the byte-wise order of the two
    texts once their ASCII capitals are lowered. *)
Theorem stringLessInsensitive_folds (a : string) :
  forall b : string,
    stringLessInsensitive a b
    = String.ltb (strings.ToLower a) (strings.ToLower b).
Proof.
  induction a as [|x a IH]; intros b.
  - destruct b; reflexivity.
  - destruct b as [|y b]; [reflexivity|].
    change (stringLessInsensitive (String x a) (String y b))
      with (foldStep x y (stringLessInsensitive a b)).
    rewrite foldStep_compare, IH. unfold foldCompare, String.ltb.
    cbn [strings.ToLower String.compare].
    destruct (Ascii.compare (strings.lowerByte x) (strings.lowerByte y)); reflexivity.
Qed.

(** ** Source offsets *)

Section Offsets.

Variable H : Host.
Variable modifiers : registry.

Lemma unindexed_valueToResult (val : value) : unindexed (valueToResult H val).
Proof. destruct val as [|[]| | | | |]; split; reflexivity. Qed.

Lemma unindexed_applyModifier_fuel (fuel : nat) :
  forall (data : value) (path yamlStr : string),
    unindexed (applyModifier_fuel H modifiers fuel data path yamlStr).
Proof.
  induction fuel as [|fuel IH]; intros data path yamlStr; simpl;
    repeat match goal with
           | |- unindexed (valueToResult _ _) => apply unindexed_valueToResult
           | |- unindexed (applyModifier_fuel _ _ _ _ _ _) => apply IH
           | |- context [if ?b then _ else _] => destruct b
           | |- context [match modifiers ?n with _ => _ end] => destruct (modifiers n)
           end.
Qed.

Lemma unindexed_traversePath (parts : list pathComponent) :
  forall (data : value) (origYAML : string),
    unindexed (traversePath H modifiers data parts origYAML).
Proof.
  induction parts as [|part rest IH]; intros data origYAML.
  - apply unindexed_valueToResult.
  - rewrite traversePath_cons. cbv zeta.
    repeat match goal with
           | |- unindexed (valueToResult _ _) => apply unindexed_valueToResult
           | |- unindexed (applyModifier _ _ _ _ _) => apply unindexed_applyModifier_fuel
           | |- unindexed (traversePath _ _ _ _ _) => apply IH
           | |- unindexed Result_zero => split; reflexivity
           | |- unindexed (countResult _) => split; reflexivity
           | |- context [if ?b then _ else _] => destruct b
           | |- context [match step ?p ?d with _ => _ end] => destruct (step p d)
           | |- context [match handleQuery ?h ?d ?p ?r with _ => _ end] =>
               destruct (handleQuery h d p r)
           | |- context [match ?l with [] => _ | _ :: _ => _ end] => destruct l
           | |- context [match ?d with VNil => _ | _ => _ end] => destruct d
           end.
Qed.

Lemma unindexed_getFromPath (data : value) (path origYAML : string) :
  unindexed (getFromPath H modifiers data path origYAML).
Proof.
  unfold getFromPath.
  destruct (_ || _); [apply unindexed_valueToResult|].
  destruct (firstByteIs path "@"); [apply unindexed_applyModifier_fuel|].
  destruct (parsePath path); [apply unindexed_valueToResult|].
  apply unindexed_traversePath.
Qed.

Lemma fastUnindexed_declined : fastUnindexed (Ret (Result_zero, false)).
Proof. intros r ok [= <- <-]. split; reflexivity. Qed.

Lemma fastUnindexed_extractValue (value : string) :
  fastUnindexed (extractValue H value).
Proof.
  unfold fastUnindexed, extractValue, bind.
  repeat match goal with
         | |- context [if ?b then _ else _] => destruct b
         | |- context [let '(_, _) := ?p in _] => destruct p
         | |- context [match slice ?s ?a ?b with _ => _ end] => destruct (slice s a b)
         end;
    intros r ok E; try discriminate E; injection E as <- <-; split; reflexivity.
Qed.

Lemma fastUnindexed_fastParseKey_loop (next : string -> outcome (Result * bool))
  (final : bool) (targetIndent : Z) (keyWithColon : string) (lines : list string) :
  (forall yaml, fastUnindexed (next yaml)) ->
  fastUnindexed (fastParseKey_loop H next final targetIndent keyWithColon lines).
Proof.
  intros Hnext. induction lines as [|line below IH]; [apply fastUnindexed_declined|].
  cbn [fastParseKey_loop]. cbv zeta.
  repeat match goal with
         | |- fastUnindexed (Ret (Result_zero, false)) => apply fastUnindexed_declined
         | |- fastUnindexed (extractValue _ _) => apply fastUnindexed_extractValue
         | |- fastUnindexed (next _) => apply Hnext
         | |- fastUnindexed (fastParseKey_loop _ _ _ _ _ _) => exact IH
         | |- context [if ?b then _ else _] => destruct b
         | |- context [match linesBelow ?k ?i ?n ?l with _ => _ end] =>
             destruct (linesBelow k i n l)
         end.
Qed.

Lemma fastUnindexed_fastParsePath (parts : list string) :
  forall yaml : string, fastUnindexed (fastParsePath H yaml parts).
Proof.
  induction parts as [|currentKey rest IH]; intros yaml.
  - apply fastUnindexed_extractValue.
  - cbn [fastParsePath]. cbv zeta.
    destruct (strconv.Atoi currentKey) as [idx|].
    + unfold fastParseArrayIndex.
      repeat match goal with
             | |- fastUnindexed (Ret (Result_zero, false)) => apply fastUnindexed_declined
             | |- fastUnindexed (extractValue _ _) => apply fastUnindexed_extractValue
             | |- fastUnindexed (fastParsePath _ _ _) => apply IH
             | |- context [if ?b then _ else _] => destruct b
             | |- context [match ?l with [] => _ | _ :: _ => _ end] => destruct l
             end.
    + destruct (String.eqb currentKey "#").
      * destruct (negb _); [apply fastUnindexed_declined|].
        intros r ok [= <- <-]. split; reflexivity.
      * unfold fastParseKey. apply fastUnindexed_fastParseKey_loop.
        intros yaml'. apply IH.
Qed.

Lemma fastUnindexed_fastGet (yaml path : string) :
  fastUnindexed (fastGet H yaml path).
Proof.
  unfold fastGet.
  destruct (len path =? 0); [intros r ok [= <- <-]; split; reflexivity|].
  destruct (splitPath path) as [|part parts]; [apply fastUnindexed_declined|].
  destruct (hasComplexFeatures path); [apply fastUnindexed_declined|].
  pose proof (fastUnindexed_fastParsePath (part :: parts) yaml) as Hfast.
  destruct (fastParsePath H yaml (part :: parts)) as [[result ok']|]; simpl.
  - destruct ok'; simpl; [|apply fastUnindexed_declined].
    destruct (_ || _); [apply fastUnindexed_declined|].
    intros r ok [= <- <-]. exact (Hfast result true eq_refl).
  - intros r ok E. discriminate E.
Qed.

Lemma unindexed_Get (yaml path : string) (r : Result) :
  Get H modifiers yaml path = Ret r -> unindexed r.
Proof.
  unfold Get.
  destruct (hasLinesPrefix path).
  { intros [= <-]. apply unindexed_getFromPath. }
  destruct (len path =? 0).
  { intros [= <-]. split; reflexivity. }
  cbv zeta.
  pose proof (fastUnindexed_fastGet yaml (stripDot path)) as Hfast.
  destruct (fastGet H yaml (stripDot path)) as [[result ok]|]; simpl; [|discriminate].
  destruct ok; intros [= <-].
  - exact (Hfast result true eq_refl).
  - unfold slowGet. destruct (Unmarshal H yaml).
    + apply unindexed_getFromPath.
    + split; reflexivity.
Qed.

End Offsets.

(** X12. [Get] never reports where in the document it found its
    answer: whenever it returns, [Index] is 0 and [Indexes] is empty. *)
Theorem Get_reports_no_offset (H : Host) (modifiers : registry)
  (yaml path : string) (r : Result) :
  Get H modifiers yaml path = Ret r -> Index r = 0 /\ Indexes r = [].
Proof. apply unindexed_Get. Qed.

Lemma int_add_zero (n : Z) : - 2 ^ 63 <= n < 2 ^ 63 -> int_add 0 n = n.
Proof.
  intros Hn. unfold int_add. rewrite Z.mod_small; lia.
Qed.

(** X13. [Result.Get] answers as [Get] does on the [Raw] of the result,
    with the [Index] of that result copied into the answer. *)
Theorem Result_Get_offset (H : Host) (modifiers : registry)
  (t : Result) (path : string) (r : Result) :
  - 2 ^ 63 <= Index t < 2 ^ 63 ->
  Get H modifiers (Raw t) path = Ret r ->
  Result_Get H modifiers t path
  = Ret (mkResult (Type' r) (Raw r) (Str r) (Num r) (Index t) []).
Proof.
  intros Hrange Hget. unfold Result_Get. rewrite Hget. simpl.
  destruct (unindexed_Get H modifiers (Raw t) path r Hget) as [Hi Hx].
  rewrite Hx, Hi, (int_add_zero (Index t) Hrange). reflexivity.
Qed.

(** ** Printing a result *)

Lemma allDigits_uint (d : Decimal.uint) :
  allDigits (NilEmpty.string_of_uint d) = true.
Proof. induction d; simpl; try reflexivity; exact IHd. Qed.

Lemma allDigits_first (c : ascii) (s : string) :
  allDigits (String c s) = true -> Ascii.eqb c "-" = false.
Proof.
  cbn [allDigits]. intros Hd. apply andb_true_iff in Hd as [Hc _].
  apply andb_true_iff in Hc as [Hlo _].
  apply Ascii.eqb_neq. intros ->. vm_compute in Hlo. discriminate Hlo.
Qed.

Lemma Result_String_integer (H : Host) (n : Z) (num : float64) :
  Result_String H (mkResult Number (strconv.Itoa n) "" num 0 []) = strconv.Itoa n.
Proof.
  unfold Result_String, strconv.Itoa. cbn [Type' Raw Num].
  destruct n as [|p|p]; cbn [Z.to_int NilEmpty.string_of_int].
  - reflexivity.
  - pose proof (allDigits_uint (Pos.to_uint p)) as Hd.
    pose proof (DecimalPos.Unsigned.to_uint_nonnil p) as Hnn.
    destruct (NilEmpty.string_of_uint (Pos.to_uint p)) as [|c s] eqn:E.
    + destruct (Pos.to_uint p); try discriminate E. congruence.
    + rewrite (allDigits_first c s Hd), Hd. reflexivity.
  - change (Ascii.eqb "-" "-") with true. cbv iota.
    rewrite allDigits_uint. reflexivity.
Qed.

(** X14. The text of a result the traversal engine built is its [Raw];
    for an integer of the document, and for a count, that is its decimal
    numeral. *)
Theorem Result_String_tree (H : Host) (val : value) (n : Z) :
  Result_String H (valueToResult H val) = Raw (valueToResult H val)
  /\ Result_String H (valueToResult H (VInt n)) = strconv.Itoa n
  /\ Result_String H (countResult n) = strconv.Itoa n.
Proof.
  split; [|split; apply Result_String_integer].
  destruct val as [|[]|v|f|s|items|entries]; try reflexivity.
  - apply Result_String_integer.
  - unfold Result_String. cbn [valueToResult Type' Raw Num].
    destruct (FormatFloat H f) as [|c s]; [reflexivity|].
    destruct (allDigits _); reflexivity.
Qed.

(** ** Several paths at once *)

Lemma GetMany_loop_panics (H : Host) (modifiers : registry) (yaml : string)
  (paths : list string) :
  forall first : bool,
    GetMany_loop H modifiers yaml first paths = Panic ->
    exists path, In path paths /\ Get H modifiers yaml path = Panic.
Proof.
  induction paths as [|path paths IH]; intros first; [discriminate|].
  cbn [GetMany_loop]. unfold bind.
  destruct (Get H modifiers yaml path) as [val|] eqn:Eget.
  - destruct (GetMany_loop H modifiers yaml false paths) eqn:Eloop; [discriminate|].
    intros _. destruct (IH false Eloop) as (p & Hin & Hp).
    exists p. split; [right; exact Hin | exact Hp].
  - intros _. exists path. split; [left; reflexivity | exact Eget].
Qed.

Lemma GetMany_loop_raws (H : Host) (modifiers : registry) (yaml : string)
  (paths : list string) :
  forall (first : bool) (data : string),
    GetMany_loop H modifiers yaml first paths = Ret data ->
    exists vals : list Result,
      Forall2 (fun path val => Get H modifiers yaml path = Ret val) paths vals
      /\ data = (if first then "" else match paths with [] => "" | _ => "," end)
                ++ String.concat "," (map Raw vals).
Proof.
  induction paths as [|path paths IH]; intros first data.
  - intros [= <-]. exists []. split; [constructor|]. destruct first; reflexivity.
  - cbn [GetMany_loop]. unfold bind.
    destruct (Get H modifiers yaml path) as [val|] eqn:Eget; [|discriminate].
    destruct (GetMany_loop H modifiers yaml false paths) as [rest|] eqn:Eloop;
      [|discriminate].
    intros [= <-].
    destruct (IH false rest Eloop) as (vals & Hall & ->).
    exists (val :: vals). split; [constructor; assumption|].
    destruct paths as [|p paths].
    + inversion Hall; subst. cbn [map String.concat].
      rewrite !append_empty_r. reflexivity.
    + inversion Hall as [|? v ? vals' ? ? ]; subst.
      cbn [map String.concat]. destruct first; reflexivity.
Qed.

(** X15. [GetMany] returns a result of type [YAML] that reads as an
    array: the [Raw] of the answers of [Get] to the paths, in order,
    separated by commas between brackets.  It panics only if [Get]
    panics on one of the paths. *)
Theorem GetMany_array (H : Host) (modifiers : registry) (yaml : string)
  (paths : list string) :
  match GetMany H modifiers yaml paths with
  | Ret r =>
      Type' r = YAML /\ IsArray r = true /\ Exists r = true
      /\ exists vals : list Result,
           Forall2 (fun path val => Get H modifiers yaml path = Ret val) paths vals
           /\ Raw r = "[" ++ String.concat "," (map Raw vals) ++ "]"
  | Panic => exists path, In path paths /\ Get H modifiers yaml path = Panic
  end.
Proof.
  unfold GetMany, bind.
  destruct (GetMany_loop H modifiers yaml true paths) as [data|] eqn:Eloop.
  - repeat split.
    destruct (GetMany_loop_raws H modifiers yaml paths true data Eloop)
      as (vals & Hall & ->).
    exists vals. split; [exact Hall | reflexivity].
  - apply (GetMany_loop_panics H modifiers yaml paths true Eloop).
Qed.

(** ** Modifiers *)

Lemma HasPrefix_empty (s : string) : strings.HasPrefix s "" = true.
Proof. destruct s; reflexivity. Qed.

Lemma Index_nonneg_or_none (s op : string) :
  strings.Index s op = -1 \/ 0 <= strings.Index s op <= len s.
Proof.
  induction s as [|c s IH]; cbn [strings.Index].
  - destruct (strings.HasPrefix "" op); [right; change (len "") with 0; lia | left; reflexivity].
  - rewrite len_cons. pose proof (len_nonneg s).
    destruct (strings.HasPrefix (String c s) op); [right; lia|].
    destruct IH as [-> | IH]; [left; reflexivity|].
    destruct (strings.Index s op <? 0) eqn:E; [left; reflexivity | right; lia].
Qed.

(** Searching one byte past a text that does not hold it. *)
Lemma Index_skip (k rest : string) (c : ascii) :
  strings.mem c k = false ->
  strings.Index (k ++ rest) (String c "")
  = if strings.Index rest (String c "") =? -1 then -1
    else len k + strings.Index rest (String c "").
Proof.
  intros Hk. induction k as [|b k IH].
  - cbn [append]. change (len "") with 0.
    destruct (strings.Index rest (String c "") =? -1) eqn:E.
    + apply Z.eqb_eq in E. exact E.
    + lia.
  - cbn [strings.mem] in Hk. apply orb_false_iff in Hk as [Hb Hk].
    cbn [append strings.Index]. rewrite HasPrefix_cons.
    rewrite Ascii.eqb_sym in Hb. rewrite Hb. cbn [andb].
    rewrite (IH Hk). rewrite len_cons.
    destruct (Index_nonneg_or_none rest (String c "")) as [E | E].
    + rewrite E. reflexivity.
    + pose proof (len_nonneg k).
      destruct (strings.Index rest (String c "") =? -1) eqn:E1.
      * apply Z.eqb_eq in E1. lia.
      * destruct (len k + strings.Index rest (String c "") <? 0) eqn:E2.
        -- apply Z.ltb_lt in E2. lia.
        -- lia.
Qed.

Lemma substring_append (k rest : string) (n : nat) :
  String.substring 0 (String.length k + n) (k ++ rest)
  = k ++ String.substring 0 n rest.
Proof.
  induction k as [|c k IH]; [reflexivity|].
  simpl. rewrite IH. reflexivity.
Qed.

Lemma length_append (a b : string) :
  String.length (a ++ b) = (String.length a + String.length b)%nat.
Proof. induction a as [|c a IH]; simpl; [reflexivity | now rewrite IH]. Qed.

Section Modifiers.

Variable H : Host.
Variable modifiers : registry.

(** A modifier alone, with or without an argument. *)
Lemma applyModifier_single (data : value) (name : string) (tail yamlStr : string)
  (arg : string) :
  strings.mem ":" name = false -> strings.mem "|" name = false ->
  (tail = "" /\ arg = "") \/ tail = String ":" arg ->
  applyModifier H modifiers data ("@" ++ name ++ tail) yamlStr
  = match modifiers name with
    | Some fn => valueToResult H (unmarshalOrNil H (fn yamlStr arg))
    | None => valueToResult H data
    end.
Proof.
  intros Hcolon Hpipe Htail.
  assert (Hnopipe : strings.Index name "|" = -1).
  { rewrite <- (append_empty_r name). rewrite (Index_skip name "" "|" Hpipe). reflexivity. }
  unfold applyModifier.
  change (String.length ("@" ++ name ++ tail)) with (S (String.length (name ++ tail))).
  cbn [applyModifier_fuel].
  change (strings.HasPrefix ("@" ++ name ++ tail) "@") with
    (strings.HasPrefix (String "@" (name ++ tail)) "@").
  rewrite HasPrefix_cons, HasPrefix_empty. cbn [Ascii.eqb Bool.eqb andb negb].
  cbv iota.
  assert (Hidx : strings.Index ("@" ++ name ++ tail) ":"
                 = if strings.Index tail ":" =? -1 then -1
                   else 1 + len name + strings.Index tail ":").
  { change (strings.Index (String "@" name ++ tail) ":"
            = if strings.Index tail ":" =? -1 then -1
              else 1 + len name + strings.Index tail ":").
    rewrite (Index_skip (String "@" name) tail ":").
    - rewrite len_cons. destruct (_ =? _); [reflexivity | lia].
    - cbn [strings.mem]. exact Hcolon. }
  rewrite Hidx. clear Hidx.
  destruct Htail as [[-> ->] | ->].
  - change (strings.Index "" ":" =? -1) with true. cbv iota.
    change (negb (-1 =? -1)) with false. cbv iota zeta.
    rewrite append_empty_r. cbn [append drop].
    rewrite Hnopipe. reflexivity.
  - assert (E : strings.Index (String ":" arg) ":" = 0).
    { cbn [strings.Index]. rewrite HasPrefix_cons, HasPrefix_empty. reflexivity. }
    rewrite E. cbn [Z.eqb]. cbv iota.
    pose proof (len_nonneg name).
    replace (negb (1 + len name + 0 =? -1)) with true
      by (symmetry; apply negb_true_iff, Z.eqb_neq; lia).
    cbv iota zeta.
    replace (Z.to_nat (1 + len name + 0 - 1)) with (String.length name + 0)%nat
      by (unfold len; lia).
    change (String.substring 1 (String.length name + 0) ("@" ++ name ++ String ":" arg))
      with (String.substring 0 (String.length name + 0) (name ++ String ":" arg)).
    rewrite substring_append. cbn [String.substring]. rewrite append_empty_r.
    rewrite Hnopipe. cbn [Z.eqb negb]. cbv iota.
    replace (Z.to_nat (1 + len name + 0 + 1)) with (S (String.length name + 1))%nat
      by (unfold len; lia).
    change (drop (S (String.length name + 1)) ("@" ++ name ++ String ":" arg))
      with (drop (String.length name + 1) (name ++ String ":" arg)).
    rewrite <- drop_drop, drop_append. reflexivity.
Qed.

Lemma mem_append (c : ascii) (a b : string) :
  strings.mem c (a ++ b) = strings.mem c a || strings.mem c b.
Proof.
  induction a as [|x a IH]; [reflexivity|].
  cbn [append strings.mem]. rewrite IH. apply orb_assoc.
Qed.

Lemma length_beforeColon (rest : string) :
  (String.length (beforeColon rest) <= String.length rest)%nat.
Proof.
  unfold beforeColon. destruct (_ =? _); [lia | apply length_substring].
Qed.

(** A modifier followed by a pipe. *)
Lemma applyModifier_piped (data : value) (name rest yamlStr : string) :
  strings.mem ":" name = false -> strings.mem "|" name = false ->
  applyModifier H modifiers data (String "@" ((name ++ "|") ++ rest)) yamlStr
  = match modifiers name with
    | Some fn =>
        applyModifier H modifiers data (beforeColon rest)
                      (fn yamlStr (afterColon rest))
    | None => valueToResult H data
    end.
Proof.
  intros Hcolon Hpipe.
  unfold applyModifier.
  change (String.length (String "@" ((name ++ "|") ++ rest)))
    with (S (String.length ((name ++ "|") ++ rest))).
  cbn [applyModifier_fuel].
  rewrite HasPrefix_cons, HasPrefix_empty. cbn [Ascii.eqb Bool.eqb andb negb].
  cbv iota.
  assert (Hk : strings.mem ":" (String "@" (name ++ "|")) = false).
  { cbn [strings.mem]. rewrite mem_append, Hcolon. reflexivity. }
  change (String "@" ((name ++ "|") ++ rest))
    with (String "@" (name ++ "|") ++ rest).
  rewrite (Index_skip (String "@" (name ++ "|")) rest ":" Hk).
  rewrite len_cons, len_append. change (len "|") with 1.
  pose proof (len_nonneg name) as Hn.
  assert (Hmod :
    (if negb ((if strings.Index rest ":" =? -1 then -1
               else len name + 1 + 1 + strings.Index rest ":") =? -1)
     then (String.substring 1
             (Z.to_nat ((if strings.Index rest ":" =? -1 then -1
                         else len name + 1 + 1 + strings.Index rest ":") - 1))
             (String "@" (name ++ "|") ++ rest),
           drop (Z.to_nat ((if strings.Index rest ":" =? -1 then -1
                            else len name + 1 + 1 + strings.Index rest ":") + 1))
                (String "@" (name ++ "|") ++ rest))
     else (drop 1 (String "@" (name ++ "|") ++ rest), ""))
    = ((name ++ "|") ++ beforeColon rest, afterColon rest)).
  { unfold beforeColon, afterColon.
    destruct (Index_nonneg_or_none rest ":") as [E | E].
    - rewrite E. reflexivity.
    - destruct (strings.Index rest ":" =? -1) eqn:E1; [apply Z.eqb_eq in E1; lia|].
      replace (negb (len name + 1 + 1 + strings.Index rest ":" =? -1)) with true
        by (symmetry; apply negb_true_iff, Z.eqb_neq; lia).
      f_equal.
      + replace (Z.to_nat (len name + 1 + 1 + strings.Index rest ":" - 1))
          with (String.length (name ++ "|") + Z.to_nat (strings.Index rest ":"))%nat
          by (rewrite length_append; unfold len; simpl String.length; lia).
        change (String.substring 1 ?n (String "@" (name ++ "|") ++ rest))
          with (String.substring 0 n ((name ++ "|") ++ rest)).
        apply substring_append.
      + replace (Z.to_nat (len name + 1 + 1 + strings.Index rest ":" + 1))
          with (S (String.length (name ++ "|")
                   + Z.to_nat (strings.Index rest ":" + 1)))%nat
          by (rewrite length_append; unfold len; simpl String.length; lia).
        change (drop (S ?n) (String "@" (name ++ "|") ++ rest))
          with (drop n ((name ++ "|") ++ rest)).
        rewrite <- drop_drop, drop_append. reflexivity. }
  rewrite Hmod. clear Hmod. cbv iota zeta beta.
  rewrite append_assoc.
  rewrite (Index_after name ("|" ++ beforeColon rest) "|" "" Hpipe)
    by (cbn [append]; rewrite HasPrefix_cons, HasPrefix_empty; reflexivity).
  replace (negb (len name =? -1)) with true
    by (symmetry; apply negb_true_iff, Z.eqb_neq; lia).
  cbv iota. rewrite len_to_nat, substring_prefix, drop_append.
  cbn [append drop].
  destruct (modifiers name) as [fn|]; [|reflexivity].
  apply applyModifier_fuel_enough.
  - pose proof (length_beforeColon rest). rewrite !length_append. lia.
  - lia.
Qed.

End Modifiers.

(** X16. A single modifier [@name] or [@name:arg] runs the registered
    function on the text of the document and parses its output, [nil]
    standing for an output that does not parse; a name that is not
    registered leaves the data as it is. *)
Theorem applyModifier_dispatch (H : Host) (modifiers : registry) (data : value)
  (name arg yamlStr : string) :
  strings.mem ":" name = false ->
  strings.mem "|" name = false ->
  applyModifier H modifiers data ("@" ++ name) yamlStr
  = match modifiers name with
    | Some fn => valueToResult H (unmarshalOrNil H (fn yamlStr ""))
    | None => valueToResult H data
    end
  /\ applyModifier H modifiers data ("@" ++ name ++ ":" ++ arg) yamlStr
     = match modifiers name with
       | Some fn => valueToResult H (unmarshalOrNil H (fn yamlStr arg))
       | None => valueToResult H data
       end.
Proof.
  intros Hcolon Hpipe. split.
  - rewrite <- (append_empty_r name) at 1.
    apply (applyModifier_single H modifiers data name "" yamlStr "" Hcolon Hpipe).
    left. split; reflexivity.
  - apply (applyModifier_single H modifiers data name (String ":" arg) yamlStr arg
             Hcolon Hpipe).
    right. reflexivity.
Qed.

(** X17. In a chain [@name|rest] the argument of the first modifier is
    the text after the first colon of the whole path, wherever that
    colon stands in [rest]; what [rest] holds before that colon is then
    applied, as a path of modifiers, to the output of the first
    modifier, the data handed on being still the original one; a name
    that is not registered ends the chain with the data as it is.  So
    [@name|@next:arg] calls [name] with [arg] and then [next] with no
    argument. *)
Theorem applyModifier_chain (H : Host) (modifiers : registry) (data : value)
  (name rest next arg yamlStr : string) :
  strings.mem ":" name = false ->
  strings.mem "|" name = false ->
  strings.mem ":" next = false ->
  strings.mem "|" next = false ->
  applyModifier H modifiers data ("@" ++ name ++ "|" ++ rest) yamlStr
  = match modifiers name with
    | Some fn =>
        applyModifier H modifiers data (beforeColon rest)
                      (fn yamlStr (afterColon rest))
    | None => valueToResult H data
    end
  /\ applyModifier H modifiers data
       ("@" ++ name ++ "|" ++ "@" ++ next ++ ":" ++ arg) yamlStr
     = match modifiers name, modifiers next with
       | Some fn, Some fn' =>
           valueToResult H (unmarshalOrNil H (fn' (fn yamlStr arg) ""))
       | _, _ => valueToResult H data
       end.
Proof.
  intros Hcolon Hpipe Hcolon' Hpipe'.
  assert (Hchain : forall rest',
             applyModifier H modifiers data ("@" ++ name ++ "|" ++ rest') yamlStr
             = match modifiers name with
               | Some fn =>
                   applyModifier H modifiers data (beforeColon rest')
                                 (fn yamlStr (afterColon rest'))
               | None => valueToResult H data
               end).
  { intros rest'.
    rewrite <- (applyModifier_piped H modifiers data name rest' yamlStr Hcolon Hpipe).
    change ("@" ++ name ++ "|" ++ rest') with (String "@" (name ++ "|" ++ rest')).
    rewrite <- append_assoc. reflexivity. }
  split; [apply Hchain|].
  rewrite (Hchain ("@" ++ next ++ ":" ++ arg)).
  assert (Hidx : strings.Index ("@" ++ next ++ ":" ++ arg) ":" = len ("@" ++ next)).
  { change ("@" ++ next ++ ":" ++ arg) with (("@" ++ next) ++ ":" ++ arg).
    apply Index_after.
    - cbn [append strings.mem]. rewrite Hcolon'. reflexivity.
    - destruct arg; reflexivity. }
  pose proof (len_nonneg ("@" ++ next)) as Hn.
  assert (Hbefore : beforeColon ("@" ++ next ++ ":" ++ arg) = "@" ++ next ++ "").
  { unfold beforeColon. rewrite Hidx.
    destruct (Z.eqb_spec (len ("@" ++ next)) (-1)) as [E|_]; [lia|].
    rewrite len_to_nat, append_empty_r.
    change ("@" ++ next ++ ":" ++ arg) with (("@" ++ next) ++ ":" ++ arg).
    apply substring_prefix. }
  assert (Hafter : afterColon ("@" ++ next ++ ":" ++ arg) = arg).
  { unfold afterColon. rewrite Hidx.
    destruct (Z.eqb_spec (len ("@" ++ next)) (-1)) as [E|_]; [lia|].
    replace (Z.to_nat (len ("@" ++ next) + 1))
      with (String.length ("@" ++ next) + 1)%nat by (unfold len; lia).
    rewrite <- drop_drop.
    change ("@" ++ next ++ ":" ++ arg) with (("@" ++ next) ++ ":" ++ arg).
    rewrite drop_append. reflexivity. }
  rewrite Hbefore, Hafter.
  destruct (modifiers name) as [fn|]; [|reflexivity].
  rewrite (applyModifier_single H modifiers data next "" (fn yamlStr arg) "" Hcolon' Hpipe');
    [reflexivity | left; split; reflexivity].
Qed.

(** ** Paths compose *)

Lemma updateLast_app (f : pathComponent -> pathComponent)
  (front parts : list pathComponent) :
  parts <> [] -> updateLast f (front ++ parts) = (front ++ updateLast f parts)%list.
Proof.
  intros Hne. induction front as [|c front IH]; [reflexivity|].
  cbn [app updateLast]. rewrite IH.
  destruct (front ++ parts)%list eqn:E; [|reflexivity].
  destruct front, parts; try discriminate; congruence.
Qed.

Lemma flush_app (mk : string -> pathComponent) (front parts : list pathComponent)
  (current : string) :
  flush mk (front ++ parts) current = (front ++ flush mk parts current)%list.
Proof. unfold flush. destruct current; [reflexivity | symmetry; apply app_assoc]. Qed.

Lemma flush_nonempty (mk : string -> pathComponent) (parts : list pathComponent)
  (current : string) (c : pathComponent) :
  (flush mk parts current ++ [c])%list <> [].
Proof. destruct (flush mk parts current); discriminate. Qed.

Lemma updateLast_nonempty (f : pathComponent -> pathComponent)
  (parts : list pathComponent) : parts <> [] -> updateLast f parts <> [].
Proof.
  destruct parts as [|c [|c' parts]]; [congruence | discriminate | discriminate].
Qed.

(** One turn of the loop of [parsePath], the bytes it looks ahead at
    tested with [firstByteIs]. *)
Lemma parsePath_loop_cons (parts : list pathComponent) (current : string)
  (inQuery : bool) (queryDepth : Z) (escaped : bool) (ch : ascii) (rest : string) :
  parsePath_loop parts current inQuery queryDepth escaped (String ch rest)
  = if escaped then
      parsePath_loop parts (current ++ String ch "") inQuery queryDepth false rest
    else if Ascii.eqb ch BACKSLASH then
      parsePath_loop parts current inQuery queryDepth true rest
    else if Ascii.eqb ch "#" && negb inQuery then
      if firstByteIs rest "(" then
        parsePath_loop (flush keyComponent parts current ++ [queryComponent])
                       "" true 1 false (drop 1 rest)
      else
        parsePath_loop (flush keyComponent parts current ++ [countComponent])
                       "" inQuery queryDepth false rest
    else if inQuery then
      if Ascii.eqb ch "(" then
        parsePath_loop parts (current ++ String ch "") inQuery (queryDepth + 1) false rest
      else if Ascii.eqb ch ")" then
        if queryDepth - 1 =? 0 then
          if firstByteIs rest "#" then
            parsePath_loop (updateLast with_multi (updateLast (with_query current) parts))
                           "" false (queryDepth - 1) false (drop 1 rest)
          else
            parsePath_loop (updateLast (with_query current) parts)
                           "" false (queryDepth - 1) false rest
        else
          parsePath_loop parts (current ++ String ch "") inQuery (queryDepth - 1) false rest
      else
        parsePath_loop parts (current ++ String ch "") inQuery queryDepth false rest
    else if Ascii.eqb ch "." then
      parsePath_loop (flush parseComponent parts current) "" inQuery queryDepth false rest
    else if Ascii.eqb ch "|" then
      (flush parseComponent parts current ++ [pipeComponent rest])%list
    else
      parsePath_loop parts (current ++ String ch "") inQuery queryDepth false rest.
Proof.
  destruct rest as [|c rest']; [reflexivity|].
  destruct c as [[] [] [] [] [] [] [] []]; reflexivity.
Qed.

(** The components already read stay as they are: the loop only
    appends, and inside a query only touches the query it is reading. *)
Lemma parsePath_loop_front (front : list pathComponent) (n : nat) :
  forall (path : string) (parts : list pathComponent) (current : string)
         (inQuery : bool) (depth : Z) (escaped : bool),
    (String.length path <= n)%nat ->
    (inQuery = true -> parts <> []) ->
    parsePath_loop (front ++ parts) current inQuery depth escaped path
    = (front ++ parsePath_loop parts current inQuery depth escaped path)%list.
Proof.
  induction n as [|n IH]; intros path parts current inQuery depth escaped Hlen Hq.
  - destruct path; [|simpl in Hlen; lia]. cbn [parsePath_loop]. apply flush_app.
  - destruct path as [|ch rest]; [cbn [parsePath_loop]; apply flush_app|].
    cbn [String.length] in Hlen.
    assert (Hrest : (String.length rest <= n)%nat) by lia.
    assert (Hdrop : (String.length (drop 1 rest) <= n)%nat).
    { pose proof (length_drop 1 rest). lia. }
    rewrite !parsePath_loop_cons.
    destruct escaped; [apply IH; assumption|].
    destruct (Ascii.eqb ch BACKSLASH); [apply IH; assumption|].
    destruct (Ascii.eqb ch "#" && negb inQuery) eqn:Ehash.
    { rewrite !flush_app, <- !app_assoc.
      destruct (firstByteIs rest "("); apply IH; try assumption.
      - intros _. apply flush_nonempty.
      - intros _. apply flush_nonempty. }
    destruct inQuery.
    { specialize (Hq eq_refl).
      destruct (Ascii.eqb ch "("); [apply IH; auto|].
      destruct (Ascii.eqb ch ")"); [|apply IH; auto].
      destruct (depth - 1 =? 0); [|apply IH; auto].
      rewrite (updateLast_app (with_query current) front parts Hq).
      destruct (firstByteIs rest "#").
      - rewrite (updateLast_app with_multi front _
                   (updateLast_nonempty (with_query current) parts Hq)).
        apply IH; [assumption | discriminate].
      - apply IH; [assumption | discriminate]. }
    destruct (Ascii.eqb ch ".").
    { rewrite flush_app. apply IH; [assumption | discriminate]. }
    destruct (Ascii.eqb ch "|").
    { rewrite flush_app, <- app_assoc. reflexivity. }
    apply IH; [assumption | discriminate].
Qed.

Lemma parsePath_append (a b : string) :
  plainFrom false a = true ->
  parsePath (a ++ "." ++ b) = (parsePath a ++ parsePath b)%list.
Proof.
  intros Hplain. unfold parsePath.
  change (a ++ "." ++ b) with (a ++ String "." b).
  rewrite (parsePath_loop_plain 0 a [] "" false b Hplain).
  rewrite <- (app_nil_r (parsePath_loop [] "" false 0 false a)) at 1.
  apply (parsePath_loop_front _ (String.length b)); [lia | discriminate].
Qed.

(** X18. Paths compose at a dot: when [a] has no [#] and no pipe and
    neither part starts with [@], the components of [a.b] are those of
    [a] followed by those of [b], and the traversal engine answers [a.b]
    on a value as it answers [b] on what [a] selects in it. *)
Theorem getFromPath_chain (H : Host) (modifiers : registry) (data : value)
  (a b origYAML : string) :
  plainFrom false a = true ->
  firstByteIs a "@" = false ->
  firstByteIs b "@" = false ->
  parsePath (a ++ "." ++ b) = (parsePath a ++ parsePath b)%list
  /\ getFromPath H modifiers data (a ++ "." ++ b) origYAML
     = match descend (parsePath a) data with
       | None => Result_zero
       | Some current => getFromPath H modifiers current b origYAML
       end.
Proof.
  intros Hplain Hat' Hat.
  pose proof (parsePath_append a b Hplain) as Htok.
  split; [exact Htok|].
  assert (Hab : firstByteIs (a ++ "." ++ b) "@" = false).
  { destruct a as [|c a]; [reflexivity | exact Hat']. }
  rewrite getFromPath_traverse; [|destruct a; discriminate | exact Hab].
  rewrite Htok.
  rewrite traversePath_prefix
    by (apply parsePath_loop_selects; [exact Hplain | constructor]).
  destruct (descend (parsePath a) data) as [current|]; [|reflexivity].
  destruct b as [|c b]; [reflexivity|].
  rewrite getFromPath_traverse; [reflexivity | discriminate | exact Hat].
Qed.

(** ** Trimming a text whose ends are visible *)

Lemma space2_bytes (a b : ascii) :
  strings.space2 a b = true -> nat_of_ascii a = 194%nat /\ (128 <= nat_of_ascii b)%nat.
Proof.
  unfold strings.space2.
  generalize (nat_of_ascii a) (nat_of_ascii b). intros n m.
  do 194 (destruct n as [|n]; [discriminate|]).
  destruct n; [|discriminate].
  do 128 (destruct m as [|m]; [discriminate|]).
  intros _. split; [reflexivity | lia].
Qed.

Lemma space3_bytes (a b c : ascii) :
  strings.space3 a b c = true ->
  (225 <= nat_of_ascii a)%nat /\ (128 <= nat_of_ascii c)%nat.
Proof.
  unfold strings.space3.
  generalize (nat_of_ascii a) (nat_of_ascii b) (nat_of_ascii c). intros n m k.
  cbv zeta.
  do 225 (destruct n as [|n]; [discriminate|]).
  intros E. split; [lia|].
  destruct n as [|[|[|n]]]; try discriminate E.
  - do 154 (destruct m as [|m]; [discriminate|]).
    destruct m; [|discriminate].
    apply Nat.eqb_eq in E. lia.
  - do 128 (destruct m as [|m]; [discriminate|]).
    destruct m as [|[|m]]; try discriminate E.
    + repeat (apply orb_true_iff in E as [E|E]);
        try (apply Nat.eqb_eq in E; lia).
      apply andb_true_iff in E as [E _]. apply Nat.leb_le in E. lia.
    + apply Nat.eqb_eq in E. lia.
  - do 128 (destruct m as [|m]; [discriminate|]).
    destruct m; [|discriminate].
    apply Nat.eqb_eq in E. lia.
Qed.

Lemma visible_not_space (c : ascii) :
  visible c = true -> strings.asciiSpace c = false.
Proof.
  unfold visible, strings.asciiSpace.
  generalize (nat_of_ascii c). intros n Hv.
  apply andb_true_iff in Hv as [Hlo _]. apply Nat.leb_le in Hlo.
  do 33 (destruct n as [|n]; [lia|]). reflexivity.
Qed.

Lemma visible_low (c : ascii) :
  visible c = true -> (nat_of_ascii c <= 126)%nat.
Proof.
  unfold visible. intros Hv. apply andb_true_iff in Hv as [_ Hhi].
  apply Nat.leb_le in Hhi. exact Hhi.
Qed.

Lemma trimSpaceLeft_visible (c : ascii) (s : string) :
  visible c = true -> strings.trimSpaceLeft (String c s) = String c s.
Proof.
  intros Hv. pose proof (visible_low c Hv) as Hlow.
  cbn [strings.trimSpaceLeft]. rewrite (visible_not_space c Hv).
  destruct s as [|c2 s2]; [reflexivity|].
  destruct (strings.space2 c c2) eqn:E2.
  { apply space2_bytes in E2 as [E2 _]. lia. }
  destruct s2 as [|c3 s3]; [reflexivity|].
  destruct (strings.space3 c c2 c3) eqn:E3; [|reflexivity].
  apply space3_bytes in E3 as [E3 _]. lia.
Qed.

Lemma trimSpaceRev_visible (c : ascii) (s : string) :
  visible c = true -> strings.trimSpaceRev (String c s) = String c s.
Proof.
  intros Hv. pose proof (visible_low c Hv) as Hlow.
  cbn [strings.trimSpaceRev]. rewrite (visible_not_space c Hv).
  destruct s as [|c2 s2]; [reflexivity|].
  destruct (strings.space2 c2 c) eqn:E2.
  { apply space2_bytes in E2 as [_ E2]. lia. }
  destruct s2 as [|c3 s3]; [reflexivity|].
  destruct (strings.space3 c3 c2 c) eqn:E3; [|reflexivity].
  apply space3_bytes in E3 as [_ E3]. lia.
Qed.

Lemma rev_append_append (s acc : string) : rev_append s acc = rev s ++ acc.
Proof.
  unfold rev. revert acc. induction s as [|c s IH]; intros acc; [reflexivity|].
  cbn [rev_append]. rewrite IH, (IH (String c "")), append_assoc. reflexivity.
Qed.

Lemma rev_rev_append (s acc : string) : rev (rev_append s acc) = rev acc ++ s.
Proof.
  revert acc. induction s as [|c s IH]; intros acc.
  - cbn [rev_append]. rewrite append_empty_r. reflexivity.
  - cbn [rev_append]. rewrite IH. unfold rev at 1. cbn [rev_append].
    rewrite rev_append_append, append_assoc. reflexivity.
Qed.

Lemma rev_rev (s : string) : rev (rev s) = s.
Proof. unfold rev at 2. rewrite rev_rev_append. reflexivity. Qed.

Lemma word_first (w : string) :
  word w = true -> exists c s, w = String c s /\ visible c = true.
Proof.
  destruct w as [|c [|c' s]]; [discriminate | |]; intros Hw.
  - exists c, "". auto.
  - cbn [word] in Hw. apply andb_true_iff in Hw as [Hc _]. exists c, (String c' s). auto.
Qed.

Lemma word_tail (c c' : ascii) (s : string) :
  word (String c (String c' s)) = true -> visible c = true /\ word (String c' s) = true.
Proof. cbn [word]. intros Hw. apply andb_true_iff in Hw. exact Hw. Qed.

Lemma word_last (w : string) :
  word w = true ->
  forall acc, exists d t, rev_append w acc = String d t /\ visible d = true.
Proof.
  induction w as [|c w IH]; [discriminate|]. intros Hw acc.
  destruct w as [|c' w].
  - exists c, acc. split; [reflexivity | exact Hw].
  - apply word_tail in Hw as [_ Hw]. cbn [rev_append].
    apply (IH Hw).
Qed.

(** A text that starts and ends with a visible byte is its own trim. *)
Lemma TrimSpace_edges (c : ascii) (s : string) :
  visible c = true ->
  (exists d t, rev (String c s) = String d t /\ visible d = true) ->
  strings.TrimSpace (String c s) = String c s.
Proof.
  intros Hc (d & t & Hrev & Hd). unfold strings.TrimSpace.
  rewrite (trimSpaceLeft_visible c s Hc), Hrev, (trimSpaceRev_visible d t Hd).
  rewrite <- Hrev. apply rev_rev.
Qed.

Lemma TrimSpace_word (w : string) : word w = true -> strings.TrimSpace w = w.
Proof.
  intros Hw. destruct (word_first w Hw) as (c & s & -> & Hc).
  apply TrimSpace_edges; [exact Hc|]. apply (word_last _ Hw).
Qed.

Lemma TrimSpace_dash_word (w : string) :
  word w = true -> strings.TrimSpace ("- " ++ w) = "- " ++ w.
Proof.
  intros Hw. apply TrimSpace_edges; [reflexivity|].
  unfold rev. cbn [rev_append]. apply (word_last w Hw).
Qed.

(** ** Block sequences of words *)

Lemma visible_not_newline (c : ascii) : visible c = true -> Ascii.eqb c NL = false.
Proof.
  intros Hv. destruct (Ascii.eqb_spec c NL) as [->|]; [discriminate | reflexivity].
Qed.

Lemma word_visible (c : ascii) (s : string) :
  word (String c s) = true -> visible c = true.
Proof.
  destruct s; [auto|]. intros Hw. apply word_tail in Hw. tauto.
Qed.

Lemma word_positive (w : string) : word w = true -> (0 <? len w) = true.
Proof.
  destruct w as [|c w]; [discriminate|]. intros _.
  rewrite len_cons. pose proof (len_nonneg w). apply Z.ltb_lt. lia.
Qed.

Lemma Split_word (w rest : string) :
  word w = true ->
  strings.Split (w ++ String NL rest) NL = w :: strings.Split rest NL.
Proof.
  induction w as [|c w IH]; [discriminate|]. intros Hw.
  pose proof (visible_not_newline c (word_visible c w Hw)) as Hc.
  cbn [append strings.Split]. rewrite Hc.
  destruct w as [|c' w].
  - cbn [append strings.Split]. change (Ascii.eqb NL NL) with true. reflexivity.
  - apply word_tail in Hw as [_ Hw]. rewrite (IH Hw). reflexivity.
Qed.

Lemma concat_empty_cons (a : string) (l : list string) :
  String.concat "" (a :: l) = a ++ String.concat "" l.
Proof.
  destruct l; cbn [String.concat append]; [rewrite append_empty_r|]; reflexivity.
Qed.

Lemma blockSequence_cons (item : string) (items : list string) :
  blockSequence (item :: items)
  = "- " ++ item ++ String NL (blockSequence items).
Proof.
  unfold blockSequence. cbn [map]. rewrite concat_empty_cons.
  rewrite !append_assoc. reflexivity.
Qed.

Lemma Split_blockSequence (items : list string) :
  forallb word items = true ->
  strings.Split (blockSequence items) NL
  = (map (append "- ") items ++ [""])%list.
Proof.
  induction items as [|w items IH]; [reflexivity|]. intros Hw.
  cbn [forallb] in Hw. apply andb_true_iff in Hw as [Hw Hrest].
  rewrite blockSequence_cons. cbn [append strings.Split].
  change (Ascii.eqb "-" NL) with false. change (Ascii.eqb " " NL) with false.
  rewrite (Split_word w _ Hw), (IH Hrest). reflexivity.
Qed.

(** The loop of [parseArrayElements] at one item line, in an element. *)
Lemma scanLine_item (pre : list string) (cur w : string) (started : bool) (base : Z) :
  word w = true ->
  (started = true -> word cur = true) ->
  (started = false -> cur = "") ->
  base = 0 \/ base = -1 ->
  scanLine (mkScan pre cur started base base) ("- " ++ w)
  = mkScan (if started then pre ++ [cur] else pre)%list w true 0 0.
Proof.
  intros Hw Hcur Hinit Hbase. unfold scanLine.
  rewrite (TrimSpace_dash_word w Hw).
  change (blankOrComment ("- " ++ w)) with false. cbv iota.
  change (indentOf ("- " ++ w)) with (len ("- " ++ w) - len ("- " ++ w)).
  rewrite Z.sub_diag.
  cbn [baseIndent inElement currentElement elementIndent elements].
  assert (Hb : (if base =? -1 then 0 else base) = 0)
    by (destruct Hbase as [-> | ->]; reflexivity).
  rewrite Hb.
  change (strings.HasPrefix ("- " ++ w) "- ") with (strings.HasPrefix w "").
  rewrite HasPrefix_empty. cbn [andb Z.eqb].
  change (drop 2 ("- " ++ w)) with w. rewrite (TrimSpace_word w Hw).
  destruct started.
  - rewrite (word_positive cur (Hcur eq_refl)). cbn [andb]. reflexivity.
  - rewrite (Hinit eq_refl). reflexivity.
Qed.

Lemma scan_items (items pre : list string) (cur : string) (started : bool) (base : Z) :
  forallb word items = true ->
  (started = true -> word cur = true) ->
  (started = false -> cur = "" /\ pre = []) ->
  base = 0 \/ base = -1 ->
  let st := fold_left scanLine (map (append "- ") items ++ [""])%list
                      (mkScan pre cur started base base) in
  (if 0 <? len (currentElement st) then elements st ++ [currentElement st]
   else elements st)%list
  = ((if started then pre ++ [cur] else pre) ++ items)%list.
Proof.
  revert pre cur started base.
  induction items as [|w items IH]; intros pre cur started base Hall Hcur Hinit Hbase.
  - cbn [map app fold_left]. unfold scanLine. 
    change (blankOrComment (strings.TrimSpace "")) with true. cbv iota.
    cbn [currentElement elements]. rewrite app_nil_r.
    destruct started.
    + rewrite (word_positive cur (Hcur eq_refl)). reflexivity.
    + destruct (Hinit eq_refl) as [-> ->]. reflexivity.
  - cbn [forallb] in Hall. apply andb_true_iff in Hall as [Hw Hall].
    cbn [map app fold_left].
    rewrite (scanLine_item pre cur w started base Hw Hcur
               (fun E => proj1 (Hinit E)) Hbase).
    cbv zeta in IH |- *.
    rewrite (IH _ w true 0 Hall (fun _ => Hw)); [| discriminate | left; reflexivity].
    rewrite <- app_assoc. reflexivity.
Qed.

(** X19. [parseArrayElements] reads back a block sequence of words: the
    elements of the text that lists the words, one per line after a
    dash, are the words. *)
Theorem parseArrayElements_blockSequence (items : list string) :
  forallb word items = true ->
  parseArrayElements (blockSequence items) = items.
Proof.
  intros Hall. unfold parseArrayElements.
  rewrite (Split_blockSequence items Hall).
  apply (scan_items items [] "" false (-1) Hall);
    [discriminate | auto | right; reflexivity].
Qed.

(** ** A decimal index as a path *)

Lemma numeralByte_plain (c : ascii) :
  numeralByte c = true ->
  Ascii.eqb c BACKSLASH = false /\ Ascii.eqb c "." = false
  /\ Ascii.eqb c "*" = false /\ Ascii.eqb c "?" = false
  /\ Ascii.eqb c "@" = false /\ Ascii.eqb c "|" = false
  /\ Ascii.eqb c "#" = false.
Proof.
  destruct c as [[] [] [] [] [] [] [] []]; vm_compute; intros Hc;
    try discriminate Hc; repeat split.
Qed.

Lemma digits_numeral (s : string) (acc n : Z) :
  strconv.digits acc s = Some n -> numeral s = true.
Proof.
  revert acc. induction s as [|c s IH]; intros acc; [reflexivity|].
  cbn [strconv.digits numeral]. unfold numeralByte.
  destruct (strconv.digit c); [|discriminate]. intros Hd.
  rewrite (IH _ Hd), orb_true_r. reflexivity.
Qed.

Lemma Atoi_numeral (p : string) (i : Z) :
  strconv.Atoi p = Some i -> p <> "" /\ numeral p = true.
Proof.
  unfold strconv.Atoi. destruct p as [|c s]; [discriminate|].
  intros Hp. split; [discriminate|].
  cbn [numeral]. unfold numeralByte.
  destruct (Ascii.eqb c "-") eqn:Em; [|destruct (Ascii.eqb c "+") eqn:Ep].
  - destruct s; [discriminate|].
    destruct (strconv.digits 0 _) eqn:E; [|discriminate].
    rewrite (digits_numeral _ _ _ E). reflexivity.
  - destruct s; [discriminate|].
    destruct (strconv.digits 0 _) eqn:E; [|discriminate].
    rewrite (digits_numeral _ _ _ E). reflexivity.
  - destruct (strconv.digits 0 _) eqn:E; [|discriminate].
    apply digits_numeral in E. cbn [numeral] in E. unfold numeralByte in E.
    rewrite Em, Ep in E. exact E.
Qed.

Lemma hasComplexFeatures_numeral (p : string) :
  numeral p = true -> hasComplexFeatures p = false.
Proof.
  induction p as [|c p IH]; [reflexivity|]. cbn [numeral hasComplexFeatures].
  intros Hn. apply andb_true_iff in Hn as [Hc Hn].
  destruct (numeralByte_plain c Hc) as (_ & _ & -> & -> & -> & -> & ->).
  cbn [orb andb]. exact (IH Hn).
Qed.

Lemma splitPath_loop_numeral (p current : string) :
  numeral p = true ->
  splitPath_loop [] current false p
  = match current ++ p with EmptyString => [] | _ => [current ++ p] end.
Proof.
  revert current. induction p as [|c p IH]; intros current.
  - intros _. cbn [splitPath_loop]. rewrite append_empty_r.
    destruct current; reflexivity.
  - cbn [numeral]. intros Hn. apply andb_true_iff in Hn as [Hc Hn].
    destruct (numeralByte_plain c Hc) as (Hb & Hd & _).
    cbn [splitPath_loop]. rewrite Hb, Hd, (IH _ Hn), append_assoc. reflexivity.
Qed.

Lemma splitPath_numeral (p : string) :
  p <> "" -> numeral p = true -> splitPath p = [p].
Proof.
  intros Hne Hn. unfold splitPath.
  destruct (String.eqb_spec p "") as [->|_]; [congruence|].
  rewrite (splitPath_loop_numeral p "" Hn). cbn [append].
  destruct p; [congruence | reflexivity].
Qed.

Lemma numeral_no_dot (p : string) :
  numeral p = true -> firstByteIs p "." = false.
Proof.
  destruct p as [|c p]; [reflexivity|]. cbn [numeral firstByteIs].
  intros Hn. apply andb_true_iff in Hn as [Hc _].
  apply (numeralByte_plain c Hc).
Qed.

(** The fast path at a decimal index of a block sequence of words: the
    text of the item, read as a scalar. *)
Lemma fastParsePath_item (H : Host) (items : list string) (p : string) (i : Z) :
  forallb word items = true ->
  strconv.Atoi p = Some i ->
  0 <= i < Z.of_nat (List.length items) ->
  fastParsePath H (blockSequence items) [p]
  = extractValue H (nth (Z.to_nat i) items "").
Proof.
  intros Hall Hp Hi. cbn [fastParsePath]. rewrite Hp.
  unfold fastParseArrayIndex, parseArrayElements.
  rewrite (Split_blockSequence items Hall).
  rewrite (scan_items items [] "" false (-1) Hall);
    [| discriminate | auto | right; reflexivity].
  cbn [app].
  destruct (i <? 0) eqn:E1; [apply Z.ltb_lt in E1; lia|].
  destruct (Z.of_nat (List.length items) <=? i) eqn:E2; [apply Z.leb_le in E2; lia|].
  reflexivity.
Qed.

Lemma extractValue_not_tree (H : Host) (value : string) (r : Result) :
  extractValue H value = Ret (r, true) -> Type' r <> YAML.
Proof.
  unfold extractValue. set (v := strings.TrimSpace value). clearbody v.
  unfold bind.
  repeat match goal with
         | |- context [if ?b then _ else _] => destruct b
         | |- context [let '(_, _) := ?p in _] => destruct p
         | |- context [match slice ?s ?a ?b with _ => _ end] => destruct (slice s a b)
         end;
    intros E; try discriminate E; injection E as <-; discriminate.
Qed.

(** X20. On a block sequence of words a decimal index in range is
    answered by the fast path, from the text of that item alone: [Get]
    returns what [extractValue] makes of the item, unless that is
    [Null]. *)
Theorem Get_block_sequence_item (H : Host) (modifiers : registry)
  (items : list string) (p : string) (i : Z) (r : Result) :
  forallb word items = true ->
  strconv.Atoi p = Some i ->
  0 <= i < Z.of_nat (List.length items) ->
  extractValue H (nth (Z.to_nat i) items "") = Ret (r, true) ->
  Type' r <> Null ->
  Get H modifiers (blockSequence items) p = Ret r.
Proof.
  intros Hall Hp Hi Hr Hnull.
  destruct (Atoi_numeral p i Hp) as [Hne Hn].
  pose proof (numeral_no_dot p Hn) as Hdot.
  assert (Hstrip : stripDot p = p) by (unfold stripDot; rewrite Hdot; reflexivity).
  apply Get_fast; [exact Hne | unfold hasLinesPrefix; rewrite Hdot, andb_false_r; reflexivity |].
  rewrite Hstrip. unfold fastGet.
  destruct p as [|c p']; [congruence|].
  change (len (String c p') =? 0) with false. cbv iota.
  rewrite (splitPath_numeral _ Hne Hn), (hasComplexFeatures_numeral _ Hn).
  rewrite (fastParsePath_item H items _ i Hall Hp Hi), Hr.
  pose proof (extractValue_not_tree H _ r Hr) as Htree.
  cbn [bind negb]. destruct (Type' r); try congruence; reflexivity.
Qed.

(** X21. On a block sequence of words [#] is the number of items. *)
Theorem Get_block_sequence_count (H : Host) (modifiers : registry)
  (items : list string) :
  forallb word items = true ->
  Get H modifiers (blockSequence items) "#"
  = Ret (countResult (Z.of_nat (List.length items))).
Proof.
  intros Hall. apply Get_fast; [discriminate | reflexivity |].
  change (stripDot "#") with "#". unfold fastGet.
  change (len "#" =? 0) with false. change (splitPath "#") with ["#"].
  change (hasComplexFeatures "#") with false. cbv iota.
  cbn [fastParsePath]. change (strconv.Atoi "#") with (@None Z).
  change ("#" =? "#")%string with true. cbv iota. cbn [negb].
  unfold countArrayElements, parseArrayElements.
  rewrite (Split_blockSequence items Hall).
  rewrite (scan_items items [] "" false (-1) Hall);
    [| discriminate | auto | right; reflexivity].
  reflexivity.
Qed.

(** ** Block mappings of names and scalar words *)

Lemma letter_byte (c : ascii) :
  letter c = true ->
  nameByte c = true /\ strconv.digit c = None
  /\ Ascii.eqb c "-" = false /\ Ascii.eqb c "+" = false
  /\ Ascii.eqb c " " = false /\ Ascii.eqb c TAB = false.
Proof.
  destruct c as [[] [] [] [] [] [] [] []]; vm_compute; intros Hc;
    try discriminate Hc; repeat split.
Qed.

Lemma nameByte_plain (c : ascii) :
  nameByte c = true ->
  visible c = true /\ Ascii.eqb c ":" = false
  /\ Ascii.eqb c BACKSLASH = false /\ Ascii.eqb c "." = false
  /\ Ascii.eqb c "*" = false /\ Ascii.eqb c "?" = false
  /\ Ascii.eqb c "@" = false /\ Ascii.eqb c "|" = false
  /\ Ascii.eqb c "#" = false.
Proof.
  destruct c as [[] [] [] [] [] [] [] []]; vm_compute; intros Hc;
    try discriminate Hc; repeat split.
Qed.

Lemma name_bytes (k : string) :
  name k = true -> k <> "" /\ nameBytes k = true.
Proof.
  destruct k as [|c k]; [discriminate|]. cbn [name nameBytes]. intros Hk.
  apply andb_true_iff in Hk as [Hc Hk]. split; [discriminate|].
  rewrite (proj1 (letter_byte c Hc)), Hk. reflexivity.
Qed.

Lemma nameBytes_word (c : ascii) (k : string) :
  nameBytes (String c k) = true -> word (String c k) = true.
Proof.
  revert c. induction k as [|c' k IH]; intros c; cbn [nameBytes]; intros Hk;
    apply andb_true_iff in Hk as [Hc Hk].
  - apply (nameByte_plain c Hc).
  - cbn [word]. rewrite (proj1 (nameByte_plain c Hc)). apply (IH c' Hk).
Qed.

Lemma name_word (k : string) : name k = true -> word k = true.
Proof.
  intros Hk. destruct (name_bytes k Hk) as [Hne Hb].
  destruct k; [congruence|]. apply nameBytes_word, Hb.
Qed.

Lemma hasComplexFeatures_name (k : string) :
  nameBytes k = true -> hasComplexFeatures k = false.
Proof.
  induction k as [|c k IH]; [reflexivity|]. cbn [nameBytes hasComplexFeatures].
  intros Hn. apply andb_true_iff in Hn as [Hc Hn].
  destruct (nameByte_plain c Hc) as (_ & _ & _ & _ & -> & -> & -> & -> & ->).
  cbn [orb andb]. exact (IH Hn).
Qed.

Lemma splitPath_loop_name (k current : string) :
  nameBytes k = true ->
  splitPath_loop [] current false k
  = match current ++ k with EmptyString => [] | _ => [current ++ k] end.
Proof.
  revert current. induction k as [|c k IH]; intros current.
  - intros _. cbn [splitPath_loop]. rewrite append_empty_r.
    destruct current; reflexivity.
  - cbn [nameBytes]. intros Hn. apply andb_true_iff in Hn as [Hc Hn].
    destruct (nameByte_plain c Hc) as (_ & _ & Hb & Hd & _).
    cbn [splitPath_loop]. rewrite Hb, Hd, (IH _ Hn), append_assoc. reflexivity.
Qed.

Lemma splitPath_name (k : string) : name k = true -> splitPath k = [k].
Proof.
  intros Hk. destruct (name_bytes k Hk) as [Hne Hb]. unfold splitPath.
  destruct (String.eqb_spec k "") as [->|_]; [congruence|].
  rewrite (splitPath_loop_name k "" Hb). cbn [append].
  destruct k; [congruence | reflexivity].
Qed.

Lemma Atoi_name (k : string) : name k = true -> strconv.Atoi k = None.
Proof.
  destruct k as [|c k]; [discriminate|]. cbn [name]. intros Hk.
  apply andb_true_iff in Hk as [Hc _].
  destruct (letter_byte c Hc) as (_ & Hd & Hm & Hp & _).
  unfold strconv.Atoi. rewrite Hm, Hp. cbn [strconv.digits]. rewrite Hd. reflexivity.
Qed.

(** A line [key: rest] starts with [k:] exactly when [key] is [k]. *)
Lemma HasPrefix_key (key k rest : string) :
  nameBytes key = true -> nameBytes k = true ->
  strings.HasPrefix (key ++ String ":" rest) (k ++ ":") = String.eqb key k.
Proof.
  unfold strings.HasPrefix. revert key.
  induction k as [|d k IH]; intros key Hkey Hk.
  - destruct key as [|c key].
    + cbn. destruct rest; reflexivity.
    + cbn [nameBytes] in Hkey. apply andb_true_iff in Hkey as [Hc _].
      destruct (nameByte_plain c Hc) as (_ & Hcolon & _).
      cbn [append String.prefix String.eqb].
      destruct (ascii_dec ":" c) as [<-|_]; [discriminate Hcolon | reflexivity].
  - cbn [nameBytes] in Hk. apply andb_true_iff in Hk as [Hd Hk].
    destruct key as [|c key].
    + destruct (nameByte_plain d Hd) as (_ & Hcolon & _).
      cbn [append String.prefix String.eqb].
      destruct (ascii_dec d ":") as [->|_]; [discriminate Hcolon | reflexivity].
    + cbn [nameBytes] in Hkey. apply andb_true_iff in Hkey as [_ Hkey].
      cbn [append String.prefix String.eqb].
      destruct (ascii_dec d c) as [->|Hne].
      * rewrite Ascii.eqb_refl. apply (IH key Hkey Hk).
      * destruct (Ascii.eqb_spec c d) as [->|_]; [congruence | reflexivity].
Qed.

Lemma rev_append_app (a b acc : string) :
  rev_append (a ++ b) acc = rev_append b (rev_append a acc).
Proof.
  revert acc. induction a as [|c a IH]; intros acc; [reflexivity|].
  cbn [append rev_append]. apply IH.
Qed.

Lemma TrimSpace_entry (k v : string) :
  name k = true -> word v = true ->
  strings.TrimSpace (k ++ ": " ++ v) = k ++ ": " ++ v.
Proof.
  intros Hk Hv. destruct (word_first k (name_word k Hk)) as (c & s & -> & Hc).
  apply (TrimSpace_edges c (s ++ ": " ++ v) Hc).
  change (exists d t, rev_append (String c s ++ ": " ++ v) "" = String d t
                      /\ visible d = true).
  rewrite !rev_append_app. apply (word_last v Hv).
Qed.

Lemma TrimSpace_space_word (v : string) :
  word v = true -> strings.TrimSpace (String " " v) = v.
Proof.
  intros Hv. rewrite <- (TrimSpace_word v Hv) at 2. reflexivity.
Qed.

Lemma indentOf_name (k rest : string) :
  name k = true -> indentOf (k ++ rest) = 0.
Proof.
  destruct k as [|c k]; [discriminate|]. cbn [name]. intros Hk.
  apply andb_true_iff in Hk as [Hc _].
  destruct (letter_byte c Hc) as (_ & _ & _ & _ & Hs & Ht).
  unfold indentOf. cbn [append strings.TrimLeft strings.mem].
  rewrite Hs, Ht. cbn [orb]. lia.
Qed.

Lemma blankOrComment_name (k rest : string) :
  name k = true -> blankOrComment (k ++ rest) = false.
Proof.
  intros Hk. destruct (name_bytes k Hk) as [_ Hb].
  destruct k as [|c k]; [discriminate|].
  cbn [nameBytes] in Hb. apply andb_true_iff in Hb as [Hc _].
  destruct (nameByte_plain c Hc) as (_ & _ & _ & _ & _ & _ & _ & _ & Hh).
  unfold blankOrComment. cbn [append String.eqb orb].
  rewrite HasPrefix_byte. cbn [firstByteIs]. exact Hh.
Qed.

Lemma Split_word_app (w rest : string) :
  word w = true ->
  strings.Split (w ++ rest) NL
  = match strings.Split rest NL with
    | [] => [w]
    | f :: fs => (w ++ f) :: fs
    end.
Proof.
  induction w as [|c w IH]; [discriminate|]. intros Hw.
  pose proof (visible_not_newline c (word_visible c w Hw)) as Hc.
  cbn [append strings.Split]. rewrite Hc.
  destruct w as [|c' w].
  - cbn [append]. destruct (strings.Split rest NL); reflexivity.
  - apply word_tail in Hw as [_ Hw]. rewrite (IH Hw).
    destruct (strings.Split rest NL); reflexivity.
Qed.

Lemma blockMapping_cons (e : string * string) (entries : list (string * string)) :
  blockMapping (e :: entries)
  = fst e ++ ": " ++ snd e ++ String NL (blockMapping entries).
Proof.
  unfold blockMapping. cbn [map]. rewrite concat_empty_cons.
  rewrite !append_assoc. reflexivity.
Qed.

Lemma entry_parts (e : string * string) :
  entry e = true ->
  name (fst e) = true /\ word (snd e) = true
  /\ strings.Contains (snd e) ":" = false
  /\ firstByteIs (snd e) "{" = false /\ firstByteIs (snd e) "[" = false.
Proof.
  unfold entry, scalarWord. intros He.
  apply andb_true_iff in He as [Hk He].
  apply andb_true_iff in He as [He Hbracket].
  apply andb_true_iff in He as [He Hbrace].
  apply andb_true_iff in He as [Hw Hcolon].
  apply negb_true_iff in Hbracket, Hbrace, Hcolon.
  repeat split; assumption.
Qed.

Lemma Split_blockMapping (entries : list (string * string)) :
  forallb entry entries = true ->
  strings.Split (blockMapping entries) NL
  = (map (fun e => (fst e ++ ": " ++ snd e)%string) entries ++ [""])%list.
Proof.
  induction entries as [|e entries IH]; [reflexivity|]. intros Hall.
  cbn [forallb] in Hall. apply andb_true_iff in Hall as [He Hall].
  destruct (entry_parts e He) as (Hk & Hv & _).
  rewrite blockMapping_cons, (Split_word_app _ _ (name_word _ Hk)).
  cbn [append strings.Split].
  change (Ascii.eqb ":" NL) with false. change (Ascii.eqb " " NL) with false.
  rewrite (Split_word _ _ Hv), (IH Hall). reflexivity.
Qed.

(** The loop of [fastParseKey] over the lines of a block mapping, for a
    final key. *)
Lemma fastParseKey_loop_entries (H : Host) (next : string -> outcome (Result * bool))
  (k : string) (entries : list (string * string)) :
  name k = true -> forallb entry entries = true ->
  fastParseKey_loop H next true 0 (k ++ ":")
    (map (fun e => (fst e ++ ": " ++ snd e)%string) entries ++ [""])%list
  = match firstEntry k entries with
    | Some v => extractValue H v
    | None => Ret (Result_zero, false)
    end.
Proof.
  intros Hk. destruct (name_bytes k Hk) as [_ Hkb].
  induction entries as [|e entries IH]; intros Hall; [reflexivity|].
  cbn [forallb] in Hall. apply andb_true_iff in Hall as [He Hall].
  destruct (entry_parts e He) as (Hn & Hv & Hcolon & Hbrace & Hbracket).
  destruct (name_bytes _ Hn) as [_ Hnb].
  cbn [map app fastParseKey_loop firstEntry].
  rewrite (TrimSpace_entry _ _ Hn Hv), (blankOrComment_name _ _ Hn),
    (indentOf_name _ _ Hn).
  cbn [Z.eqb negb].
  change (fst e ++ ": " ++ snd e) with (fst e ++ String ":" (String " " (snd e))).
  rewrite (HasPrefix_key _ _ _ Hnb Hkb).
  destruct (String.eqb_spec (fst e) k) as [<-|Hne]; cbn [negb].
  - change (fst e ++ String ":" (String " " (snd e)))
      with (fst e ++ ":" ++ String " " (snd e)).
    rewrite <- append_assoc, drop_append, (TrimSpace_space_word _ Hv).
    rewrite (TrimSpace_word _ Hv), !HasPrefix_byte, Hbrace, Hbracket, Hcolon.
    destruct (snd e); [discriminate Hv | reflexivity].
  - apply (IH Hall).
Qed.

Lemma fastParsePath_entries (H : Host) (k : string) (entries : list (string * string)) :
  name k = true -> forallb entry entries = true ->
  fastParsePath H (blockMapping entries) [k]
  = match firstEntry k entries with
    | Some v => extractValue H v
    | None => Ret (Result_zero, false)
    end.
Proof.
  intros Hk Hall. cbn [fastParsePath]. rewrite (Atoi_name k Hk).
  destruct (String.eqb_spec k "#") as [->|_]; [discriminate Hk|].
  unfold fastParseKey. rewrite (Split_blockMapping entries Hall).
  destruct entries as [|e entries]; [reflexivity|].
  assert (Hbase : baseIndentOf (map (fun e => (fst e ++ ": " ++ snd e)%string)
                                    (e :: entries) ++ [""])%list = 0).
  { cbn [forallb] in Hall. apply andb_true_iff in Hall as [He _].
    destruct (entry_parts e He) as (Hn & Hv & _).
    cbn [map app baseIndentOf].
    rewrite (TrimSpace_entry _ _ Hn Hv), (blankOrComment_name _ _ Hn).
    apply (indentOf_name _ _ Hn). }
  rewrite Hbase. apply (fastParseKey_loop_entries H _ k _ Hk Hall).
Qed.

Lemma name_path (k : string) :
  name k = true -> k <> "" /\ hasLinesPrefix k = false /\ stripDot k = k.
Proof.
  intros Hk. destruct (name_bytes k Hk) as [Hne Hb].
  destruct k as [|c k]; [congruence|].
  cbn [nameBytes] in Hb. apply andb_true_iff in Hb as [Hc _].
  destruct (nameByte_plain c Hc) as (_ & _ & _ & Hdot & _).
  unfold hasLinesPrefix, stripDot. cbn [firstByteIs]. rewrite Hdot, andb_false_r.
  repeat split; discriminate.
Qed.

Lemma fastGet_entries (H : Host) (k : string) (entries : list (string * string)) :
  name k = true -> forallb entry entries = true ->
  fastGet H (blockMapping entries) k
  = '(result, ok) <- match firstEntry k entries with
                     | Some v => extractValue H v
                     | None => Ret (Result_zero, false)
                     end ;;
    if negb ok then Ret (Result_zero, false)
    else if Type_eqb (Type' result) YAML || Type_eqb (Type' result) Null
    then Ret (Result_zero, false)
    else Ret (result, true).
Proof.
  intros Hk Hall. destruct (name_bytes k Hk) as [Hne Hb]. unfold fastGet.
  rewrite (splitPath_name k Hk), (hasComplexFeatures_name k Hb),
    (fastParsePath_entries H k entries Hk Hall).
  destruct k; [congruence | reflexivity].
Qed.

(** X22. On a block mapping of names and scalar words a name is answered
    by the fast path from the first line that carries it: [Get] returns
    what [extractValue] makes of that value, unless that is [Null]. *)
Theorem Get_block_mapping_entry (H : Host) (modifiers : registry)
  (entries : list (string * string)) (k v : string) (r : Result) :
  name k = true -> forallb entry entries = true ->
  firstEntry k entries = Some v ->
  extractValue H v = Ret (r, true) ->
  Type' r <> Null ->
  Get H modifiers (blockMapping entries) k = Ret r.
Proof.
  intros Hk Hall Hfirst Hr Hnull.
  destruct (name_path k Hk) as (Hne & Hlines & Hstrip).
  apply Get_fast; [exact Hne | exact Hlines |].
  rewrite Hstrip, (fastGet_entries H k entries Hk Hall), Hfirst, Hr.
  pose proof (extractValue_not_tree H _ r Hr) as Htree.
  cbn [bind negb]. destruct (Type' r); try congruence; reflexivity.
Qed.

(** X23. A name that no line of a block mapping carries is never
    answered by the fast path: [Get] returns what the parser and the
    traversal engine make of it. *)
Theorem Get_block_mapping_missing (H : Host) (modifiers : registry)
  (entries : list (string * string)) (k : string) :
  name k = true -> forallb entry entries = true ->
  firstEntry k entries = None ->
  Get H modifiers (blockMapping entries) k
  = Ret (slowGet H modifiers (blockMapping entries) k).
Proof.
  intros Hk Hall Hfirst.
  destruct (name_path k Hk) as (Hne & Hlines & Hstrip).
  unfold Get. rewrite Hlines, Hstrip, (fastGet_entries H k entries Hk Hall), Hfirst.
  destruct k; [congruence | reflexivity].
Qed.

(** ** The operator of a query *)

Lemma operand_mem (s : string) :
  operand s = true ->
  strings.mem "=" s = false /\ strings.mem "!" s = false
  /\ strings.mem "<" s = false /\ strings.mem ">" s = false
  /\ strings.mem "%" s = false.
Proof.
  unfold operand. intros Hs. apply negb_true_iff in Hs.
  induction s as [|c s IH]; [repeat split|].
  cbn [strings.ContainsAny] in Hs. apply orb_false_iff in Hs as [Hc Hs].
  destruct (IH Hs) as (H1 & H2 & H3 & H4 & H5).
  cbn [strings.mem] in Hc |- *. rewrite H1, H2, H3, H4, H5.
  repeat (apply orb_false_iff in Hc as [? Hc]).
  repeat match goal with
         | E : Ascii.eqb c ?d = false |- _ =>
             rewrite (Ascii.eqb_sym c d) in E; rewrite E; clear E
         end.
  repeat split.
Qed.

Lemma Index_none (c : ascii) (t s : string) :
  strings.mem c s = false -> strings.Index s (String c t) = -1.
Proof.
  induction s as [|b s IH]; [reflexivity|].
  cbn [strings.mem]. intros Hs. apply orb_false_iff in Hs as [Hb Hs].
  cbn [strings.Index]. rewrite HasPrefix_cons.
  rewrite Ascii.eqb_sym in Hb. rewrite Hb, (IH Hs). reflexivity.
Qed.

Lemma Index_cons (a : ascii) (s p : string) :
  strings.Index (String a s) p
  = if strings.HasPrefix (String a s) p then 0
    else if strings.Index s p <? 0 then -1 else strings.Index s p + 1.
Proof. reflexivity. Qed.

Lemma Index_past (k rest : string) (c : ascii) (t : string) :
  strings.mem c k = false ->
  strings.Index rest (String c t) = -1 ->
  strings.Index (k ++ rest) (String c t) = -1.
Proof.
  intros Hk Hrest. induction k as [|b k IH]; [exact Hrest|].
  cbn [strings.mem] in Hk. apply orb_false_iff in Hk as [Hb Hk].
  cbn [append]. rewrite Index_cons, HasPrefix_cons.
  rewrite Ascii.eqb_sym in Hb. rewrite Hb, (IH Hk). reflexivity.
Qed.

Lemma HasPrefix_none (c : ascii) (t s : string) :
  strings.mem c s = false -> strings.HasPrefix s (String c t) = false.
Proof.
  destruct s as [|b s]; [reflexivity|]. cbn [strings.mem]. intros Hs.
  apply orb_false_iff in Hs as [Hb _]. rewrite HasPrefix_cons.
  rewrite Ascii.eqb_sym in Hb. rewrite Hb. reflexivity.
Qed.

Lemma findOperator_here (k v : string) (c : ascii) (t : string)
  (earlier later : list string) :
  Forall (fun op' => strings.Index (k ++ String c t ++ v) op' = -1) earlier ->
  strings.mem c k = false ->
  findOperator (k ++ String c t ++ v) (earlier ++ String c t :: later)%list
  = Some (strings.TrimSpace k, String c t, strings.TrimSpace v).
Proof.
  intros Hearlier Hk. induction Hearlier as [|op' earlier Hop _ IH].
  - cbn [app findOperator].
    assert (Hop : strings.HasPrefix (String c t ++ v) (String c t) = true).
    { change (String c t ++ v) with (String c (t ++ v)).
      rewrite HasPrefix_cons, Ascii.eqb_refl. cbn [andb].
      clear. unfold strings.HasPrefix.
      induction t as [|b t IH]; [destruct v; reflexivity|].
      cbn [append String.prefix]. destruct (ascii_dec b b); [exact IH | congruence]. }
    rewrite (Index_after k (String c t ++ v) c t Hk Hop).
    pose proof (len_nonneg k) as Hn.
    assert (E : negb (len k =? -1) = true).
    { apply negb_true_iff. apply Z.eqb_neq. lia. }
    rewrite E. cbv iota.
    rewrite len_to_nat, substring_prefix.
    replace (Z.to_nat (len k + len (String c t)))
      with (String.length k + String.length (String c t))%nat
      by (unfold len; lia).
    rewrite <- drop_drop, drop_append, drop_append. reflexivity.
  - cbn [app findOperator]. rewrite Hop. exact IH.
Qed.

Ltac absent_operator :=
  repeat first
    [ rewrite Index_none by assumption
    | rewrite HasPrefix_none by assumption
    | rewrite Index_cons
    | rewrite HasPrefix_cons
    | progress cbn [Ascii.eqb Bool.eqb andb Z.ltb Z.compare] ];
  reflexivity.

Lemma findOperator_operand (k op v : string) :
  In op operators -> operand k = true -> operand v = true ->
  findOperator (k ++ op ++ v) operators
  = Some (strings.TrimSpace k, op, strings.TrimSpace v).
Proof.
  intros Hop Hk Hv.
  destruct (operand_mem k Hk) as (Ke & Kb & Kl & Kg & Kp).
  destruct (operand_mem v Hv) as (Ve & Vb & Vl & Vg & Vp).
  unfold operators in Hop |- *. cbn [In] in Hop.
  destruct Hop as [<-|[<-|[<-|[<-|[<-|[<-|[<-|[<-|[]]]]]]]]].
  - apply (findOperator_here k v "=" "=" []); [constructor | assumption].
  - apply (findOperator_here k v "!" "=" ["=="]); [|assumption].
    repeat constructor; apply Index_past; try assumption; cbn [append]; absent_operator.
  - apply (findOperator_here k v "<" "=" ["=="; "!="]); [|assumption].
    repeat constructor; apply Index_past; try assumption; cbn [append]; absent_operator.
  - apply (findOperator_here k v ">" "=" ["=="; "!="; "<="]); [|assumption].
    repeat constructor; apply Index_past; try assumption; cbn [append]; absent_operator.
  - apply (findOperator_here k v "<" "" ["=="; "!="; "<="; ">="]); [|assumption].
    repeat constructor; apply Index_past; try assumption; cbn [append]; absent_operator.
  - apply (findOperator_here k v ">" "" ["=="; "!="; "<="; ">="; "<"]); [|assumption].
    repeat constructor; apply Index_past; try assumption; cbn [append]; absent_operator.
  - apply (findOperator_here k v "!" "%" ["=="; "!="; "<="; ">="; "<"; ">"]); [|assumption].
    repeat constructor; apply Index_past; try assumption; cbn [append]; absent_operator.
  - apply (findOperator_here k v "%" "" ["=="; "!="; "<="; ">="; "<"; ">"; "!%"]);
      [|assumption].
    repeat constructor; apply Index_past; try assumption; cbn [append]; absent_operator.
Qed.

(** X24. A query written as two operands around one of the eight
    operators, the operands holding none of the bytes [=], [!], [<], [>]
    and [%], is decided by that operator: [compareValues] gets the field
    the left operand names (the item itself when it is blank), the
    operator, and the right operand trimmed and stripped of quotes. *)
Theorem evaluateQuery_operator (H : Host) (item : value) (k op v : string) :
  In op operators -> operand k = true -> operand v = true ->
  evaluateQuery H item (k ++ op ++ v)
  = compareValues H
      (if String.eqb (strings.TrimSpace k) "" then item
       else getValueByKey item (strings.TrimSpace k))
      op
      (strings.Trim (strings.TrimSpace v) (String DQUOTE (String SQUOTE ""))).
Proof.
  intros Hop Hk Hv. unfold evaluateQuery.
  rewrite (findOperator_operand k op v Hop Hk Hv). reflexivity.
Qed.

(** ** Reversing twice *)

Lemma slowGet_modifier (H : Host) (modifiers : registry) (yaml path : string)
  (data : value) :
  Unmarshal H yaml = Some data ->
  path <> "this" ->
  Get H modifiers yaml (String "@" path)
  = Ret (applyModifier H modifiers data (String "@" path) yaml).
Proof.
  intros Hdata Hthis. unfold Get.
  assert (Hlines : hasLinesPrefix (String "@" path) = false).
  { unfold hasLinesPrefix. cbn [firstByteIs]. change (Ascii.eqb "@" ".") with false.
    rewrite andb_false_r. reflexivity. }
  rewrite Hlines. change (len (String "@" path) =? 0) with false. cbv iota zeta.
  change (stripDot (String "@" path)) with (String "@" path).
  assert (Hfast : fastGet H yaml (String "@" path) = Ret (Result_zero, false)).
  { unfold fastGet. change (len (String "@" path) =? 0) with false. cbv iota.
    change (hasComplexFeatures (String "@" path)) with true.
    destruct (splitPath (String "@" path)); reflexivity. }
  rewrite Hfast. cbn [bind]. unfold slowGet. rewrite Hdata. unfold getFromPath.
  cbn [firstByteIs String.eqb orb]. change (Ascii.eqb "@" "@") with true.
  destruct (String.eqb_spec path "this") as [->|_]; [congruence|].
  reflexivity.
Qed.

(** X25. On a document that parses to a sequence, [@reverse] answers
    with the reversed sequence and [@reverse|@reverse] with the sequence
    itself, provided the YAML library reads back what it wrote for the
    two. *)
Theorem Get_reverse_twice (H : Host) (yaml : string) (items : list value) :
  Unmarshal H yaml = Some (VSeq items) ->
  Unmarshal H (Marshal H (VSeq (List.rev items))) = Some (VSeq (List.rev items)) ->
  Unmarshal H (Marshal H (VSeq items)) = Some (VSeq items) ->
  Get H (builtin_modifiers H) yaml "@reverse"
  = Ret (valueToResult H (VSeq (List.rev items)))
  /\ Get H (builtin_modifiers H) yaml "@reverse|@reverse"
     = Ret (valueToResult H (VSeq items)).
Proof.
  intros Hyaml Hrev Hback.
  assert (Hone : forall text xs,
             Unmarshal H text = Some (VSeq xs) ->
             Unmarshal H (Marshal H (VSeq (List.rev xs))) = Some (VSeq (List.rev xs)) ->
             applyModifier H (builtin_modifiers H) (VSeq items) "@reverse" text
             = valueToResult H (VSeq (List.rev xs))).
  { intros text xs Htext Hxs.
    change "@reverse" with ("@" ++ "reverse" ++ "").
    rewrite (applyModifier_single H (builtin_modifiers H) (VSeq items) "reverse" ""
               text ""); [| reflexivity | reflexivity | left; split; reflexivity].
    change (builtin_modifiers H "reverse") with (Some (modReverse H)).
    unfold modReverse, unmarshalOrNil. rewrite Htext, Hxs. reflexivity. }
  split.
  - rewrite (slowGet_modifier H _ yaml "reverse" _ Hyaml); [|discriminate].
    rewrite (Hone yaml items Hyaml Hrev). reflexivity.
  - rewrite (slowGet_modifier H _ yaml "reverse|@reverse" _ Hyaml); [|discriminate].
    change (String "@" "reverse|@reverse")
      with (String "@" (("reverse" ++ "|") ++ "@reverse")).
    rewrite (applyModifier_piped H (builtin_modifiers H) (VSeq items) "reverse"
               "@reverse" yaml); [| reflexivity | reflexivity].
    change (builtin_modifiers H "reverse") with (Some (modReverse H)).
    change (beforeColon "@reverse") with "@reverse".
    change (afterColon "@reverse") with "". cbv beta iota.
    assert (Hm : modReverse H yaml "" = Marshal H (VSeq (List.rev items)))
      by (unfold modReverse; rewrite Hyaml; reflexivity).
    rewrite Hm, (Hone _ (List.rev items) Hrev); rewrite List.rev_involutive;
      [reflexivity | exact Hback].
Qed.

(** ** Lines mode *)

Lemma Split_oneLine (l : string) :
  oneLine l = true -> strings.Split l NL = [l].
Proof.
  unfold oneLine. intros Hl. apply negb_true_iff in Hl.
  induction l as [|c l IH]; [reflexivity|].
  cbn [strings.mem] in Hl. apply orb_false_iff in Hl as [Hc Hl].
  cbn [strings.Split]. rewrite Ascii.eqb_sym in Hc. rewrite Hc, (IH Hl). reflexivity.
Qed.

Lemma Split_line (l rest : string) :
  oneLine l = true ->
  strings.Split (l ++ String NL rest) NL = l :: strings.Split rest NL.
Proof.
  unfold oneLine. intros Hl. apply negb_true_iff in Hl.
  induction l as [|c l IH].
  - cbn [append strings.Split]. change (Ascii.eqb NL NL) with true. reflexivity.
  - cbn [strings.mem] in Hl. apply orb_false_iff in Hl as [Hc Hl].
    cbn [append strings.Split]. rewrite Ascii.eqb_sym in Hc.
    rewrite Hc, (IH Hl). reflexivity.
Qed.

Lemma Split_Join (line : string) (lines : list string) :
  forallb oneLine (line :: lines) = true ->
  strings.Split (strings.Join (line :: lines) (String NL "")) NL = line :: lines.
Proof.
  unfold strings.Join. revert line.
  induction lines as [|next lines IH]; intros line Hall;
    cbn [forallb] in Hall; apply andb_true_iff in Hall as [Hl Hall].
  - apply (Split_oneLine line Hl).
  - assert (E : String.concat (String NL "") (line :: next :: lines)
                = line ++ String NL (String.concat (String NL "") (next :: lines)))
      by reflexivity.
    rewrite E, (Split_line line _ Hl), (IH next Hall). reflexivity.
Qed.

Lemma parseLines_kept (H : Host) (lines : list string) :
  List.length (parseLines H lines) = List.length (filter (kept H) lines).
Proof.
  induction lines as [|line lines IH]; [reflexivity|].
  cbn [parseLines filter]. unfold kept at 1.
  destruct (String.eqb (strings.TrimSpace line) ""); cbn [negb andb]; [exact IH|].
  destruct (Unmarshal H (strings.TrimSpace line)); cbn [List.length]; congruence.
Qed.

(** X26. In lines mode [#] counts the lines that are kept: the path
    [..#] on the lines joined by line breaks gives the number of lines
    that are not blank and that the parser accepts once trimmed. *)
Theorem Get_lines_count (H : Host) (modifiers : registry) (lines : list string) :
  forallb oneLine lines = true ->
  Get H modifiers (strings.Join lines (String NL "")) "..#"
  = Ret (countResult (Z.of_nat (List.length (filter (kept H) lines)))).
Proof.
  intros Hall. unfold Get. change (hasLinesPrefix "..#") with true. cbv iota.
  unfold getMany. change (drop 2 "..#") with "#".
  unfold getFromPath. change (parsePath "#") with [countComponent].
  cbn [String.eqb Ascii.eqb Bool.eqb orb firstByteIs].
  rewrite traversePath_count. do 2 f_equal. f_equal.
  destruct lines as [|line lines]; [reflexivity|].
  rewrite (Split_Join line lines Hall). apply parseLines_kept.
Qed.

(** ** The properties at sample inputs *)

Lemma parsePath_splitPath_witness :
  operatorFree false "name.first" = true
  /\ parsePath "name.first" = map parseComponent (splitPath "name.first").
Proof.
  split; [reflexivity|]. apply (parsePath_splitPath "name.first"). reflexivity.
Defined.

Lemma matchPattern_literal_witness :
  literal "name" = true
  /\ (matchPattern "name" "name" = true <-> "name" = "name").
Proof.
  split; [reflexivity|]. apply (matchPattern_literal "name" "name"). reflexivity.
Defined.

Lemma matchPattern_prefix_witness :
  literal "fir" = true
  /\ matchPattern "first" ("fir" ++ "*") = strings.HasPrefix "first" "fir".
Proof.
  split; [reflexivity|]. apply (matchPattern_prefix "first" "fir"). reflexivity.
Defined.

Lemma extractValue_raw_witness :
  let r := mkResult String_ "Tom" "Tom" 0%float 0 [] in
  extractValue SampleHost.host " Tom " = Ret (r, true)
  /\ (true = false <-> strings.TrimSpace " Tom " = "")
  /\ (true = true -> Raw r = strings.TrimSpace " Tom " /\ Index r = 0 /\ Indexes r = []).
Proof.
  split; [reflexivity|].
  apply (extractValue_raw SampleHost.host " Tom "). reflexivity.
Defined.

Lemma evaluateQuery_no_operator_witness :
  existsb (strings.Contains "last") operators = false
  /\ evaluateQuery SampleHost.host (friend "Jane" "Murphy" 47 ["ig"; "tw"]) "last"
     = false.
Proof.
  split; [reflexivity|].
  apply (evaluateQuery_no_operator SampleHost.host _ "last"). reflexivity.
Defined.

Lemma evaluateQuery_equals_witness :
  strings.mem "=" "last" = false
  /\ evaluateQuery SampleHost.host (friend "Jane" "Murphy" 47 ["ig"; "tw"])
       ("last" ++ "==" ++ "Murphy")
     = String.eqb
         (Sprint SampleHost.host
            (if String.eqb (strings.TrimSpace "last") ""
             then friend "Jane" "Murphy" 47 ["ig"; "tw"]
             else getValueByKey (friend "Jane" "Murphy" 47 ["ig"; "tw"])
                    (strings.TrimSpace "last")))
         (strings.Trim (strings.TrimSpace "Murphy") (String DQUOTE (String SQUOTE ""))).
Proof.
  split; [reflexivity|].
  apply (evaluateQuery_equals SampleHost.host _ "last" "Murphy"). reflexivity.
Defined.

Lemma Get_reports_no_offset_witness :
  let r := mkResult String_ "Tom" "Tom" 0%float 0 [] in
  Get SampleHost.host (builtin_modifiers SampleHost.host) readme "name.first" = Ret r
  /\ Index r = 0 /\ Indexes r = [].
Proof.
  split; [vm_compute; reflexivity|].
  apply (Get_reports_no_offset SampleHost.host (builtin_modifiers SampleHost.host)
           readme "name.first").
  vm_compute. reflexivity.
Defined.

Lemma Result_Get_offset_witness :
  let t := mkResult YAML readme "" 0%float 7 [] in
  let r := mkResult String_ "Tom" "Tom" 0%float 0 [] in
  - 2 ^ 63 <= Index t < 2 ^ 63
  /\ Get SampleHost.host (builtin_modifiers SampleHost.host) (Raw t) "name.first" = Ret r
  /\ Result_Get SampleHost.host (builtin_modifiers SampleHost.host) t "name.first"
     = Ret (mkResult (Type' r) (Raw r) (Str r) (Num r) (Index t) []).
Proof.
  split; [cbn; lia|]. split; [vm_compute; reflexivity|].
  apply (Result_Get_offset SampleHost.host (builtin_modifiers SampleHost.host)
           (mkResult YAML readme "" 0%float 7 []) "name.first").
  - cbn. lia.
  - vm_compute. reflexivity.
Defined.

Lemma applyModifier_dispatch_witness :
  let H := SampleHost.host in
  let modifiers := builtin_modifiers SampleHost.host in
  let yamlStr := SampleHost.marshal readme_children in
  strings.mem ":" "join" = false
  /\ strings.mem "|" "join" = false
  /\ applyModifier H modifiers readme_children ("@" ++ "join") yamlStr
     = match modifiers "join" with
       | Some fn => valueToResult H (unmarshalOrNil H (fn yamlStr ""))
       | None => valueToResult H readme_children
       end
  /\ applyModifier H modifiers readme_children ("@" ++ "join" ++ ":" ++ "-") yamlStr
     = match modifiers "join" with
       | Some fn => valueToResult H (unmarshalOrNil H (fn yamlStr "-"))
       | None => valueToResult H readme_children
       end.
Proof.
  split; [reflexivity|]. split; [reflexivity|].
  apply (applyModifier_dispatch SampleHost.host (builtin_modifiers SampleHost.host)
           readme_children "join" "-"); reflexivity.
Defined.

Lemma applyModifier_chain_witness :
  let H := SampleHost.host in
  let modifiers := builtin_modifiers SampleHost.host in
  let yamlStr := SampleHost.marshal readme_children in
  (strings.mem ":" "reverse" = false /\ strings.mem "|" "reverse" = false
   /\ strings.mem ":" "this" = false /\ strings.mem "|" "this" = false)
  /\ applyModifier H modifiers readme_children
       ("@" ++ "reverse" ++ "|" ++ "@this:x") yamlStr
     = match modifiers "reverse" with
       | Some fn =>
           applyModifier H modifiers readme_children (beforeColon "@this:x")
                         (fn yamlStr (afterColon "@this:x"))
       | None => valueToResult H readme_children
       end
  /\ applyModifier H modifiers readme_children
       ("@" ++ "reverse" ++ "|" ++ "@" ++ "this" ++ ":" ++ "x") yamlStr
     = match modifiers "reverse", modifiers "this" with
       | Some fn, Some fn' =>
           valueToResult H (unmarshalOrNil H (fn' (fn yamlStr "x") ""))
       | _, _ => valueToResult H readme_children
       end.
Proof.
  split; [repeat split|].
  apply (applyModifier_chain SampleHost.host (builtin_modifiers SampleHost.host)
           readme_children "reverse" "@this:x" "this" "x"); reflexivity.
Defined.

Lemma getFromPath_chain_witness :
  let H := SampleHost.host in
  let modifiers := builtin_modifiers SampleHost.host in
  plainFrom false "name" = true
  /\ firstByteIs "name" "@" = false
  /\ firstByteIs "first" "@" = false
  /\ parsePath ("name" ++ "." ++ "first") = (parsePath "name" ++ parsePath "first")%list
  /\ getFromPath H modifiers readme_data ("name" ++ "." ++ "first") readme
     = match descend (parsePath "name") readme_data with
       | None => Result_zero
       | Some current => getFromPath H modifiers current "first" readme
       end.
Proof.
  split; [reflexivity|]. split; [reflexivity|]. split; [reflexivity|].
  apply (getFromPath_chain SampleHost.host (builtin_modifiers SampleHost.host)
           readme_data "name" "first" readme); reflexivity.
Defined.

Lemma parseArrayElements_blockSequence_witness :
  forallb word ["Sara"; "Alex"; "Jack"] = true
  /\ parseArrayElements (blockSequence ["Sara"; "Alex"; "Jack"])
     = ["Sara"; "Alex"; "Jack"].
Proof.
  split; [reflexivity|].
  apply (parseArrayElements_blockSequence ["Sara"; "Alex"; "Jack"]). reflexivity.
Defined.

Lemma Get_block_sequence_item_witness :
  let H := SampleHost.host in
  let items := ["Sara"; "Alex"; "Jack"] in
  let r := mkResult String_ "Alex" "Alex" 0%float 0 [] in
  forallb word items = true
  /\ strconv.Atoi "1" = Some 1
  /\ 0 <= 1 < Z.of_nat (List.length items)
  /\ extractValue H (nth (Z.to_nat 1) items "") = Ret (r, true)
  /\ Type' r <> Null
  /\ Get H (builtin_modifiers H) (blockSequence items) "1" = Ret r.
Proof.
  split; [reflexivity|]. split; [reflexivity|]. split; [cbn; lia|].
  split; [reflexivity|]. split; [discriminate|].
  apply (Get_block_sequence_item SampleHost.host (builtin_modifiers SampleHost.host)
           ["Sara"; "Alex"; "Jack"] "1" 1);
    [reflexivity | reflexivity | cbn; lia | reflexivity | discriminate].
Defined.

Lemma Get_block_sequence_count_witness :
  forallb word ["Sara"; "Alex"; "Jack"] = true
  /\ Get SampleHost.host (builtin_modifiers SampleHost.host)
       (blockSequence ["Sara"; "Alex"; "Jack"]) "#"
     = Ret (countResult (Z.of_nat (List.length ["Sara"; "Alex"; "Jack"]))).
Proof.
  split; [reflexivity|].
  apply (Get_block_sequence_count SampleHost.host (builtin_modifiers SampleHost.host)
           ["Sara"; "Alex"; "Jack"]).
  reflexivity.
Defined.

Lemma Get_block_mapping_entry_witness :
  let H := SampleHost.host in
  let entries := [("name", "Tom"); ("age", "37")] in
  let r := mkResult Number "37" "" (float64_of_int 37) 0 [] in
  name "age" = true
  /\ forallb entry entries = true
  /\ firstEntry "age" entries = Some "37"
  /\ extractValue H "37" = Ret (r, true)
  /\ Type' r <> Null
  /\ Get H (builtin_modifiers H) (blockMapping entries) "age" = Ret r.
Proof.
  split; [reflexivity|]. split; [reflexivity|]. split; [reflexivity|].
  split; [reflexivity|]. split; [discriminate|].
  apply (Get_block_mapping_entry SampleHost.host (builtin_modifiers SampleHost.host)
           [("name", "Tom"); ("age", "37")] "age" "37");
    [reflexivity | reflexivity | reflexivity | reflexivity | discriminate].
Defined.

Lemma Get_block_mapping_missing_witness :
  let H := SampleHost.host in
  let entries := [("name", "Tom"); ("age", "37")] in
  name "city" = true
  /\ forallb entry entries = true
  /\ firstEntry "city" entries = None
  /\ Get H (builtin_modifiers H) (blockMapping entries) "city"
     = Ret (slowGet H (builtin_modifiers H) (blockMapping entries) "city").
Proof.
  split; [reflexivity|]. split; [reflexivity|]. split; [reflexivity|].
  apply (Get_block_mapping_missing SampleHost.host (builtin_modifiers SampleHost.host)
           [("name", "Tom"); ("age", "37")] "city"); reflexivity.
Defined.

Lemma evaluateQuery_operator_witness :
  let item := friend "Jane" "Murphy" 47 ["ig"; "tw"] in
  In "%" operators /\ operand "last" = true /\ operand "Mur*" = true
  /\ evaluateQuery SampleHost.host item ("last" ++ "%" ++ "Mur*")
     = compareValues SampleHost.host
         (if String.eqb (strings.TrimSpace "last") "" then item
          else getValueByKey item (strings.TrimSpace "last"))
         "%"
         (strings.Trim (strings.TrimSpace "Mur*") (String DQUOTE (String SQUOTE ""))).
Proof.
  assert (Hop : In "%" operators) by (unfold operators; cbn [In]; tauto).
  split; [exact Hop|]. split; [reflexivity|]. split; [reflexivity|].
  apply (evaluateQuery_operator SampleHost.host _ "last" "%" "Mur*" Hop); reflexivity.
Defined.

Lemma Get_reverse_twice_witness :
  let H := SampleHost.host in
  let items := [VString "Sara"; VString "Alex"; VString "Jack"] in
  let yaml := SampleHost.marshal (VSeq items) in
  Unmarshal H yaml = Some (VSeq items)
  /\ Unmarshal H (Marshal H (VSeq (List.rev items))) = Some (VSeq (List.rev items))
  /\ Unmarshal H (Marshal H (VSeq items)) = Some (VSeq items)
  /\ Get H (builtin_modifiers H) yaml "@reverse"
     = Ret (valueToResult H (VSeq (List.rev items)))
  /\ Get H (builtin_modifiers H) yaml "@reverse|@reverse"
     = Ret (valueToResult H (VSeq items)).
Proof.
  split; [reflexivity|]. split; [reflexivity|]. split; [reflexivity|].
  apply (Get_reverse_twice SampleHost.host
           (SampleHost.marshal (VSeq [VString "Sara"; VString "Alex"; VString "Jack"]))
           [VString "Sara"; VString "Alex"; VString "Jack"]); reflexivity.
Defined.

Lemma Get_lines_count_witness :
  forallb oneLine ["a: 1"; ""; "b"] = true
  /\ Get SampleHost.host (builtin_modifiers SampleHost.host)
       (strings.Join ["a: 1"; ""; "b"] (String NL "")) "..#"
     = Ret (countResult (Z.of_nat (List.length (filter (kept SampleHost.host)
                                                  ["a: 1"; ""; "b"])))).
Proof.
  split; [reflexivity|].
  apply (Get_lines_count SampleHost.host (builtin_modifiers SampleHost.host)
           ["a: 1"; ""; "b"]).
  reflexivity.
Defined.
